(** * Inventory tracker: ledger, cached quantities and sessions

    A shallow embedding of the service functions of the inventory tracker
    (lib/inventory.js, lib/products.js, lib/sessions.js, lib/db.js, and the
    low stock report of the reporting functions) over an explicit model of
    the D1 store, and the properties of the inventory and session engines
    proved on it.

    Modelling conventions.
    - Every service function is [async] over a mutable database handle: it
      either resolves with a value or rejects with an error, and the
      statements it executed before rejecting stay executed (no statement
      sequence is wrapped in a database transaction).  A computation is a
      function from the store to a completion and the store it leaves.
    - Tables that are addressed by a key are finite maps on that key
      ([products] and [sessions] on PRIMARY KEY id, [inventory] on
      UNIQUE(product_id, location_id)); [inventory_transactions] is the
      row list in insertion order, its PRIMARY KEY id tested on INSERT.  An
      INSERT on a taken key is refused by the store, and so is an INSERT
      into [inventory_transactions] of a transaction type outside the CHECK
      list of the schema.
    - The REFERENCES and NOT NULL clauses of the schema are not part of
      the model, and a key that an object literal leaves out is bound as
      NULL.  A store that enforces them refuses calls that the model lets
      resolve; the properties of the calls that write are therefore stated
      by outcome: what holds when the call resolves, and what a rejected
      call leaves in place.
    - [generateId] concatenates a prefix and a version 4 UUID; the UUID that
      was drawn is an argument of the operation.
    - Quantities are JavaScript numbers holding integers: [Z].
    - Timestamp columns, the surrogate id of inventory rows and the product
      columns that no modelled query reads are left out. *)

From stdpp Require Import gmap strings list fin_maps pretty sorting.
From Stdlib Require Import ZArith Lia Ascii.

Local Open Scope string_scope.
Local Open Scope Z_scope.

(** ** Rows *)

Record product := {
  product_name : string;
  barcode : option string;
  description : option string;
  category_id : option string;
  minimum_stock : option Z;
  is_active : bool
}.

Record category := {
  category_name : string;
  parent_id : option string
}.

Record location := {
  location_name : string;
  location_type : string
}.

(** The object handed to [createInventoryTransaction]. *)
Record transaction_data := {
  transaction_type : string;
  product_id : string;
  source_location_id : option string;
  destination_location_id : option string;
  quantity : Z;
  batch_number : option string;
  expiration_date : option string;
  notes : option string
}.

(** A row of inventory_transactions. *)
Record transaction := {
  trx_id : string;
  trx_data : transaction_data;
  created_by : string;
  session_id : option string
}.

Record session := {
  session_type : string;
  status : string;
  location_id : option string;
  session_created_by : string;
  session_notes : option string
}.

(** ** The store *)

Record db := {
  products : gmap string product;
  categories : gmap string category;
  locations : gmap string location;
  inventory : gmap (string * string) Z;
  inventory_transactions : list transaction;
  sessions : gmap string session
}.

Definition empty_db : db :=
  {| products := ∅; categories := ∅; locations := ∅; inventory := ∅;
     inventory_transactions := []; sessions := ∅ |}.

Definition with_products (f : gmap string product → gmap string product) (st : db) : db :=
  {| products := f (products st); categories := categories st;
     locations := locations st; inventory := inventory st;
     inventory_transactions := inventory_transactions st;
     sessions := sessions st |}.

Definition with_inventory (f : gmap (string * string) Z → gmap (string * string) Z) (st : db) : db :=
  {| products := products st; categories := categories st;
     locations := locations st; inventory := f (inventory st);
     inventory_transactions := inventory_transactions st;
     sessions := sessions st |}.

Definition with_transactions (f : list transaction → list transaction) (st : db) : db :=
  {| products := products st; categories := categories st;
     locations := locations st; inventory := inventory st;
     inventory_transactions := f (inventory_transactions st);
     sessions := sessions st |}.

Definition with_sessions (f : gmap string session → gmap string session) (st : db) : db :=
  {| products := products st; categories := categories st;
     locations := locations st; inventory := inventory st;
     inventory_transactions := inventory_transactions st;
     sessions := f (sessions st) |}.

(** ** Errors and computations *)

Inductive error :=
  | JsError (message : string)          (* throw new Error(message) *)
  | ConstraintFailed (column : string). (* the store refuses an INSERT *)

Inductive completion (A : Type) :=
  | Resolved (a : A)
  | Rejected (e : error).
Arguments Resolved {A} a.
Arguments Rejected {A} e.

Definition M (A : Type) : Type := db → completion A * db.

Definition ret {A} (a : A) : M A := λ st, (Resolved a, st).
Definition throw {A} (e : error) : M A := λ st, (Rejected e, st).
Definition bind {A B} (m : M A) (k : A → M B) : M B :=
  λ st, match m st with
        | (Resolved a, st') => k a st'
        | (Rejected e, st') => (Rejected e, st')
        end.
Definition get : M db := λ st, (Resolved st, st).
Definition modify (f : db → db) : M unit := λ st, (Resolved tt, f st).

Notation "x <- m ;; k" := (bind m (λ x, k))
  (at level 100, m at next level, right associativity).
Notation "m ;;; k" := (bind m (λ _, k))
  (at level 100, right associativity).

(** [for (const x of xs) { await body(x) }] *)
Fixpoint for_of {A} (xs : list A) (body : A → M unit) : M unit :=
  match xs with
  | [] => ret tt
  | x :: xs' => body x ;;; for_of xs' body
  end.

(** The spec's error kinds, as sets of the errors the code raises. *)
Definition NotFound (e : error) : Prop :=
  e = JsError "Session not found" ∨
  e = JsError "Product not found in this location" ∨
  e = JsError "Product not found in source location" ∨
  e = JsError "Product not found".
Definition InvalidState (e : error) : Prop :=
  e = JsError "Session is already completed or cancelled" ∨
  e = JsError "Cannot add products to a completed or cancelled session".
Definition InsufficientStock (e : error) : Prop :=
  e = JsError "Insufficient quantity available" ∨
  e = JsError "Insufficient quantity available for transfer".
Definition DuplicateKey (e : error) : Prop :=
  e = JsError "Product with this barcode already exists" ∨
  ∃ column, e = ConstraintFailed column.

(** ** lib/db.js *)

Definition generateId (prefix uuid : string) : string := prefix +:+ uuid.
Arguments generateId : simpl never.

(** JavaScript truthiness of a nullable string: [null], [undefined] and the
    empty string are falsy. *)
Definition truthy (o : option string) : bool :=
  match o with
  | Some s => negb (String.eqb s "")
  | None => false
  end.

(** The string a nullable id holds when it is passed on as an argument. *)
Definition val (o : option string) : string := default "" o.

(** ** lib/inventory.js: the transaction ledger and the quantities *)

(** [SELECT * FROM inventory WHERE product_id = ? AND location_id = ?] *)
Definition fetch_inventory (productId locationId : string) : M (option Z) :=
  st <- get ;; ret (inventory st !! (productId, locationId)).

(** [UPDATE inventory SET quantity = quantity + ? WHERE product_id = ? AND
    location_id = ?]; no row matches when the pair has no record. *)
Definition update_quantity_by (d : Z) (productId locationId : string) : M unit :=
  modify (with_inventory (alter (λ q, q + d) (productId, locationId))).

(** [UPDATE inventory SET quantity = ? WHERE ...] *)
Definition update_quantity_to (q : Z) (productId locationId : string) : M unit :=
  modify (with_inventory (alter (λ _, q) (productId, locationId))).

(** [INSERT INTO inventory (id, product_id, location_id, quantity, ...)] *)
Definition insert_inventory (productId locationId : string) (q : Z) : M unit :=
  st <- get ;;
  match inventory st !! (productId, locationId) with
  | Some _ => throw (ConstraintFailed "inventory.product_id, inventory.location_id")
  | None => modify (with_inventory (<[(productId, locationId) := q]>))
  end.

(** [transaction_type TEXT CHECK(transaction_type IN ('check_in',
    'check_out', 'adjustment', 'transfer')) NOT NULL] *)
Definition transaction_type_accepted (type : string) : bool :=
  String.eqb type "check_in" || String.eqb type "check_out"
  || String.eqb type "adjustment" || String.eqb type "transfer".

Arguments transaction_type_accepted : simpl never.

(** [INSERT INTO inventory_transactions (...)]: refused on a transaction
    type outside the CHECK list and on a taken id. *)
Definition insert_transaction (row : transaction) : M unit :=
  st <- get ;;
  if negb (transaction_type_accepted (transaction_type (trx_data row)))
  then throw (ConstraintFailed "inventory_transactions.transaction_type")
  else if existsb (λ t, String.eqb (trx_id t) (trx_id row)) (inventory_transactions st)
  then throw (ConstraintFailed "inventory_transactions.id")
  else modify (with_transactions (λ l, (l ++ [row])%list)).

Definition updateInventoryForCheckIn (productId locationId : string) (qty : Z) : M unit :=
  existingInventory <- fetch_inventory productId locationId ;;
  match existingInventory with
  | Some _ => update_quantity_by qty productId locationId
  | None => insert_inventory productId locationId qty
  end.

Definition updateInventoryForCheckOut (productId locationId : string) (qty : Z) : M unit :=
  existingInventory <- fetch_inventory productId locationId ;;
  match existingInventory with
  | None => throw (JsError "Product not found in this location")
  | Some available =>
      if available <? qty then throw (JsError "Insufficient quantity available")
      else update_quantity_by (- qty) productId locationId
  end.

Definition updateInventoryForTransfer
    (productId sourceLocationId destinationLocationId : string) (qty : Z) : M unit :=
  sourceInventory <- fetch_inventory productId sourceLocationId ;;
  match sourceInventory with
  | None => throw (JsError "Product not found in source location")
  | Some available =>
      if available <? qty
      then throw (JsError "Insufficient quantity available for transfer")
      else
        update_quantity_by (- qty) productId sourceLocationId ;;;
        destinationInventory <- fetch_inventory productId destinationLocationId ;;
        match destinationInventory with
        | Some _ => update_quantity_by qty productId destinationLocationId
        | None => insert_inventory productId destinationLocationId qty
        end
  end.

(** [SELECT t.*, ... FROM inventory_transactions t JOIN products p ON
    t.product_id = p.id ... WHERE t.id = ?] *)
Definition getTransactionById (id : string) : M (option transaction) :=
  st <- get ;;
  ret (t ← find (λ t, String.eqb (trx_id t) id) (inventory_transactions st);
       _ ← products st !! product_id (trx_data t);
       Some t).

(** The dispatch of [createInventoryTransaction] on the transaction type
    ("Update inventory based on transaction type"). *)
Definition update_inventory_for (transactionData : transaction_data) : M unit :=
  if String.eqb (transaction_type transactionData) "check_in"
     && truthy (destination_location_id transactionData)
  then updateInventoryForCheckIn (product_id transactionData)
         (val (destination_location_id transactionData)) (quantity transactionData)
  else if String.eqb (transaction_type transactionData) "check_out"
     && truthy (source_location_id transactionData)
  then updateInventoryForCheckOut (product_id transactionData)
         (val (source_location_id transactionData)) (quantity transactionData)
  else if String.eqb (transaction_type transactionData) "transfer"
     && truthy (source_location_id transactionData)
     && truthy (destination_location_id transactionData)
  then updateInventoryForTransfer (product_id transactionData)
         (val (source_location_id transactionData))
         (val (destination_location_id transactionData)) (quantity transactionData)
  else ret tt.

Definition createInventoryTransaction
    (uuid : string) (transactionData : transaction_data)
    (userId : string) (sessionId : option string) : M (option transaction) :=
  let id := generateId "trx-" uuid in
  insert_transaction
    {| trx_id := id; trx_data := transactionData;
       created_by := userId; session_id := sessionId |} ;;;
  update_inventory_for transactionData ;;;
  getTransactionById id.

(** [updateInventoryQuantity(db, productId, locationId, quantity, userId)]:
    sets the record to the counted quantity, then logs an adjustment. *)
Definition updateInventoryQuantity
    (uuid : string) (productId locationId : string) (qty : Z) (userId : string)
    : M (option Z) :=
  existingInventory <- fetch_inventory productId locationId ;;
  match existingInventory with
  | Some existing =>
      let adjustment := qty - existing in
      update_quantity_to qty productId locationId ;;;
      createInventoryTransaction uuid
        {| transaction_type := if 0 <? adjustment then "adjustment" else "adjustment";
           product_id := productId;
           source_location_id := if adjustment <? 0 then Some locationId else None;
           destination_location_id := if 0 <? adjustment then Some locationId else None;
           quantity := Z.abs adjustment;
           batch_number := None;
           expiration_date := None;
           notes := Some ("Manual quantity adjustment from " +:+ pretty existing
                          +:+ " to " +:+ pretty qty) |}
        userId None ;;;
      ret tt
  | None =>
      insert_inventory productId locationId qty ;;;
      createInventoryTransaction uuid
        {| transaction_type := "adjustment";
           product_id := productId;
           source_location_id := None;
           destination_location_id := Some locationId;
           quantity := qty;
           batch_number := None;
           expiration_date := None;
           notes := Some "Initial inventory setup" |}
        userId None ;;;
      ret tt
  end ;;;
  st <- get ;;
  ret (_ ← products st !! productId;
       _ ← locations st !! locationId;
       inventory st !! (productId, locationId)).

(** ** lib/products.js *)

(** [SELECT id FROM products WHERE barcode = ?] *)
Definition fetch_product_by_barcode (b : string) : M (option string) :=
  st <- get ;;
  ret (fst <$> List.find (λ kv, bool_decide (barcode kv.2 = Some b))
                 (map_to_list (products st))).

Definition getProductById (id : string) : M (option product) :=
  st <- get ;; ret (products st !! id).

(** [INSERT INTO products (...)]: id is the primary key, barcode is UNIQUE
    (NULLs are distinct from one another). *)
Definition insert_product (id : string) (row : product) : M unit :=
  st <- get ;;
  match products st !! id with
  | Some _ => throw (ConstraintFailed "products.id")
  | None =>
      match barcode row with
      | Some b =>
          taken <- fetch_product_by_barcode b ;;
          match taken with
          | Some _ => throw (ConstraintFailed "products.barcode")
          | None => modify (with_products (<[id := row]>))
          end
      | None => modify (with_products (<[id := row]>))
      end
  end.

(** [createProduct(db, productData, userId)].  [is_active] is not among the
    inserted columns and takes its default, 1. *)
Definition createProduct (uuid : string) (productData : product) (userId : string)
    : M (option product) :=
  (if truthy (barcode productData) then
     existingProduct <- fetch_product_by_barcode (val (barcode productData)) ;;
     match existingProduct with
     | Some _ => throw (JsError "Product with this barcode already exists")
     | None => ret tt
     end
   else ret tt) ;;;
  let id := generateId "prod-" uuid in
  insert_product id
    {| product_name := product_name productData;
       barcode := barcode productData;
       description := description productData;
       category_id := category_id productData;
       minimum_stock := minimum_stock productData;
       is_active := true |} ;;;
  getProductById id.

Definition deactivate (p : product) : product :=
  {| product_name := product_name p; barcode := barcode p;
     description := description p; category_id := category_id p;
     minimum_stock := minimum_stock p; is_active := false |}.

(** [deleteProduct(db, id)]: a soft delete. *)
Definition deleteProduct (id : string) : M bool :=
  existingProduct <- getProductById id ;;
  match existingProduct with
  | None => throw (JsError "Product not found")
  | Some _ =>
      modify (with_products (alter deactivate id)) ;;;
      ret true
  end.

(** ** lib/sessions.js *)

Definition getSessionById (id : string) : M (option session) :=
  st <- get ;; ret (sessions st !! id).

Definition createSession
    (uuid : string) (sessionType : string) (locationId : option string)
    (sessionNotes : option string) (userId : string) : M (option session) :=
  let id := generateId "sess-" uuid in
  (st <- get ;;
   match sessions st !! id with
   | Some _ => throw (ConstraintFailed "sessions.id")
   | None =>
       modify (with_sessions (<[id := {| session_type := sessionType;
                                         status := "in_progress";
                                         location_id := locationId;
                                         session_created_by := userId;
                                         session_notes := sessionNotes |}]>))
   end) ;;;
  getSessionById id.

(** [SELECT t.* ... FROM inventory_transactions t JOIN products p ON
    t.product_id = p.id ... WHERE t.session_id = ? ORDER BY t.created_at
    DESC]: [created_at] is the insertion time, so the rows come back latest
    first. *)
Definition session_transactions (st : db) (sessionId : string) : list transaction :=
  rev (List.filter
         (λ t, bool_decide (session_id t = Some sessionId)
               && bool_decide (is_Some (products st !! product_id (trx_data t))))
         (inventory_transactions st)).

Definition getSessionTransactions (sessionId : string) : M (list transaction) :=
  st <- get ;; ret (session_transactions st sessionId).

Definition addProductToSession
    (uuid : string) (sessionId : string) (transactionData : transaction_data)
    (userId : string) : M (option transaction) :=
  s <- getSessionById sessionId ;;
  match s with
  | None => throw (JsError "Session not found")
  | Some sess =>
      if negb (String.eqb (status sess) "in_progress")
      then throw (JsError "Cannot add products to a completed or cancelled session")
      else
        let transaction_type :=
          if String.eqb (session_type sess) "check_in" then "check_in" else "check_out" in
        let source_location_id :=
          if String.eqb transaction_type "check_in" then None
          else if String.eqb transaction_type "check_out" then location_id sess
          else None in
        let destination_location_id :=
          if String.eqb transaction_type "check_in" then location_id sess else None in
        createInventoryTransaction uuid
          {| transaction_type := transaction_type;
             product_id := product_id transactionData;
             source_location_id := source_location_id;
             destination_location_id := destination_location_id;
             quantity := quantity transactionData;
             batch_number := batch_number transactionData;
             expiration_date := expiration_date transactionData;
             notes := notes transactionData |}
          userId (Some sessionId)
  end.

Definition set_status (new_status : string) (s : session) : session :=
  {| session_type := session_type s; status := new_status;
     location_id := location_id s; session_created_by := session_created_by s;
     session_notes := session_notes s |}.

(** [UPDATE sessions SET status = ?, completed_at = CURRENT_TIMESTAMP WHERE
    id = ?] *)
Definition update_session_status (new_status : string) (sessionId : string) : M unit :=
  modify (with_sessions (alter (set_status new_status) sessionId)).

Definition completeSession (sessionId : string) (userId : string) : M (option session) :=
  s <- getSessionById sessionId ;;
  match s with
  | None => throw (JsError "Session not found")
  | Some sess =>
      if negb (String.eqb (status sess) "in_progress")
      then throw (JsError "Session is already completed or cancelled")
      else
        update_session_status "completed" sessionId ;;;
        getSessionById sessionId
  end.

(** [UPDATE inventory SET quantity = quantity + ? WHERE product_id = ? AND
    location_id = ?] with a nullable location parameter: a NULL matches no
    row. *)
Definition update_quantity_at (d : Z) (productId : string) (locationId : option string)
    : M unit :=
  match locationId with
  | Some l => update_quantity_by d productId l
  | None => ret tt
  end.

(** The body of the reversal loop of [cancelSession]. *)
Definition reverse_transaction (t : transaction) : M unit :=
  let d := trx_data t in
  if String.eqb (transaction_type d) "check_in"
  then update_quantity_at (- quantity d) (product_id d) (destination_location_id d)
  else if String.eqb (transaction_type d) "check_out"
  then update_quantity_at (quantity d) (product_id d) (source_location_id d)
  else ret tt.

Definition cancelSession (sessionId : string) (userId : string) : M (option session) :=
  s <- getSessionById sessionId ;;
  match s with
  | None => throw (JsError "Session not found")
  | Some sess =>
      if negb (String.eqb (status sess) "in_progress")
      then throw (JsError "Session is already completed or cancelled")
      else
        transactions <- getSessionTransactions sessionId ;;
        for_of transactions reverse_transaction ;;;
        update_session_status "cancelled" sessionId ;;;
        getSessionById sessionId
  end.

(** ** lib/inventory.js: the read side *)

(** SQLite's [LIKE]: [%] matches any run of characters, [_] any one
    character, letters of ASCII match without regard to case. *)
Definition fold_case (c : ascii) : ascii :=
  let n := Ascii.N_of_ascii c in
  if ((65 <=? n) && (n <=? 90))%N then Ascii.ascii_of_N (n + 32) else c.

Fixpoint like_chars (pattern text : list ascii) : bool :=
  match pattern with
  | [] => match text with [] => true | _ => false end
  | c :: pattern' =>
      if Ascii.eqb c "%"%char then
        (fix skip (text : list ascii) : bool :=
           like_chars pattern' text
           || match text with [] => false | _ :: text' => skip text' end) text
      else
        match text with
        | [] => false
        | d :: text' =>
            (Ascii.eqb c "_"%char || Ascii.eqb (fold_case c) (fold_case d))
            && like_chars pattern' text'
        end
  end.

Definition like (text pattern : string) : bool :=
  like_chars (String.list_ascii_of_string pattern) (String.list_ascii_of_string text).

(** A comparison against a NULL column is not true. *)
Definition like_nullable (text : option string) (pattern : string) : bool :=
  match text with Some s => like s pattern | None => false end.

(** A row of the join of inventory with products, locations and (LEFT JOIN)
    categories. *)
Record inventory_entry := {
  entry_product_id : string;
  entry_location_id : string;
  entry_quantity : Z;
  entry_product : product;
  entry_category : option category;
  entry_location : location
}.

Record inventory_filters := {
  locationId : option string;
  categoryId : option string;
  search : option string;
  lowStock : bool;
  limit : option nat;
  offset : option nat
}.

Definition no_filters : inventory_filters :=
  {| locationId := None; categoryId := None; search := None;
     lowStock := false; limit := None; offset := None |}.

(** [FROM inventory i JOIN products p ON i.product_id = p.id JOIN locations
    l ON i.location_id = l.id LEFT JOIN categories c ON p.category_id =
    c.id] *)
Definition join_entry (st : db) (row : string * string * Z) : option inventory_entry :=
  let '(p, l, q) := row in
  prod ← products st !! p;
  loc ← locations st !! l;
  Some {| entry_product_id := p; entry_location_id := l; entry_quantity := q;
          entry_product := prod;
          entry_category := category_id prod ≫= (λ c, categories st !! c);
          entry_location := loc |}.

(** [i.quantity <= p.minimum_stock]; not true when minimum_stock is NULL. *)
Definition at_or_below_minimum (q : Z) (p : product) : bool :=
  match minimum_stock p with
  | Some m => q <=? m
  | None => false
  end.

Definition entry_matches (f : inventory_filters) (e : inventory_entry) : bool :=
  is_active (entry_product e)
  && (if truthy (locationId f)
      then String.eqb (entry_location_id e) (val (locationId f)) else true)
  && (if truthy (categoryId f)
      then bool_decide (category_id (entry_product e) = Some (val (categoryId f)))
           || bool_decide (entry_category e ≫= parent_id = Some (val (categoryId f)))
      else true)
  && (if truthy (search f)
      then let searchTerm := "%" +:+ val (search f) +:+ "%" in
           like (product_name (entry_product e)) searchTerm
           || like_nullable (barcode (entry_product e)) searchTerm
           || like_nullable (description (entry_product e)) searchTerm
      else true)
  && (if lowStock f
      then at_or_below_minimum (entry_quantity e) (entry_product e) else true).

(** [ORDER BY p.name] *)
Fixpoint insert_by_name (e : inventory_entry) (l : list inventory_entry)
    : list inventory_entry :=
  match l with
  | [] => [e]
  | e' :: l' =>
      if String.leb (product_name (entry_product e)) (product_name (entry_product e'))
      then e :: l
      else e' :: insert_by_name e l'
  end.

Definition order_by_name (l : list inventory_entry) : list inventory_entry :=
  foldr insert_by_name [] l.

(** [getInventory(db, filters)]; [limit] defaults to 100 and [offset] to 0. *)
Definition getInventory (f : inventory_filters) : M (list inventory_entry) :=
  st <- get ;;
  let rows := omap (join_entry st) (map_to_list (inventory st)) in
  let selected := List.filter (entry_matches f) rows in
  ret (take (default 100%nat (limit f))
         (drop (default 0%nat (offset f)) (order_by_name selected))).

Record inventory_summary := {
  total_bottles : Z;
  low_stock_count : nat
}.

(** [FROM inventory i JOIN products p ON i.product_id = p.id WHERE
    p.is_active = 1] *)
Definition active_rows (st : db) : list (string * string * Z * product) :=
  omap (λ row : string * string * Z,
          let '(p, l, q) := row in
          prod ← products st !! p;
          if is_active prod then Some (p, l, q, prod) else None)
       (map_to_list (inventory st)).

(** [getInventorySummary(db)].  The monetary totals and the breakdown by
    category are sums of floating point prices and are not modelled. *)
Definition getInventorySummary : M inventory_summary :=
  st <- get ;;
  let rows := active_rows st in
  ret {| total_bottles := foldr (λ r acc, r.1.2 + acc) 0 rows;
         low_stock_count :=
           length (List.filter (λ r, at_or_below_minimum r.1.2 r.2) rows) |}.

(** ** The operations of the service layer *)

Inductive operation :=
  | CreateProduct (uuid : string) (productData : product) (userId : string)
  | DeleteProduct (id : string)
  | UpdateInventoryQuantity (uuid productId locationId : string) (qty : Z) (userId : string)
  | CreateInventoryTransaction (uuid : string) (transactionData : transaction_data)
      (userId : string) (sessionId : option string)
  | CreateSession (uuid sessionType : string) (locationId sessionNotes : option string)
      (userId : string)
  | AddProductToSession (uuid sessionId : string) (transactionData : transaction_data)
      (userId : string)
  | CompleteSession (sessionId userId : string)
  | CancelSession (sessionId userId : string).

Definition run (op : operation) : M unit :=
  match op with
  | CreateProduct uuid pd u => createProduct uuid pd u ;;; ret tt
  | DeleteProduct id => deleteProduct id ;;; ret tt
  | UpdateInventoryQuantity uuid p l q u => updateInventoryQuantity uuid p l q u ;;; ret tt
  | CreateInventoryTransaction uuid td u s => createInventoryTransaction uuid td u s ;;; ret tt
  | CreateSession uuid ty l n u => createSession uuid ty l n u ;;; ret tt
  | AddProductToSession uuid s td u => addProductToSession uuid s td u ;;; ret tt
  | CompleteSession s u => completeSession s u ;;; ret tt
  | CancelSession s u => cancelSession s u ;;; ret tt
  end.

(** A request sequence: the first rejection ends it. *)
Definition run_all (ops : list operation) : M unit := for_of ops run.

(** The record of a pair, 0 when there is none. *)
Definition quantity_at (st : db) (p l : string) : Z :=
  default 0 (inventory st !! (p, l)).

(** ** The ledger as the system of record *)

(** [q] when the nullable location is [l], 0 otherwise. *)
Definition at_location (o : option string) (l : string) (q : Z) : Z :=
  if bool_decide (o = Some l) then q else 0.

(** The quantity effect that the dispatch of [createInventoryTransaction]
    applies to the record of [(p, l)]. *)
Definition movement_effect (d : transaction_data) (p l : string) : Z :=
  if negb (String.eqb (product_id d) p) then 0
  else if String.eqb (transaction_type d) "check_in"
          && truthy (destination_location_id d)
  then at_location (destination_location_id d) l (quantity d)
  else if String.eqb (transaction_type d) "check_out"
          && truthy (source_location_id d)
  then - at_location (source_location_id d) l (quantity d)
  else if String.eqb (transaction_type d) "transfer"
          && truthy (source_location_id d) && truthy (destination_location_id d)
  then at_location (destination_location_id d) l (quantity d)
       - at_location (source_location_id d) l (quantity d)
  else 0.

(** The signed quantity of a row read off its type alone, in the words of
    the data model: a check_in adds at its destination, a check_out takes
    from its source, a transfer does both, an adjustment adds at its
    destination or takes from its source. *)
Definition signed_by_type (t : transaction) (p l : string) : Z :=
  let d := trx_data t in
  if negb (String.eqb (product_id d) p) then 0
  else if String.eqb (transaction_type d) "check_in"
  then at_location (destination_location_id d) l (quantity d)
  else if String.eqb (transaction_type d) "check_out"
  then - at_location (source_location_id d) l (quantity d)
  else if String.eqb (transaction_type d) "transfer"
          || String.eqb (transaction_type d) "adjustment"
  then at_location (destination_location_id d) l (quantity d)
       - at_location (source_location_id d) l (quantity d)
  else 0.

(** The signed sum of the ledger rows affecting [(p, l)]. *)
Definition signed_sum (ledger : list transaction) (p l : string) : Z :=
  foldr (λ t acc, signed_by_type t p l + acc) 0 ledger.

(** The ledger is the system of record: the cached quantity of every pair
    is the signed sum of the rows affecting it; a pair without a record
    counts for 0. *)
Definition ledger_is_system_of_record (st : db) : Prop :=
  ∀ p l, quantity_at st p l = signed_sum (inventory_transactions st) p l.

(** Everything but the quantities is the same in both stores. *)
Definition same_but_inventory (st st' : db) : Prop :=
  products st' = products st ∧ categories st' = categories st ∧
  locations st' = locations st ∧
  inventory_transactions st' = inventory_transactions st ∧
  sessions st' = sessions st.

(** [q] at the pair [(p0, l0)], 0 at the others. *)
Definition at_pair (p0 l0 p l : string) (q : Z) : Z :=
  if bool_decide ((p0, l0) = (p, l)) then q else 0.

(** The ledger row of a call of [createInventoryTransaction]. *)
Definition new_row (uuid : string) (td : transaction_data) (u : string)
    (s : option string) : transaction :=
  {| trx_id := generateId "trx-" uuid; trx_data := td; created_by := u; session_id := s |}.

(** The primary key test of [insert_transaction]. *)
Definition id_taken (id : string) (st : db) : bool :=
  existsb (λ t, String.eqb (trx_id t) id) (inventory_transactions st).

(** The inverse of the quantity effect of a session transaction at [(p, l)]:
    a check_in gives its quantity back from its destination, a check_out
    returns its quantity to its source. *)
Definition inverse_effect (t : transaction) (p l : string) : Z :=
  let d := trx_data t in
  if negb (String.eqb (product_id d) p) then 0
  else if String.eqb (transaction_type d) "check_in"
  then - at_location (destination_location_id d) l (quantity d)
  else if String.eqb (transaction_type d) "check_out"
  then at_location (source_location_id d) l (quantity d)
  else 0.

Definition inverse_sum (txs : list transaction) (p l : string) : Z :=
  foldr (λ t acc, inverse_effect t p l + acc) 0 txs.

(** The rows logged under a session. *)
Definition session_rows (st : db) (sessionId : string) : list transaction :=
  List.filter (λ t, bool_decide (session_id t = Some sessionId))
    (inventory_transactions st).

(** The catalogue tables are the same in both stores. *)
Definition same_catalogue (st st' : db) : Prop :=
  products st' = products st ∧ categories st' = categories st ∧
  locations st' = locations st.

(** *** Frames: what a computation leaves as it was *)

Definition unchanged {X} (proj : db → X) (st st' : db) : Prop := proj st' = proj st.

Definition keeps {A} (R : db → db → Prop) (m : M A) : Prop := ∀ st, R st (m st).2.

(** The row that [createProduct] inserts for [pd]. *)
Definition inserted_product (pd : product) : product :=
  {| product_name := product_name pd; barcode := barcode pd;
     description := description pd; category_id := category_id pd;
     minimum_stock := minimum_stock pd; is_active := true |}.

(** The pairs the low-stock queries select: the product of the record is
    stored and active, and the quantity is at or below its minimum. *)
Definition low_stock_pair (st : db) (row : string * string * Z) : bool :=
  match products st !! row.1.1 with
  | Some prod => is_active prod && at_or_below_minimum row.2 prod
  | None => false
  end.

Definition low_stock_only : inventory_filters :=
  {| locationId := None; categoryId := None; search := None;
     lowStock := true; limit := None; offset := None |}.

(** *** Worked stores *)

Definition check_out_15 : transaction_data :=
  {| transaction_type := "check_out"; product_id := "prod-1";
     source_location_id := Some "loc-1"; destination_location_id := None;
     quantity := 15; batch_number := None; expiration_date := None;
     notes := None |}.

(** One record: 10 units of prod-1 at loc-1. *)
Definition ten_in_stock : db :=
  with_inventory (<[("prod-1", "loc-1") := 10]>) empty_db.


(** A store whose only product has been deactivated, with 2 units left. *)
Definition discontinued_store : db :=
  {| products :=
       {[ "prod-1" := {| product_name := "Test Cab"; barcode := Some "CAB123456";
                         description := None; category_id := None;
                         minimum_stock := Some 5; is_active := false |} ]};
     categories := ∅;
     locations := {[ "loc-1" := {| location_name := "Main Storage";
                                   location_type := "main_storage" |} ]};
     inventory := {[ ("prod-1", "loc-1") := 2 ]};
     inventory_transactions := [];
     sessions := ∅ |}.

(** *** Worked request sequences *)

Definition a_product : product :=
  {| product_name := "Test Cab"; barcode := Some "CAB123456";
     description := Some "Cabernet Sauvignon test product";
     category_id := Some "cat-101"; minimum_stock := Some 5; is_active := true |}.

Definition movement (type : string) (src dst : option string) (q : Z) : transaction_data :=
  {| transaction_type := type; product_id := "prod-1";
     source_location_id := src; destination_location_id := dst;
     quantity := q; batch_number := None; expiration_date := None;
     notes := None |}.

(** Stocking, movements and a completed session. *)
Definition a_working_day : list operation :=
  [ CreateProduct "1" a_product "usr-1";
    UpdateInventoryQuantity "t1" "prod-1" "loc-1" 10 "usr-1";
    CreateInventoryTransaction "t2" (movement "check_in" None (Some "loc-1") 5) "usr-1" None;
    CreateInventoryTransaction "t3" (movement "check_out" (Some "loc-1") None 3) "usr-1" None;
    CreateInventoryTransaction "t4"
      (movement "transfer" (Some "loc-1") (Some "loc-2") 4) "usr-1" None;
    UpdateInventoryQuantity "t5" "prod-1" "loc-1" 6 "usr-1";
    CreateSession "s1" "check_out" (Some "loc-2") None "usr-1";
    AddProductToSession "t6" "sess-s1" (movement "" None None 1) "usr-1";
    CompleteSession "sess-s1" "usr-1" ].

Definition after_working_day : db := (run_all a_working_day empty_db).2.

(** A check-in session that has received 5 and 3 units on top of 12. *)
Definition an_open_check_in : list operation :=
  [ CreateProduct "1" a_product "usr-1";
    UpdateInventoryQuantity "t1" "prod-1" "loc-1" 12 "usr-1";
    CreateSession "s1" "check_in" (Some "loc-1") None "usr-1";
    AddProductToSession "t2" "sess-s1" (movement "" None None 5) "usr-1";
    AddProductToSession "t3" "sess-s1" (movement "" None None 3) "usr-1" ].

Definition during_check_in : db := (run_all an_open_check_in empty_db).2.

Definition the_check_in_session : session :=
  {| session_type := "check_in"; status := "in_progress";
     location_id := Some "loc-1"; session_created_by := "usr-1";
     session_notes := None |}.

Definition the_completed_session : session :=
  {| session_type := "check_out"; status := "completed";
     location_id := Some "loc-2"; session_created_by := "usr-1";
     session_notes := None |}.

(** A store with one record at its minimum, one above it and one below. *)
Definition a_stocked_store : db :=
  {| products :=
       {[ "prod-1" := a_product;
          "prod-2" := {| product_name := "Chardonnay"; barcode := Some "CHAR123456";
                         description := None; category_id := Some "cat-102";
                         minimum_stock := Some 5; is_active := true |} ]};
     categories := ∅;
     locations := {[ "loc-1" := {| location_name := "Main Storage";
                                   location_type := "main_storage" |} ]};
     inventory := {[ ("prod-1", "loc-1") := 5; ("prod-2", "loc-1") := 24 ]};
     inventory_transactions := [];
     sessions := ∅ |}.

Definition a_catalogue : db :=
  with_products (<["prod-1" := a_product]>) empty_db.

Definition same_barcode : product :=
  {| product_name := "Another Cab"; barcode := Some "CAB123456";
     description := None; category_id := None; minimum_stock := None;
     is_active := true |}.

Definition no_barcode (name : string) : product :=
  {| product_name := name; barcode := None; description := None;
     category_id := None; minimum_stock := None; is_active := true |}.

(** A session checks 5 units in, they are checked out again past it, and
    the session is cancelled. *)
Definition a_cancelled_check_in : list operation :=
  [ CreateProduct "1" a_product "usr-1";
    CreateSession "s1" "check_in" (Some "loc-1") None "usr-1";
    AddProductToSession "t1" "sess-s1" (movement "" None None 5) "usr-1";
    CreateInventoryTransaction "t2" (movement "check_out" (Some "loc-1") None 5) "usr-1" None;
    CancelSession "sess-s1" "usr-1" ].

(** A store in step with its ledger: the product, its category and the
    location are stored, and the 10 units of prod-1 at loc-1 have been
    checked in by the one row of the ledger. *)
Definition a_logged_stock : db :=
  {| products := {[ "prod-1" := a_product ]};
     categories :=
       {[ "cat-001" := {| category_name := "Wine"; parent_id := None |};
          "cat-101" := {| category_name := "Red Wine"; parent_id := Some "cat-001" |} ]};
     locations := {[ "loc-1" := {| location_name := "Main Storage";
                                   location_type := "main_storage" |} ]};
     inventory := {[ ("prod-1", "loc-1") := 10 ]};
     inventory_transactions :=
       [ new_row "t1" (movement "check_in" None (Some "loc-1") 10) "usr-1" None ];
     sessions := ∅ |}.

(** * Further functions of the service layer *)

(** ** lib/products.js: updates and the catalogue queries *)

(** The keys of the [productData] object handed to [updateProduct] that
    name a modelled column; [None] is an absent key, [Some None] a key
    holding [null].  The keys id, created_at and created_by are skipped by
    the function; keys of columns outside the model change nothing here. *)
Record product_update := {
  set_product_name : option string;
  set_barcode : option (option string);
  set_description : option (option string);
  set_category_id : option (option string);
  set_minimum_stock : option (option Z);
  set_is_active : option bool
}.

Definition no_update : product_update :=
  {| set_product_name := None; set_barcode := None; set_description := None;
     set_category_id := None; set_minimum_stock := None; set_is_active := None |}.

(** [updates.length === 0] *)
Definition no_updates (upd : product_update) : bool :=
  bool_decide (set_product_name upd = None) && bool_decide (set_barcode upd = None)
  && bool_decide (set_description upd = None) && bool_decide (set_category_id upd = None)
  && bool_decide (set_minimum_stock upd = None) && bool_decide (set_is_active upd = None).

(** [SET key = ?, ...] on one row. *)
Definition apply_update (upd : product_update) (p : product) : product :=
  {| product_name := default (product_name p) (set_product_name upd);
     barcode := default (barcode p) (set_barcode upd);
     description := default (description p) (set_description upd);
     category_id := default (category_id p) (set_category_id upd);
     minimum_stock := default (minimum_stock p) (set_minimum_stock upd);
     is_active := default (is_active p) (set_is_active upd) |}.

(** [SELECT id FROM products WHERE barcode = ? AND id != ?] *)
Definition fetch_other_product_by_barcode (b id : string) : M (option string) :=
  st <- get ;;
  ret (fst <$> List.find (λ kv, bool_decide (barcode kv.2 = Some b)
                                && negb (String.eqb kv.1 id))
                 (map_to_list (products st))).

(** [UPDATE products SET ... WHERE id = ?]; the UNIQUE barcode is tested
    against the other rows. *)
Definition update_product_row (id : string) (upd : product_update) : M unit :=
  match set_barcode upd with
  | Some (Some b) =>
      taken <- fetch_other_product_by_barcode b id ;;
      match taken with
      | Some _ => throw (ConstraintFailed "products.barcode")
      | None => modify (with_products (alter (apply_update upd) id))
      end
  | _ => modify (with_products (alter (apply_update upd) id))
  end.

Definition updateProduct (id : string) (productData : product_update)
    : M (option product) :=
  existingProduct <- getProductById id ;;
  match existingProduct with
  | None => throw (JsError "Product not found")
  | Some existing =>
      let new_barcode := mjoin (set_barcode productData) in
      (if truthy new_barcode && negb (bool_decide (new_barcode = barcode existing))
       then
         productWithBarcode <- fetch_other_product_by_barcode (val new_barcode) id ;;
         match productWithBarcode with
         | Some _ => throw (JsError "Product with this barcode already exists")
         | None => ret tt
         end
       else ret tt) ;;;
      if no_updates productData then ret (Some existing)
      else
        update_product_row id productData ;;;
        getProductById id
  end.

(** [SELECT p.*, ... FROM products p ... WHERE p.barcode = ?]: the first
    row with the barcode, with its id. *)
Definition getProductByBarcode (b : string) : M (option (string * product)) :=
  st <- get ;;
  ret (List.find (λ kv, bool_decide (barcode kv.2 = Some b))
         (map_to_list (products st))).

(** [SELECT i.*, ... FROM inventory i JOIN locations l ON i.location_id =
    l.id WHERE i.product_id = ?]: the records of a product, by location. *)
Definition getProductInventory (productId : string) : M (list (string * Z)) :=
  st <- get ;;
  ret (omap (λ row : string * string * Z,
               let '(p, l, q) := row in
               if String.eqb p productId
               then _ ← locations st !! l; Some (l, q)
               else None)
            (map_to_list (inventory st))).

(** ** The invariants of the store *)

(** No two products share a non-null barcode. *)
Definition barcodes_unique (st : db) : Prop :=
  ∀ id1 id2 p1 p2 b,
    products st !! id1 = Some p1 → products st !! id2 = Some p2 →
    barcode p1 = Some b → barcode p2 = Some b → id1 = id2.

(** The ids of the ledger rows are pairwise distinct. *)
Definition ledger_ids_unique (st : db) : Prop :=
  NoDup (trx_id <$> inventory_transactions st).

(** No record is below zero. *)
Definition quantities_non_negative (st : db) : Prop :=
  ∀ k q, inventory st !! k = Some q → 0 ≤ q.

(** The operations that are given no negative quantity, the session
    cancellation apart. *)
Definition non_negative_operation (op : operation) : Prop :=
  match op with
  | CancelSession _ _ => False
  | UpdateInventoryQuantity _ _ _ q _ => 0 ≤ q
  | CreateInventoryTransaction _ td _ _ => 0 ≤ quantity td
  | AddProductToSession _ _ td _ => 0 ≤ quantity td
  | _ => True
  end.

(** The inventory records of [st] are records of [st']. *)
Definition records_kept (st st' : db) : Prop :=
  ∀ k, is_Some (inventory st !! k) → is_Some (inventory st' !! k).

(** The ledger of [st] is the beginning of the ledger of [st']. *)
Definition ledger_extended (st st' : db) : Prop :=
  inventory_transactions st `prefix_of` inventory_transactions st'.

(** [st'] satisfies the invariant when [st] does. *)
Definition preserved (I : db → Prop) (st st' : db) : Prop := I st → I st'.

(** The order of [ORDER BY p.name] on the rows of [getInventory]. *)
Definition by_name (e1 e2 : inventory_entry) : Prop :=
  String.leb (product_name (entry_product e1)) (product_name (entry_product e2)) = true.

(** The rows of [getInventory] before LIMIT and OFFSET. *)
Definition inventory_rows (f : inventory_filters) (st : db) : list inventory_entry :=
  order_by_name
    (List.filter (entry_matches f) (omap (join_entry st) (map_to_list (inventory st)))).

(** The transaction that [addProductToSession] derives from the session
    and the data it is given. *)
Definition session_movement (sess : session) (td : transaction_data) : transaction_data :=
  let transaction_type :=
    if String.eqb (session_type sess) "check_in" then "check_in" else "check_out" in
  {| transaction_type := transaction_type;
     product_id := product_id td;
     source_location_id :=
       if String.eqb transaction_type "check_in" then None
       else if String.eqb transaction_type "check_out" then location_id sess
       else None;
     destination_location_id :=
       if String.eqb transaction_type "check_in" then location_id sess else None;
     quantity := quantity td;
     batch_number := batch_number td;
     expiration_date := expiration_date td;
     notes := notes td |}.

(** A movement of session [sid] on a product of the catalogue of [st]. *)
Definition movement_of_session (sid : string) (st : db) (op : operation) : Prop :=
  match op with
  | AddProductToSession _ s td _ => s = sid ∧ is_Some (products st !! product_id td)
  | _ => False
  end.


(** ** The reporting functions: the low stock report *)

Record low_stock_report := {
  items : list inventory_entry;
  count : nat
}.

(** [WHERE p.is_active = 1 AND i.quantity <= p.minimum_stock], with
    [AND i.location_id = ?] and [AND (p.category_id = ? OR c.parent_id = ?)]
    for the filters that are given. *)
Definition report_matches (locationId categoryId : option string)
    (e : inventory_entry) : bool :=
  is_active (entry_product e)
  && at_or_below_minimum (entry_quantity e) (entry_product e)
  && (if truthy locationId
      then String.eqb (entry_location_id e) (val locationId) else true)
  && (if truthy categoryId
      then bool_decide (category_id (entry_product e) = Some (val categoryId))
           || bool_decide (entry_category e ≫= parent_id = Some (val categoryId))
      else true).

(** [i.quantity / p.minimum_stock]: the division of two integers is the
    integer quotient, truncated towards zero, and NULL on a zero or NULL
    divisor. *)
Definition stock_ratio (e : inventory_entry) : option Z :=
  m ← minimum_stock (entry_product e);
  if m =? 0 then None else Some (Z.quot (entry_quantity e) m).

(** The ascending order of the store: NULL comes first. *)
Definition ratio_leb (a b : option Z) : bool :=
  match a, b with
  | None, _ => true
  | Some _, None => false
  | Some x, Some y => x <=? y
  end.

(** [ORDER BY (i.quantity / p.minimum_stock) ASC] *)
Fixpoint insert_by_ratio (e : inventory_entry) (l : list inventory_entry)
    : list inventory_entry :=
  match l with
  | [] => [e]
  | e' :: l' =>
      if ratio_leb (stock_ratio e) (stock_ratio e')
      then e :: l
      else e' :: insert_by_ratio e l'
  end.

Definition order_by_ratio (l : list inventory_entry) : list inventory_entry :=
  foldr insert_by_ratio [] l.

(** [getLowStockReport(db, filters)]; the timestamp and the echo of the
    filters are left out. *)
Definition getLowStockReport (locationId categoryId : option string)
    : M low_stock_report :=
  st <- get ;;
  let rows := omap (join_entry st) (map_to_list (inventory st)) in
  let items := order_by_ratio (List.filter (report_matches locationId categoryId) rows) in
  ret {| items := items; count := length items |}.

(** The order of the report: by stock ratio, the rows without one first. *)
Definition by_ratio (e1 e2 : inventory_entry) : Prop :=
  ratio_leb (stock_ratio e1) (stock_ratio e2) = true.

(** The filters of [getInventory] that select what the report selects. *)
Definition low_stock_listing (locationId categoryId : option string) (n : nat)
    : inventory_filters :=
  {| locationId := locationId; categoryId := categoryId; search := None;
     lowStock := true; limit := Some n; offset := None |}.

(** ** lib/products.js: the catalogue listing *)

(** The filters of [getProducts].  The key [active] is absent ([None],
    the default [true] applies), [null] ([Some None], no test) or a boolean. *)
Record product_filters := {
  product_categoryId : option string;
  product_search : option string;
  active : option (option bool);
  product_limit : option nat;
  product_offset : option nat
}.

(** The WHERE clause of [getProducts] on a row of products LEFT JOIN
    categories. *)
Definition product_matches (st : db) (f : product_filters)
    (row : string * product) : bool :=
  let p := row.2 in
  let c := category_id p ≫= (λ c, categories st !! c) in
  (if truthy (product_categoryId f)
   then bool_decide (category_id p = Some (val (product_categoryId f)))
        || bool_decide (c ≫= parent_id = Some (val (product_categoryId f)))
   else true)
  && (if truthy (product_search f)
      then let searchTerm := "%" +:+ val (product_search f) +:+ "%" in
           like (product_name p) searchTerm
           || like_nullable (barcode p) searchTerm
           || like_nullable (description p) searchTerm
      else true)
  && match active f with
     | None => Bool.eqb (is_active p) true
     | Some None => true
     | Some (Some a) => Bool.eqb (is_active p) a
     end.

(** [ORDER BY p.name] *)
Fixpoint insert_product_by_name (r : string * product) (l : list (string * product))
    : list (string * product) :=
  match l with
  | [] => [r]
  | r' :: l' =>
      if String.leb (product_name r.2) (product_name r'.2)
      then r :: l
      else r' :: insert_product_by_name r l'
  end.

Definition order_products_by_name (l : list (string * product))
    : list (string * product) :=
  foldr insert_product_by_name [] l.

(** [getProducts(db, filters)]: the rows with their ids; [limit] defaults
    to 100 and [offset] to 0. *)
Definition getProducts (f : product_filters) : M (list (string * product)) :=
  st <- get ;;
  let selected := List.filter (product_matches st f) (map_to_list (products st)) in
  ret (take (default 100%nat (product_limit f))
         (drop (default 0%nat (product_offset f)) (order_products_by_name selected))).

(** The order of the listing. *)
Definition product_by_name (r1 r2 : string * product) : Prop :=
  String.leb (product_name r1.2) (product_name r2.2) = true.

(** No filter but [active], on a page of [n] rows. *)
Definition whole_catalogue (a : option (option bool)) (n : nat) : product_filters :=
  {| product_categoryId := None; product_search := None; active := a;
     product_limit := Some n; product_offset := None |}.

(** ** Definitions for the session and dashboard properties *)

(** What the movements of a session have kept, from the store [st0] the
    session started in: the session and the catalogue, the rows of the
    session name stored products, and giving back the inverse of the rows
    leads back to the quantities of [st0]. *)
Definition session_undoable (sid : string) (st0 st : db) : Prop :=
  sessions st = sessions st0
  ∧ products st = products st0
  ∧ Forall (λ t, is_Some (products st !! product_id (trx_data t))) (session_rows st sid)
  ∧ (∀ p l, quantity_at st p l + inverse_sum (session_rows st sid) p l
            = quantity_at st0 p l)
  ∧ (∀ p l, inventory st !! (p, l) = None → inverse_sum (session_rows st sid) p l = 0).

(** The inventory table after a movement that resolves. *)
Definition moved_inventory (td : transaction_data)
    (m : gmap (string * string) Z) : gmap (string * string) Z :=
  let p := product_id td in
  let q := quantity td in
  let src := val (source_location_id td) in
  let dst := val (destination_location_id td) in
  if String.eqb (transaction_type td) "check_in" && truthy (destination_location_id td)
  then <[(p, dst) := default 0 (m !! (p, dst)) + q]> m
  else if String.eqb (transaction_type td) "check_out" && truthy (source_location_id td)
  then <[(p, src) := default 0 (m !! (p, src)) - q]> m
  else if String.eqb (transaction_type td) "transfer"
          && truthy (source_location_id td) && truthy (destination_location_id td)
  then let m1 := <[(p, src) := default 0 (m !! (p, src)) - q]> m in
       <[(p, dst) := default 0 (m1 !! (p, dst)) + q]> m1
  else m.




(** *** Worked stores of the sessions *)

(** The check-in session of [an_open_check_in], just opened: 12 units,
    no movement yet. *)
Definition a_session_opened : db := (run_all (take 3 an_open_check_in) empty_db).2.

(** A check-out session at loc-2, where 3 units are in stock. *)
Definition an_open_check_out : list operation :=
  [ CreateProduct "1" a_product "usr-1";
    UpdateInventoryQuantity "t1" "prod-1" "loc-2" 3 "usr-1";
    CreateSession "s1" "check_out" (Some "loc-2") None "usr-1" ].

Definition during_check_out : db := (run_all an_open_check_out empty_db).2.

Definition the_check_out_session : session :=
  {| session_type := "check_out"; status := "in_progress";
     location_id := Some "loc-2"; session_created_by := "usr-1";
     session_notes := None |}.

(** The catalogue after its product has been deleted. *)
Definition a_deleted_product : db :=
  with_products (<["prod-1" := deactivate a_product]>) a_catalogue.

(** A new name and a new minimum for a product. *)
Definition a_rename : product_update :=
  {| set_product_name := Some "Reserve Cab"; set_barcode := None;
     set_description := None; set_category_id := None;
     set_minimum_stock := Some (Some 8); set_is_active := None |}.

(** * Proofs *)

Ltac unfold_store :=
  unfold fetch_inventory, update_quantity_by, update_quantity_to,
    update_quantity_at, insert_inventory, insert_transaction,
    getTransactionById, getProductById, getSessionById,
    getSessionTransactions, update_session_status,
    fetch_product_by_barcode in *.
Ltac unfold_monad := unfold bind, ret, throw, get, modify in *.
Ltac step := unfold_store; unfold_monad; simpl in *.
Ltac step_in H :=
  unfold fetch_inventory, update_quantity_by, update_quantity_to,
    update_quantity_at, insert_inventory, insert_transaction,
    getTransactionById, getProductById, getSessionById,
    getSessionTransactions, update_session_status,
    fetch_product_by_barcode, bind, ret, throw, get, modify in H;
  simpl in H.

(** ** Quantities under the updaters of lib/inventory.js *)

Lemma same_but_inventory_refl st : same_but_inventory st st.
Proof. by repeat split. Qed.

Lemma same_but_inventory_trans st1 st2 st3 :
  same_but_inventory st1 st2 → same_but_inventory st2 st3 →
  same_but_inventory st1 st3.
Proof. unfold same_but_inventory. intros (?&?&?&?&?) (?&?&?&?&?). repeat split; congruence. Qed.

Lemma quantity_at_alter (f : Z → Z) k st p l :
  quantity_at (with_inventory (alter f k) st) p l =
  match inventory st !! k with
  | Some q => if bool_decide (k = (p, l)) then f q else quantity_at st p l
  | None => quantity_at st p l
  end.
Proof.
  unfold quantity_at; simpl. rewrite lookup_alter.
  case_decide as Hk.
  - subst k. destruct (inventory st !! (p, l)) eqn:E; simpl.
    + by rewrite bool_decide_true.
    + done.
  - destruct (inventory st !! k); [by rewrite bool_decide_false|done].
Qed.

Lemma quantity_at_insert q k st p l :
  quantity_at (with_inventory (<[k := q]>) st) p l =
  if bool_decide (k = (p, l)) then q else quantity_at st p l.
Proof.
  unfold quantity_at; simpl. rewrite lookup_insert.
  case_decide; [by rewrite bool_decide_true | by rewrite bool_decide_false].
Qed.

Lemma checkin_resolves p0 l0 q st :
  ∃ st', updateInventoryForCheckIn p0 l0 q st = (Resolved tt, st')
         ∧ same_but_inventory st st'
         ∧ ∀ p l, quantity_at st' p l = quantity_at st p l + at_pair p0 l0 p l q.
Proof.
  unfold updateInventoryForCheckIn. step.
  destruct (inventory st !! (p0, l0)) as [q0|] eqn:E; simpl; rewrite ?E; simpl.
  - eexists; split; [done|]. split; [by repeat split|].
    intros p l. rewrite quantity_at_alter, E. unfold at_pair.
    case_bool_decide as H; [|lia]. inversion H; subst. unfold quantity_at. rewrite E. simpl. lia.
  - eexists; split; [done|]. split; [by repeat split|].
    intros p l. rewrite quantity_at_insert. unfold at_pair.
    case_bool_decide as H; [|lia]. inversion H; subst. unfold quantity_at. rewrite E. simpl. lia.
Qed.

Lemma bind_inv {A B} (m : M A) (k : A → M B) st c st'' :
  bind m k st = (c, st'') →
  (∃ a st', m st = (Resolved a, st') ∧ k a st' = (c, st''))
  ∨ (∃ e, m st = (Rejected e, st'') ∧ c = Rejected e).
Proof.
  unfold bind. destruct (m st) as [[a|e] st'] eqn:E; intros H.
  - left; eauto.
  - right. inversion H; subst. eauto.
Qed.

Lemma checkout_cases p0 l0 q st :
  match inventory st !! (p0, l0) with
  | None =>
      updateInventoryForCheckOut p0 l0 q st
      = (Rejected (JsError "Product not found in this location"), st)
  | Some available =>
      if available <? q
      then updateInventoryForCheckOut p0 l0 q st
           = (Rejected (JsError "Insufficient quantity available"), st)
      else ∃ st', updateInventoryForCheckOut p0 l0 q st = (Resolved tt, st')
             ∧ same_but_inventory st st'
             ∧ ∀ p l, quantity_at st' p l = quantity_at st p l - at_pair p0 l0 p l q
  end.
Proof.
  unfold updateInventoryForCheckOut. step.
  destruct (inventory st !! (p0, l0)) as [q0|] eqn:E; simpl; [|done].
  destruct (q0 <? q) eqn:Hlt; simpl; [done|].
  eexists; split; [done|]. split; [by repeat split|].
  intros p l. rewrite quantity_at_alter, E. unfold at_pair.
  case_bool_decide as H; [|lia]. inversion H; subst.
  unfold quantity_at. rewrite E. simpl. lia.
Qed.

Lemma transfer_cases p0 src dst q st :
  match inventory st !! (p0, src) with
  | None =>
      updateInventoryForTransfer p0 src dst q st
      = (Rejected (JsError "Product not found in source location"), st)
  | Some available =>
      if available <? q
      then updateInventoryForTransfer p0 src dst q st
           = (Rejected (JsError "Insufficient quantity available for transfer"), st)
      else ∃ st', updateInventoryForTransfer p0 src dst q st = (Resolved tt, st')
             ∧ same_but_inventory st st'
             ∧ ∀ p l, quantity_at st' p l
                      = quantity_at st p l + at_pair p0 dst p l q - at_pair p0 src p l q
  end.
Proof.
  unfold updateInventoryForTransfer.
  destruct (inventory st !! (p0, src)) as [q0|] eqn:E.
  - destruct (q0 <? q) eqn:Hlt.
    + step. by rewrite E, Hlt.
    + pose (st1 := with_inventory (alter (λ x, x + - q) (p0, src)) st).
      destruct (checkin_resolves p0 dst q st1) as (st2 & Hin & Hsame & Hq).
      exists st2. split; [|split].
      * unfold updateInventoryForCheckIn in Hin. step. rewrite E, Hlt. exact Hin.
      * eapply same_but_inventory_trans; [|exact Hsame]. by repeat split.
      * intros p l. rewrite Hq. unfold st1. rewrite quantity_at_alter, E.
        unfold at_pair. repeat case_bool_decide; simplify_eq;
          unfold quantity_at; rewrite ?E; simpl; lia.
  - step. by rewrite E.
Qed.

(** ** The dispatch and outcomes of createInventoryTransaction *)

Lemma truthy_Some o : truthy o = true → ∃ s, o = Some s ∧ s ≠ "" ∧ val o = s.
Proof.
  destruct o as [s|]; simpl; [|done]. intros H. exists s. repeat split.
  intros ->. done.
Qed.

Lemma at_pair_location p0 o p l q :
  truthy o = true →
  at_pair p0 (val o) p l q
  = if negb (String.eqb p0 p) then 0 else at_location o l q.
Proof.
  intros (s & -> & _ & ->)%truthy_Some. unfold at_pair, at_location.
  destruct (String.eqb_spec p0 p) as [->|Hne]; simpl.
  - repeat case_bool_decide; simplify_eq; done.
  - rewrite bool_decide_false; [done|congruence].
Qed.

Lemma update_inventory_for_cases td st :
  (∃ st', update_inventory_for td st = (Resolved tt, st')
          ∧ same_but_inventory st st'
          ∧ ∀ p l, quantity_at st' p l = quantity_at st p l + movement_effect td p l)
  ∨ (∃ e, update_inventory_for td st = (Rejected e, st)
          ∧ (NotFound e ∨ InsufficientStock e)).
Proof.
  unfold update_inventory_for, movement_effect.
  destruct (String.eqb (transaction_type td) "check_in"
            && truthy (destination_location_id td)) eqn:Hin.
  { apply andb_prop in Hin as [_ Hd].
    destruct (checkin_resolves (product_id td) (val (destination_location_id td))
                (quantity td) st) as (st' & E & Hsame & Hq).
    left. exists st'. repeat split; try done; try apply Hsame.
    intros p l. rewrite Hq, at_pair_location by done.
    by destruct (negb _). }
  destruct (String.eqb (transaction_type td) "check_out"
            && truthy (source_location_id td)) eqn:Hout.
  { apply andb_prop in Hout as [_ Hs].
    pose proof (checkout_cases (product_id td) (val (source_location_id td))
                  (quantity td) st) as Hc.
    destruct (inventory st !! _) as [a|].
    - destruct (a <? quantity td).
      + right. eexists; split; [exact Hc|]. right. by left.
      + destruct Hc as (st' & E & Hsame & Hq). left. exists st'.
        repeat split; try done; try apply Hsame.
        intros p l. rewrite Hq, at_pair_location by done.
        destruct (negb _); lia.
    - right. eexists; split; [exact Hc|]. left. right. by left. }
  destruct (String.eqb (transaction_type td) "transfer"
            && truthy (source_location_id td)
            && truthy (destination_location_id td)) eqn:Htr.
  { apply andb_prop in Htr as [[_ Hs]%andb_prop Hd].
    pose proof (transfer_cases (product_id td) (val (source_location_id td))
                  (val (destination_location_id td)) (quantity td) st) as Hc.
    destruct (inventory st !! _) as [a|].
    - destruct (a <? quantity td).
      + right. eexists; split; [exact Hc|]. right. by right.
      + destruct Hc as (st' & E & Hsame & Hq). left. exists st'.
        repeat split; try done; try apply Hsame.
        intros p l. rewrite Hq, !at_pair_location by done.
        destruct (negb _); lia.
    - right. eexists; split; [exact Hc|]. left. right. right. by left. }
  left. exists st. repeat split; try done.
  intros p l. destruct (negb _); lia.
Qed.

Lemma bind_resolved {A B} (m : M A) (k : A → M B) st a st' :
  m st = (Resolved a, st') → bind m k st = k a st'.
Proof. unfold bind. by intros ->. Qed.

Lemma bind_rejected {A B} (m : M A) (k : A → M B) st e st' :
  m st = (Rejected e, st') → bind m k st = (Rejected e, st').
Proof. unfold bind. by intros ->. Qed.

Lemma insert_transaction_fresh row st :
  transaction_type_accepted (transaction_type (trx_data row)) = true →
  id_taken (trx_id row) st = false →
  insert_transaction row st
  = (Resolved tt, with_transactions (λ l, (l ++ [row])%list) st).
Proof. unfold id_taken. step. by intros -> ->. Qed.

Lemma insert_transaction_taken row st :
  transaction_type_accepted (transaction_type (trx_data row)) = true →
  id_taken (trx_id row) st = true →
  insert_transaction row st
  = (Rejected (ConstraintFailed "inventory_transactions.id"), st).
Proof. unfold id_taken. step. by intros -> ->. Qed.

Lemma insert_transaction_unlisted row st :
  transaction_type_accepted (transaction_type (trx_data row)) = false →
  insert_transaction row st
  = (Rejected (ConstraintFailed "inventory_transactions.transaction_type"), st).
Proof. step. by intros ->. Qed.

Lemma insert_transaction_cases row st :
  insert_transaction row st
  = (Resolved tt, with_transactions (λ l, (l ++ [row])%list) st)
  ∨ ∃ column, insert_transaction row st = (Rejected (ConstraintFailed column), st).
Proof.
  destruct (transaction_type_accepted (transaction_type (trx_data row))) eqn:Hty.
  - destruct (id_taken (trx_id row) st) eqn:Hid.
    + right. eexists. by apply insert_transaction_taken.
    + left. by apply insert_transaction_fresh.
  - right. eexists. by apply insert_transaction_unlisted.
Qed.

(** The outcomes of [createInventoryTransaction]. *)
Lemma createInventoryTransaction_cases uuid td u s st :
  let row := new_row uuid td u s in
  if negb (transaction_type_accepted (transaction_type td))
  then createInventoryTransaction uuid td u s st
       = (Rejected (ConstraintFailed "inventory_transactions.transaction_type"), st)
  else if id_taken (trx_id row) st
  then createInventoryTransaction uuid td u s st
       = (Rejected (ConstraintFailed "inventory_transactions.id"), st)
  else ∃ c st', createInventoryTransaction uuid td u s st = (c, st')
       ∧ products st' = products st ∧ categories st' = categories st
       ∧ locations st' = locations st ∧ sessions st' = sessions st
       ∧ inventory_transactions st' = (inventory_transactions st ++ [row])%list
       ∧ match c with
         | Resolved _ =>
             ∀ p l, quantity_at st' p l = quantity_at st p l + movement_effect td p l
         | Rejected e =>
             inventory st' = inventory st ∧ (NotFound e ∨ InsufficientStock e)
         end.
Proof.
  intros row. unfold createInventoryTransaction. fold (new_row uuid td u s). fold row.
  destruct (transaction_type_accepted (transaction_type td)) eqn:Hty; cbn [negb].
  2: { by rewrite (bind_rejected _ _ _ _ _ (insert_transaction_unlisted row st Hty)). }
  destruct (id_taken (trx_id row) st) eqn:Hid.
  { by rewrite (bind_rejected _ _ _ _ _ (insert_transaction_taken row st Hty Hid)). }
  rewrite (bind_resolved _ _ _ _ _ (insert_transaction_fresh row st Hty Hid)).
  set (st1 := with_transactions _ st).
  destruct (update_inventory_for_cases td st1) as
    [(st' & E & Hsame & Hq) | (e & E & He)].
  - rewrite (bind_resolved _ _ _ _ _ E). step.
    destruct Hsame as (?&?&?&?&?). subst st1; simpl in *.
    eexists _, st'. split; [done|]. repeat split; try congruence.
    intros p l. by rewrite Hq.
  - rewrite (bind_rejected _ _ _ _ _ E).
    eexists _, st1. split; [done|]. by repeat split.
Qed.

Lemma accepted_movement type :
  type = "check_in" ∨ type = "check_out" ∨ type = "transfer" ∨ type = "adjustment" →
  transaction_type_accepted type = true.
Proof. by intros [->|[->|[->| ->]]]. Qed.

(** Where the dispatch rejects, and why: the source record is missing or
    holds less than the quantity; nothing has been written by it. *)
Lemma update_inventory_for_rejected td st e st' :
  update_inventory_for td st = (Rejected e, st') →
  st' = st
  ∧ ∃ l, source_location_id td = Some l ∧ l ≠ ""
      ∧ match inventory st !! (product_id td, l) with
        | None =>
            (transaction_type td = "check_out"
             ∧ e = JsError "Product not found in this location")
            ∨ (transaction_type td = "transfer"
               ∧ e = JsError "Product not found in source location")
        | Some a =>
            a < quantity td
            ∧ ((transaction_type td = "check_out"
                ∧ e = JsError "Insufficient quantity available")
               ∨ (transaction_type td = "transfer"
                  ∧ e = JsError "Insufficient quantity available for transfer"))
        end.
Proof.
  unfold update_inventory_for. intros E.
  destruct (String.eqb (transaction_type td) "check_in"
            && truthy (destination_location_id td)).
  { destruct (checkin_resolves (product_id td) (val (destination_location_id td))
                (quantity td) st) as (st2 & E2 & _).
    congruence. }
  destruct (String.eqb (transaction_type td) "check_out"
            && truthy (source_location_id td)) eqn:Hout.
  { apply andb_prop in Hout as [Hty%String.eqb_eq Hs].
    destruct (truthy_Some _ Hs) as (l & Hsrc & Hne & Hval). rewrite Hval in E.
    pose proof (checkout_cases (product_id td) l (quantity td) st) as Hc.
    destruct (inventory st !! (product_id td, l)) as [a|] eqn:Ei.
    - destruct (Z.ltb_spec a (quantity td)) as [Hlt|Hle].
      + rewrite Hc in E. injection E as <- <-. split; [done|].
        exists l. rewrite Ei. repeat split; try done. by left.
      + destruct Hc as (st2 & E2 & _). congruence.
    - rewrite Hc in E. injection E as <- <-. split; [done|].
      exists l. rewrite Ei. repeat split; try done. by left. }
  destruct (String.eqb (transaction_type td) "transfer"
            && truthy (source_location_id td)
            && truthy (destination_location_id td)) eqn:Htr.
  { apply andb_prop in Htr as [[Hty%String.eqb_eq Hs]%andb_prop Hd].
    destruct (truthy_Some _ Hs) as (l & Hsrc & Hne & Hval). rewrite Hval in E.
    pose proof (transfer_cases (product_id td) l (val (destination_location_id td))
                  (quantity td) st) as Hc.
    destruct (inventory st !! (product_id td, l)) as [a|] eqn:Ei.
    - destruct (Z.ltb_spec a (quantity td)) as [Hlt|Hle].
      + rewrite Hc in E. injection E as <- <-. split; [done|].
        exists l. rewrite Ei. repeat split; try done. by right.
      + destruct Hc as (st2 & E2 & _). congruence.
    - rewrite Hc in E. injection E as <- <-. split; [done|].
      exists l. rewrite Ei. repeat split; try done. by right. }
  unfold ret in E. discriminate.
Qed.

(** What a call of [createInventoryTransaction] that resolves has done. *)
Lemma createInventoryTransaction_resolved uuid td u s st r st' :
  createInventoryTransaction uuid td u s st = (Resolved r, st') →
  transaction_type_accepted (transaction_type td) = true
  ∧ id_taken (generateId "trx-" uuid) st = false
  ∧ products st' = products st ∧ categories st' = categories st
  ∧ locations st' = locations st ∧ sessions st' = sessions st
  ∧ inventory_transactions st'
    = (inventory_transactions st ++ [new_row uuid td u s])%list
  ∧ ∀ p l, quantity_at st' p l = quantity_at st p l + movement_effect td p l.
Proof.
  intros E. pose proof (createInventoryTransaction_cases uuid td u s st) as H.
  simpl in H.
  destruct (transaction_type_accepted (transaction_type td)); simpl in H; [|congruence].
  destruct (id_taken _ st); [congruence|].
  destruct H as (c & st2 & E' & ? & ? & ? & ? & ? & Hq).
  rewrite E in E'. injection E' as <- <-. by repeat split.
Qed.

(** What a call of [createInventoryTransaction] that is rejected has done:
    nothing when the store refuses the INSERT; otherwise the row is logged
    and the dispatch has rejected on the source record. *)
Lemma createInventoryTransaction_rejected uuid td u s st e st' :
  createInventoryTransaction uuid td u s st = (Rejected e, st') →
  ((∃ column, e = ConstraintFailed column) ∧ st' = st)
  ∨ (st' = with_transactions (λ rows, (rows ++ [new_row uuid td u s])%list) st
     ∧ ∃ l, source_location_id td = Some l ∧ l ≠ ""
         ∧ match inventory st !! (product_id td, l) with
           | None =>
               (transaction_type td = "check_out"
                ∧ e = JsError "Product not found in this location")
               ∨ (transaction_type td = "transfer"
                  ∧ e = JsError "Product not found in source location")
           | Some a =>
               a < quantity td
               ∧ ((transaction_type td = "check_out"
                   ∧ e = JsError "Insufficient quantity available")
                  ∨ (transaction_type td = "transfer"
                     ∧ e = JsError "Insufficient quantity available for transfer"))
           end).
Proof.
  intros E. unfold createInventoryTransaction in E. fold (new_row uuid td u s) in E.
  destruct (insert_transaction_cases (new_row uuid td u s) st) as [Hi|[column Hi]].
  - rewrite (bind_resolved _ _ _ _ _ Hi) in E.
    apply bind_inv in E as [([] & st1 & E1 & E) | (e' & E1 & He)].
    + by step_in E.
    + injection He as ->.
      apply update_inventory_for_rejected in E1 as [-> H]. right. by split.
  - rewrite (bind_rejected _ _ _ _ _ Hi) in E. injection E as <- <-. left. eauto.
Qed.


Lemma store_refusal_is_no_test column :
  ¬ NotFound (ConstraintFailed column) ∧ ¬ InsufficientStock (ConstraintFailed column).
Proof.
  split; [intros [H|[H|[H|H]]]|intros [H|H]]; discriminate.
Qed.

(** ** Sequencing *)

Lemma then_ret_resolved {A} (m : M A) st st' :
  (m ;;; ret tt) st = (Resolved tt, st') → ∃ a, m st = (Resolved a, st').
Proof.
  intros [(a & st1 & E & H) | (e & _ & H)]%bind_inv; [|done].
  unfold ret in H. inversion H; subst. eauto.
Qed.

(** ** Session rows under createSession and completeSession *)

Lemma createSession_frame uuid ty loc n u st :
  let st' := (createSession uuid ty loc n u st).2 in
  inventory st' = inventory st
  ∧ inventory_transactions st' = inventory_transactions st
  ∧ products st' = products st
  ∧ ∀ sid s, sessions st !! sid = Some s → sessions st' !! sid = Some s.
Proof.
  unfold createSession. step.
  destruct (sessions st !! generateId "sess-" uuid) eqn:E; simpl;
    repeat split; auto.
  intros sid s Hs. rewrite lookup_insert_ne; [done|]. intros <-. congruence.
Qed.

Lemma completeSession_frame sid u st :
  let st' := (completeSession sid u st).2 in
  inventory st' = inventory st
  ∧ inventory_transactions st' = inventory_transactions st
  ∧ products st' = products st
  ∧ ∀ sid' s, sessions st !! sid' = Some s →
      sid' ≠ sid ∨ status s ≠ "in_progress" → sessions st' !! sid' = Some s.
Proof.
  unfold completeSession. step.
  destruct (sessions st !! sid) as [sess|] eqn:E; simpl; [|by repeat split].
  destruct (String.eqb_spec (status sess) "in_progress") as [Hs|Hs]; simpl;
    [|by repeat split].
  repeat split; auto. intros sid' s Hs' [Hne|Hst].
  - by rewrite lookup_alter_ne.
  - destruct (decide (sid = sid')) as [->|]; [congruence|by rewrite lookup_alter_ne].
Qed.

(** ** The reversal loop of cancelSession *)

Lemma fmap_add_zero (o : option Z) : (λ q, q + 0) <$> o = o.
Proof. destruct o; simpl; [f_equal; lia|done]. Qed.

Lemma update_quantity_at_lookup d p0 o st p l :
  ∃ st', update_quantity_at d p0 o st = (Resolved tt, st')
    ∧ same_but_inventory st st'
    ∧ inventory st' !! (p, l)
      = (λ q, q + (if negb (String.eqb p0 p) then 0 else at_location o l d))
        <$> inventory st !! (p, l).
Proof.
  destruct o as [l0|]; step.
  - eexists; split; [done|]. split; [by repeat split|]. simpl.
    rewrite lookup_alter. unfold at_location.
    destruct (String.eqb_spec p0 p) as [->|Hp]; simpl.
    + case_decide as Hk; case_bool_decide; simplify_eq; try done.
      by rewrite fmap_add_zero.
    + rewrite decide_False by congruence. by rewrite fmap_add_zero.
  - eexists; split; [done|]. split; [by repeat split|].
    unfold at_location. rewrite bool_decide_false by done.
    destruct (negb _); by rewrite fmap_add_zero.
Qed.

Lemma reverse_transaction_lookup t st p l :
  ∃ st', reverse_transaction t st = (Resolved tt, st')
    ∧ same_but_inventory st st'
    ∧ inventory st' !! (p, l)
      = (λ q, q + inverse_effect t p l) <$> inventory st !! (p, l).
Proof.
  unfold reverse_transaction, inverse_effect.
  destruct (String.eqb (transaction_type (trx_data t)) "check_in").
  { destruct (update_quantity_at_lookup (- quantity (trx_data t))
                (product_id (trx_data t)) (destination_location_id (trx_data t))
                st p l) as (st' & E & Hs & Hq).
    exists st'. repeat split; try done; try apply Hs. rewrite Hq.
    unfold at_location.
    destruct (inventory st !! (p, l)); simpl; [f_equal|done].
    destruct (negb _); [done|]. case_bool_decide; lia. }
  destruct (String.eqb (transaction_type (trx_data t)) "check_out").
  { destruct (update_quantity_at_lookup (quantity (trx_data t))
                (product_id (trx_data t)) (source_location_id (trx_data t))
                st p l) as (st' & E & Hs & Hq).
    exists st'. repeat split; try done; apply Hs. }
  exists st. unfold ret. repeat split; try done.
  destruct (negb _); by rewrite fmap_add_zero.
Qed.

Lemma reverse_transaction_total t st :
  ∃ st', reverse_transaction t st = (Resolved tt, st').
Proof.
  destruct (reverse_transaction_lookup t st "" "") as (st' & E & _). eauto.
Qed.

Lemma reverse_all_lookup txs st :
  ∃ st', for_of txs reverse_transaction st = (Resolved tt, st')
    ∧ same_but_inventory st st'
    ∧ ∀ p l, inventory st' !! (p, l)
             = (λ q, q + inverse_sum txs p l) <$> inventory st !! (p, l).
Proof.
  revert st. induction txs as [|t txs IH]; intros st; simpl.
  - exists st. unfold ret. repeat split; try done.
    intros p l. by rewrite fmap_add_zero.
  - destruct (reverse_transaction_total t st) as (st1 & E1).
    destruct (IH st1) as (st2 & E2 & Hs2 & Hq2).
    exists st2. rewrite (bind_resolved _ _ _ _ _ E1). split; [done|]. split.
    + destruct (reverse_transaction_lookup t st "" "") as (st1' & E1' & Hs1 & _).
      rewrite E1 in E1'. inversion E1'; subst st1'.
      eapply same_but_inventory_trans; eauto.
    + intros p l. rewrite Hq2.
      destruct (reverse_transaction_lookup t st p l) as (st1' & E1' & _ & Hq1).
      rewrite E1 in E1'. inversion E1'; subst st1'. rewrite Hq1.
      destruct (inventory st !! (p, l)); simpl; [f_equal; lia|done].
Qed.

Lemma inverse_sum_app l1 l2 p l :
  inverse_sum (l1 ++ l2)%list p l = inverse_sum l1 p l + inverse_sum l2 p l.
Proof.
  unfold inverse_sum. induction l1 as [|t l1 IH]; simpl; [lia|]. rewrite IH. lia.
Qed.

Lemma inverse_sum_rev txs p l : inverse_sum (rev txs) p l = inverse_sum txs p l.
Proof.
  induction txs as [|t txs IH]; simpl; [done|].
  rewrite inverse_sum_app, IH. unfold inverse_sum; simpl. lia.
Qed.

Lemma cancelSession_cases sid u st :
  match sessions st !! sid with
  | None => cancelSession sid u st = (Rejected (JsError "Session not found"), st)
  | Some sess =>
      if String.eqb (status sess) "in_progress"
      then ∃ st',
          cancelSession sid u st = (Resolved (Some (set_status "cancelled" sess)), st')
          ∧ same_catalogue st st'
          ∧ inventory_transactions st' = inventory_transactions st
          ∧ sessions st' = alter (set_status "cancelled") sid (sessions st)
          ∧ ∀ p l, inventory st' !! (p, l)
                   = (λ q, q + inverse_sum (session_transactions st sid) p l)
                     <$> inventory st !! (p, l)
      else cancelSession sid u st
           = (Rejected (JsError "Session is already completed or cancelled"), st)
  end.
Proof.
  unfold cancelSession.
  destruct (sessions st !! sid) as [sess|] eqn:Hs.
  - destruct (String.eqb (status sess) "in_progress") eqn:Hst.
    + destruct (reverse_all_lookup (session_transactions st sid) st)
        as (st1 & E1 & (Hp & Hc & Hl & Ht & Hss) & Hq).
      exists (with_sessions (alter (set_status "cancelled") sid) st1).
      split; [|repeat split; simpl; try done].
      * rewrite (bind_resolved (getSessionById sid) _ st (sessions st !! sid) st eq_refl).
        rewrite Hs, Hst. cbn [negb].
        rewrite (bind_resolved (getSessionTransactions sid) _ st
                   (session_transactions st sid) st eq_refl).
        rewrite (bind_resolved _ _ _ _ _ E1). step.
        rewrite lookup_alter, decide_True by done. by rewrite Hss, Hs.
      * by rewrite Hss.
    + rewrite (bind_resolved (getSessionById sid) _ st (sessions st !! sid) st eq_refl).
      by rewrite Hs, Hst.
  - rewrite (bind_resolved (getSessionById sid) _ st (sessions st !! sid) st eq_refl).
    by rewrite Hs.
Qed.

Lemma session_transactions_all st sid :
  Forall (λ t, is_Some (products st !! product_id (trx_data t))) (session_rows st sid) →
  session_transactions st sid = rev (session_rows st sid).
Proof.
  unfold session_transactions, session_rows. intros H. f_equal.
  induction (inventory_transactions st) as [|t l IH]; simpl in *; [done|].
  destruct (bool_decide (session_id t = Some sid)); simpl in *; [|auto].
  inversion H; subst. rewrite bool_decide_true by done. f_equal. auto.
Qed.

(** C3: cancelling an in_progress session resolves with the session in
    status cancelled, and has applied to every inventory record the inverse
    quantity effect of every transaction logged under the session (check_in:
    minus its quantity at its destination; check_out: plus its quantity at its
    source).  The products of the session's rows exist, as the schema's
    REFERENCES products(id) states. *)
Theorem cancelSession_reverses_session (sid u : string) (st : db) (sess : session) :
  sessions st !! sid = Some sess →
  status sess = "in_progress" →
  Forall (λ t, is_Some (products st !! product_id (trx_data t))) (session_rows st sid) →
  ∃ st',
    cancelSession sid u st = (Resolved (Some (set_status "cancelled" sess)), st')
    ∧ (status <$> sessions st' !! sid) = Some "cancelled"
    ∧ ∀ p l, inventory st' !! (p, l)
             = (λ q, q + inverse_sum (session_rows st sid) p l)
               <$> inventory st !! (p, l).
Proof.
  intros Hs Hst Hfk. pose proof (cancelSession_cases sid u st) as H.
  rewrite Hs, Hst in H. simpl in H.
  destruct H as (st' & E & _ & _ & Hss & Hq).
  exists st'. split; [done|]. split.
  - rewrite Hss, lookup_alter, decide_True, Hs by done. done.
  - intros p l. by rewrite Hq, session_transactions_all, inverse_sum_rev.
Qed.

Lemma cancelSession_frame sid u st :
  let st' := (cancelSession sid u st).2 in
  inventory_transactions st' = inventory_transactions st
  ∧ same_catalogue st st'
  ∧ dom (inventory st') = dom (inventory st)
  ∧ ∀ sid', sid' ≠ sid → sessions st' !! sid' = sessions st !! sid'.
Proof.
  pose proof (cancelSession_cases sid u st) as H.
  destruct (sessions st !! sid) as [sess|].
  - destruct (String.eqb (status sess) "in_progress").
    + destruct H as (st' & E & Hcat & Ht & Hss & Hq). rewrite E. simpl.
      repeat split; try done; try apply Hcat.
      * apply set_eq. intros [p l]. by rewrite !elem_of_dom, Hq, fmap_is_Some.
      * intros sid' Hne. by rewrite Hss, lookup_alter_ne.
    + by rewrite H.
  - by rewrite H.
Qed.

(** C7: whatever its outcome, [cancelSession] leaves the ledger, the
    catalogue and every other session as they were, and creates or deletes
    no inventory record: it writes quantities of existing records and the
    session's own row only. *)
Theorem cancelSession_inserts_no_ledger_row (sid u : string) (st : db) :
  let st' := (cancelSession sid u st).2 in
  inventory_transactions st' = inventory_transactions st
  ∧ products st' = products st
  ∧ categories st' = categories st
  ∧ locations st' = locations st
  ∧ dom (inventory st') = dom (inventory st)
  ∧ ∀ sid', sid' ≠ sid → sessions st' !! sid' = sessions st !! sid'.
Proof.
  destruct (cancelSession_frame sid u st) as (Ht & (Hp & Hc & Hl) & Hd & Hs).
  by repeat split.
Qed.

(** ** Frame rules *)

Section keeps.
Context (R : db → db → Prop) `{!PreOrder R}.

Lemma keeps_ret {A} (a : A) : keeps R (ret a).
Proof. intros st. simpl. reflexivity. Qed.

Lemma keeps_throw {A} e : keeps R (@throw A e).
Proof. intros st. simpl. reflexivity. Qed.

Lemma keeps_get : keeps R get.
Proof. intros st. simpl. reflexivity. Qed.

Lemma keeps_modify f : (∀ st, R st (f st)) → keeps R (modify f).
Proof. intros H st. apply H. Qed.

Lemma keeps_bind {A B} (m : M A) (k : A → M B) :
  keeps R m → (∀ a, keeps R (k a)) → keeps R (bind m k).
Proof.
  intros Hm Hk st. unfold bind. specialize (Hm st).
  destruct (m st) as [[a|e] st1]; simpl in *; [|done].
  etrans; [exact Hm|apply Hk].
Qed.

Lemma keeps_for_of {A} (xs : list A) (body : A → M unit) :
  (∀ x, keeps R (body x)) → keeps R (for_of xs body).
Proof.
  intros H. induction xs; simpl; [apply keeps_ret|].
  apply keeps_bind; auto.
Qed.
End keeps.

Global Instance unchanged_preorder {X} (proj : db → X) : PreOrder (unchanged proj).
Proof. split; unfold unchanged; [done|]. intros ??? H1 H2. congruence. Qed.

Ltac head_of t := lazymatch t with ?f _ => head_of f | _ => t end.

Ltac keeps_step :=
  lazymatch goal with
  | |- keeps _ (bind _ _) => apply keeps_bind; [apply _| |intros ?]
  | |- keeps _ (ret _) => apply keeps_ret; apply _
  | |- keeps _ (throw _) => apply keeps_throw; apply _
  | |- keeps _ get => apply keeps_get; apply _
  | |- keeps _ (modify _) => apply keeps_modify; intros ?; done
  | |- keeps _ (for_of _ _) => apply keeps_for_of; [apply _|intros ?]
  | |- keeps _ (match ?x with _ => _ end) => destruct x
  | |- keeps _ (let _ := _ in _) => cbv zeta
  | |- keeps _ ?m => let h := head_of m in unfold h
  end.
Ltac solve_keeps := repeat keeps_step.

Lemma createInventoryTransaction_keeps_sessions uuid td u s :
  keeps (unchanged sessions) (createInventoryTransaction uuid td u s).
Proof. solve_keeps. Qed.

Lemma updateInventoryQuantity_keeps_sessions uuid p l q u :
  keeps (unchanged sessions) (updateInventoryQuantity uuid p l q u).
Proof. solve_keeps. Qed.

Lemma addProductToSession_keeps_sessions uuid sid td u :
  keeps (unchanged sessions) (addProductToSession uuid sid td u).
Proof. solve_keeps. Qed.

Lemma createProduct_keeps {X} (proj : db → X) uuid pd u :
  (∀ f st, proj (with_products f st) = proj st) →
  keeps (unchanged proj) (createProduct uuid pd u).
Proof. intros H. unfold unchanged. solve_keeps. Qed.

Lemma deleteProduct_keeps {X} (proj : db → X) id :
  (∀ f st, proj (with_products f st) = proj st) →
  keeps (unchanged proj) (deleteProduct id).
Proof. intros H. unfold unchanged. solve_keeps. Qed.

(** ** The session state machine *)

Lemma then_ret_state {A} (m : M A) st : ((m ;;; ret tt) st).2 = (m st).2.
Proof. unfold bind. by destruct (m st) as [[a|e] st']. Qed.

Lemma run_state op st :
  (run op st).2 =
  match op with
  | CreateProduct uuid pd u => (createProduct uuid pd u st).2
  | DeleteProduct id => (deleteProduct id st).2
  | UpdateInventoryQuantity uuid p l q u => (updateInventoryQuantity uuid p l q u st).2
  | CreateInventoryTransaction uuid td u s => (createInventoryTransaction uuid td u s st).2
  | CreateSession uuid ty l n u => (createSession uuid ty l n u st).2
  | AddProductToSession uuid s td u => (addProductToSession uuid s td u st).2
  | CompleteSession s u => (completeSession s u st).2
  | CancelSession s u => (cancelSession s u st).2
  end.
Proof. destruct op; apply then_ret_state. Qed.

Lemma not_in_progress sess :
  status sess ≠ "in_progress" → String.eqb (status sess) "in_progress" = false.
Proof. intros H. by apply String.eqb_neq. Qed.

(** C4: completed and cancelled are terminal.  On a session whose status is
    not in_progress, [completeSession], [cancelSession] and
    [addProductToSession] reject with an InvalidState error and leave the
    whole store (sessions, ledger, quantities) as it was; and no operation
    of the service layer, whatever its outcome, changes the row of such a
    session. *)
Theorem terminal_sessions_are_final (st : db) (sid : string) (sess : session) :
  sessions st !! sid = Some sess →
  status sess ≠ "in_progress" →
  (∀ u, ∃ e, completeSession sid u st = (Rejected e, st) ∧ InvalidState e)
  ∧ (∀ u, ∃ e, cancelSession sid u st = (Rejected e, st) ∧ InvalidState e)
  ∧ (∀ uuid td u, ∃ e, addProductToSession uuid sid td u st = (Rejected e, st)
                       ∧ InvalidState e)
  ∧ (∀ op, sessions (run op st).2 !! sid = Some sess).
Proof.
  intros Hs Hst. pose proof (not_in_progress _ Hst) as Hb.
  assert (Hcancel : ∀ u, cancelSession sid u st
            = (Rejected (JsError "Session is already completed or cancelled"), st)).
  { intros u. unfold cancelSession.
    rewrite (bind_resolved (getSessionById sid) _ st (sessions st !! sid) st eq_refl).
    by rewrite Hs, Hb. }
  repeat split.
  - intros u. eexists. split; [|by left].
    unfold completeSession.
    rewrite (bind_resolved (getSessionById sid) _ st (sessions st !! sid) st eq_refl).
    by rewrite Hs, Hb.
  - intros u. eexists. split; [apply Hcancel|by left].
  - intros uuid td u. eexists. split; [|by right].
    unfold addProductToSession.
    rewrite (bind_resolved (getSessionById sid) _ st (sessions st !! sid) st eq_refl).
    by rewrite Hs, Hb.
  - intros op. rewrite run_state.
    destruct op as [uuid pd u|id|uuid p l q u|uuid td u s|uuid ty l n u
                   |uuid sid' td u|sid' u|sid' u].
    + rewrite (createProduct_keeps sessions uuid pd u); done.
    + rewrite (deleteProduct_keeps sessions id); done.
    + by rewrite (updateInventoryQuantity_keeps_sessions uuid p l q u).
    + by rewrite (createInventoryTransaction_keeps_sessions uuid td u s).
    + by apply createSession_frame.
    + by rewrite (addProductToSession_keeps_sessions uuid sid' td u).
    + apply completeSession_frame; auto.
    + destruct (decide (sid' = sid)) as [->|Hne].
      * by rewrite Hcancel.
      * destruct (cancelSession_frame sid' u st) as (_ & _ & _ & H).
        rewrite H; done.
Qed.

(** ** Rejected movements and unchecked quantities *)

Lemma checkout_insufficient uuid td u s st l available :
  transaction_type td = "check_out" →
  source_location_id td = Some l → l ≠ "" →
  inventory st !! (product_id td, l) = Some available →
  available < quantity td →
  id_taken (generateId "trx-" uuid) st = false →
  createInventoryTransaction uuid td u s st
  = (Rejected (JsError "Insufficient quantity available"),
     with_transactions (λ rows, (rows ++ [new_row uuid td u s])%list) st).
Proof.
  intros Hty Hsrc Hl Hinv Hlt Hid. unfold createInventoryTransaction.
  fold (new_row uuid td u s).
  assert (transaction_type_accepted (transaction_type td) = true) as Hacc
    by (by rewrite Hty).
  rewrite (bind_resolved _ _ _ _ _
             (insert_transaction_fresh (new_row uuid td u s) st Hacc Hid)).
  apply bind_rejected. unfold update_inventory_for. rewrite Hty, Hsrc. simpl.
  destruct (String.eqb_spec l "") as [|_]; [done|]. simpl.
  pose proof (checkout_cases (product_id td) l (quantity td)
                (with_transactions (λ rows, (rows ++ [new_row uuid td u s])%list) st)) as H.
  simpl in H. rewrite Hinv in H.
  by destruct (Z.ltb_spec available (quantity td)); [|lia].
Qed.

(** C1 (the code diverges): with 10 units in stock, a check-out of 15 is
    rejected with "Insufficient quantity available" and the quantity stays
    10, but the ledger row of the rejected movement has been written: the
    INSERT precedes the sufficiency test. *)
Theorem rejected_checkout_is_logged :
  let r := createInventoryTransaction "u1" check_out_15 "usr-1" None ten_in_stock in
  r.1 = Rejected (JsError "Insufficient quantity available")
  ∧ inventory r.2 !! ("prod-1", "loc-1") = Some 10
  ∧ inventory_transactions ten_in_stock = []
  ∧ inventory_transactions r.2 = [new_row "u1" check_out_15 "usr-1" None].
Proof.
  rewrite (checkout_insufficient "u1" check_out_15 "usr-1" None ten_in_stock
             "loc-1" 10); try done.
Qed.

(** C5 (the code diverges): [updateInventoryQuantity] writes the quantity it
    is given without a sign test; on a record of 10 units a count of -15
    resolves and leaves the record at -15. *)
Theorem negative_count_is_stored :
  let r := updateInventoryQuantity "u1" "prod-1" "loc-1" (-15) "usr-1" ten_in_stock in
  (∃ v, r.1 = Resolved v)
  ∧ inventory r.2 !! ("prod-1", "loc-1") = Some (-15)
  ∧ -15 < 0.
Proof. vm_compute. split; [by eexists|done]. Qed.


(** ** Barcodes *)

Lemma fetch_product_by_barcode_found st b id p :
  products st !! id = Some p → barcode p = Some b →
  ∃ id', fetch_product_by_barcode b st = (Resolved (Some id'), st).
Proof.
  intros Hp Hb. step.
  destruct (List.find _ _) as [[id' p']|] eqn:E; simpl; [by eexists|].
  exfalso. apply find_none with (x := (id, p)) in E.
  - simpl in E. by rewrite bool_decide_true in E.
  - apply list_elem_of_In, elem_of_map_to_list. exact Hp.
Qed.

Lemma generateId_inj prefix a b : generateId prefix a = generateId prefix b → a = b.
Proof.
  unfold generateId. induction prefix as [|c prefix IH]; simpl; [done|].
  intros [= H]. auto.
Qed.

Lemma createProduct_null_barcode uuid pd u st :
  barcode pd = None →
  products st !! generateId "prod-" uuid = None →
  createProduct uuid pd u st
  = (Resolved (Some (inserted_product pd)),
     with_products (<[generateId "prod-" uuid := inserted_product pd]>) st).
Proof.
  intros Hb Hid. unfold createProduct, insert_product. rewrite Hb. step.
  rewrite Hid. simpl. rewrite lookup_insert_eq. unfold inserted_product.
  by rewrite Hb.
Qed.

(** C9: creating a product whose non-null barcode is the barcode of a stored
    product rejects with a DuplicateKey error and leaves the store as it was;
    two products without a barcode are both created: the barcode is unique
    among the non-null values only. *)
Theorem barcode_unique_among_non_null (u : string) (st : db) :
  (∀ uuid pd b id p,
     barcode pd = Some b →
     products st !! id = Some p → barcode p = Some b →
     ∃ e, createProduct uuid pd u st = (Rejected e, st) ∧ DuplicateKey e)
  ∧ (∀ uuid1 uuid2 pd1 pd2,
     barcode pd1 = None → barcode pd2 = None →
     products st !! generateId "prod-" uuid1 = None →
     products st !! generateId "prod-" uuid2 = None →
     uuid1 ≠ uuid2 →
     ∃ r st', (createProduct uuid1 pd1 u ;;; createProduct uuid2 pd2 u) st
              = (Resolved r, st')
       ∧ products st' !! generateId "prod-" uuid1 = Some (inserted_product pd1)
       ∧ products st' !! generateId "prod-" uuid2 = Some (inserted_product pd2)
       ∧ barcode (inserted_product pd1) = None
       ∧ barcode (inserted_product pd2) = None).
Proof.
  split.
  - intros uuid pd b id p Hb Hp Hpb.
    destruct (fetch_product_by_barcode_found st b id p Hp Hpb) as [id' Hf].
    unfold createProduct. rewrite Hb. simpl.
    destruct (String.eqb_spec b "") as [->|Hne]; simpl.
    + unfold insert_product. step.
      destruct (products st !! generateId "prod-" uuid); simpl.
      * eexists. split; [done|]. right. by eexists.
      * step_in Hf. injection Hf as Hf. rewrite Hf. simpl.
        eexists. split; [done|]. right. by eexists.
    + step. step_in Hf. injection Hf as Hf. rewrite Hf. simpl.
      eexists. split; [done|]. by left.
  - intros uuid1 uuid2 pd1 pd2 Hb1 Hb2 Hid1 Hid2 Hne.
    rewrite (bind_resolved _ _ _ _ _ (createProduct_null_barcode uuid1 pd1 u st Hb1 Hid1)).
    assert (generateId "prod-" uuid1 ≠ generateId "prod-" uuid2) as Hids
      by (intros H%generateId_inj; done).
    rewrite createProduct_null_barcode; [|done|by simpl; rewrite lookup_insert_ne].
    eexists _, _. split; [done|]. simpl.
    rewrite lookup_insert_eq, lookup_insert_ne, lookup_insert_eq by done.
    by repeat split.
Qed.

(** ** The low-stock queries *)

Lemma insert_by_name_perm e l : insert_by_name e l ≡ₚ e :: l.
Proof.
  induction l as [|e' l IH]; simpl; [done|].
  destruct (String.leb _ _); [done|]. rewrite IH. apply Permutation_swap.
Qed.

Lemma order_by_name_perm l : order_by_name l ≡ₚ l.
Proof.
  unfold order_by_name. induction l as [|e l IH]; simpl; [done|].
  by rewrite insert_by_name_perm, IH.
Qed.

Lemma length_filter_le {A} (P : A → bool) l :
  (length (List.filter P l) ≤ length l)%nat.
Proof. induction l; simpl; [lia|]. destruct (P _); simpl; lia. Qed.

Lemma length_omap_le {A B} (g : A → option B) l :
  (length (omap g l) ≤ length l)%nat.
Proof. induction l; csimpl; [lia|]. destruct (g _); csimpl; lia. Qed.

Lemma low_stock_count_eq st :
  length (List.filter (λ r : string * string * Z * product,
                         at_or_below_minimum r.1.2 r.2) (active_rows st))
  = length (List.filter (low_stock_pair st) (map_to_list (inventory st))).
Proof.
  unfold active_rows.
  induction (map_to_list (inventory st)) as [|[[p l] q] rows IH]; csimpl; [done|].
  unfold low_stock_pair at 1; simpl.
  destruct (products st !! p) as [prod|]; csimpl; [|done].
  destruct (is_active prod); csimpl; [|done].
  destruct (at_or_below_minimum q prod); csimpl; by rewrite IH.
Qed.

Lemma low_stock_pair_spec st p l q :
  low_stock_pair st (p, l, q) = true
  ↔ ∃ prod m, products st !! p = Some prod ∧ is_active prod = true
              ∧ minimum_stock prod = Some m ∧ q ≤ m.
Proof.
  unfold low_stock_pair, at_or_below_minimum; simpl. split.
  - destruct (products st !! p) as [prod|] eqn:Hp; [|done].
    destruct (is_active prod) eqn:Ha; [|done]. simpl.
    destruct (minimum_stock prod) as [m|] eqn:Hm; [|done].
    intros H%Z.leb_le. by exists prod, m.
  - intros (prod & m & -> & -> & -> & H). simpl. by apply Z.leb_le.
Qed.

(** C8, as stated, fails: the record of a deactivated product is at 2, below
    the product's minimum of 5, and neither the low-stock query nor the
    summary's count has it. *)
Lemma low_stock_query_skips_inactive :
  inventory discontinued_store !! ("prod-1", "loc-1") = Some 2
  ∧ (minimum_stock <$> products discontinued_store !! "prod-1") = Some (Some 5)
  ∧ 2 ≤ 5
  ∧ (getInventory low_stock_only discontinued_store).1 = Resolved []
  ∧ ∃ s, (getInventorySummary discontinued_store).1 = Resolved s
         ∧ low_stock_count s = 0%nat.
Proof. vm_compute. repeat split; try done. by eexists. Qed.

Lemma join_entry_Some st p l q e :
  join_entry st (p, l, q) = Some e ↔
  ∃ prod loc, products st !! p = Some prod ∧ locations st !! l = Some loc
    ∧ e = {| entry_product_id := p; entry_location_id := l; entry_quantity := q;
             entry_product := prod;
             entry_category := category_id prod ≫= (λ c, categories st !! c);
             entry_location := loc |}.
Proof.
  unfold join_entry. split.
  - destruct (products st !! p) as [prod|]; simpl; [|done].
    destruct (locations st !! l) as [loc|]; simpl; [|done].
    intros [= <-]. by exists prod, loc.
  - intros (prod & loc & -> & -> & ->). done.
Qed.

Lemma entry_matches_low_stock_only f e :
  lowStock f = true → truthy (locationId f) = false →
  truthy (categoryId f) = false → truthy (search f) = false →
  entry_matches f e
  = is_active (entry_product e)
    && at_or_below_minimum (entry_quantity e) (entry_product e).
Proof.
  intros H1 H2 H3 H4. unfold entry_matches. rewrite H1, H2, H3, H4.
  by rewrite !andb_true_r.
Qed.

(** C8, amended: with the low-stock flag as its only filter and a page that
    holds every record, [getInventory] returns exactly the (product,
    location) pairs whose product is stored and active, whose location is
    stored, and whose quantity is at or below the product's minimum_stock;
    a quantity equal to the minimum is included; the summary's
    low_stock_count is the number of records of active products at or below
    their minimum. *)
Theorem low_stock_query_selects_active_pairs (f : inventory_filters) (st : db) :
  lowStock f = true →
  truthy (locationId f) = false →
  truthy (categoryId f) = false →
  truthy (search f) = false →
  default 0%nat (offset f) = 0%nat →
  (size (inventory st) ≤ default 100%nat (limit f))%nat →
  (∃ rows, getInventory f st = (Resolved rows, st)
     ∧ ∀ p l q,
         (∃ e, e ∈ rows ∧ entry_product_id e = p ∧ entry_location_id e = l
               ∧ entry_quantity e = q)
         ↔ inventory st !! (p, l) = Some q
           ∧ is_Some (locations st !! l)
           ∧ ∃ prod m, products st !! p = Some prod ∧ is_active prod = true
                       ∧ minimum_stock prod = Some m ∧ q ≤ m)
  ∧ (∀ p l m prod,
       products st !! p = Some prod → is_active prod = true →
       minimum_stock prod = Some m → low_stock_pair st (p, l, m) = true)
  ∧ (∃ s, getInventorySummary st = (Resolved s, st)
       ∧ low_stock_count s
         = length (List.filter (low_stock_pair st) (map_to_list (inventory st)))).
Proof.
  intros Hlow Hloc Hcat Hsearch Hoff Hlim. split; [|split].
  - eexists. split; [reflexivity|]. intros p l q.
    rewrite Hoff, drop_0, take_ge; last first.
    { rewrite order_by_name_perm.
      etrans; [apply length_filter_le|]. etrans; [apply length_omap_le|].
      by rewrite length_map_to_list. }
    split.
    + intros (e & He & <- & <- & <-).
      rewrite order_by_name_perm in He.
      apply list_elem_of_In, filter_In in He as [He Hm].
      apply list_elem_of_In, list_elem_of_omap in He as ([[p l] q] & Hin & Hj).
      apply elem_of_map_to_list in Hin.
      apply join_entry_Some in Hj as (prod & loc & Hp & Hl & ->). simpl.
      rewrite entry_matches_low_stock_only in Hm by done. simpl in Hm.
      apply andb_prop in Hm as [Ha Hq].
      split; [done|]. split; [by eexists|].
      apply (low_stock_pair_spec st p l q).
      unfold low_stock_pair; simpl. by rewrite Hp, Ha, Hq.
    + intros (Hinv & [loc Hl] & Hspec).
      pose proof Hspec as (prod & m & Hp & Ha & Hm & Hq).
      apply (low_stock_pair_spec st p l q) in Hspec.
      unfold low_stock_pair in Hspec; simpl in Hspec. rewrite Hp in Hspec.
      eexists {| entry_product_id := p; entry_location_id := l;
                 entry_quantity := q; entry_product := prod;
                 entry_category := category_id prod ≫= (λ c, categories st !! c);
                 entry_location := loc |}.
      split; [|done].
      rewrite order_by_name_perm. apply list_elem_of_In, filter_In. split.
      * apply list_elem_of_In, list_elem_of_omap. exists (p, l, q). split.
        -- by apply elem_of_map_to_list.
        -- apply join_entry_Some. by exists prod, loc.
      * by rewrite entry_matches_low_stock_only.
  - intros p l m prod Hp Ha Hm. apply low_stock_pair_spec.
    exists prod, m. repeat split; try done; lia.
  - eexists. split; [reflexivity|]. simpl. apply low_stock_count_eq.
Qed.

(** ** The theorems at work on the worked stores *)

(** C3 at work: the session has checked 5 and 3 units into a record of 12;
    cancelling it takes the record from 20 back to 12 and leaves the session
    cancelled. *)
Lemma cancelSession_reverses_session_witness :
  inventory during_check_in !! ("prod-1", "loc-1") = Some 20
  ∧ ∃ st', cancelSession "sess-s1" "usr-1" during_check_in
           = (Resolved (Some (set_status "cancelled" the_check_in_session)), st')
      ∧ (status <$> sessions st' !! "sess-s1") = Some "cancelled"
      ∧ inventory st' !! ("prod-1", "loc-1") = Some 12.
Proof.
  split; [vm_compute; reflexivity|].
  destruct (cancelSession_reverses_session "sess-s1" "usr-1" during_check_in
              the_check_in_session)
    as (st' & E & Hs & Hq).
  - vm_compute; reflexivity.
  - reflexivity.
  - vm_compute. repeat constructor; eexists; reflexivity.
  - exists st'. split; [exact E|]. split; [exact Hs|].
    rewrite Hq. vm_compute; reflexivity.
Defined.

(** C4 at work: the session of the working day is completed; completing it
    again is rejected and changes nothing, and cancelling it leaves its row
    as it is. *)
Lemma terminal_sessions_are_final_witness :
  sessions after_working_day !! "sess-s1" = Some the_completed_session
  ∧ status the_completed_session ≠ "in_progress"
  ∧ (∃ e, completeSession "sess-s1" "usr-2" after_working_day
          = (Rejected e, after_working_day) ∧ InvalidState e)
  ∧ sessions (run (CancelSession "sess-s1" "usr-2") after_working_day).2 !! "sess-s1"
    = Some the_completed_session.
Proof.
  assert (H1 : sessions after_working_day !! "sess-s1" = Some the_completed_session)
    by (vm_compute; reflexivity).
  assert (H2 : status the_completed_session ≠ "in_progress") by (simpl; discriminate).
  destruct (terminal_sessions_are_final after_working_day "sess-s1"
              the_completed_session H1 H2) as (Hc & _ & _ & Hop).
  split; [exact H1|]. split; [exact H2|]. split; [apply Hc|apply Hop].
Defined.

(** C8 at work: the record at its minimum is listed and counted, the one
    above it is not. *)
Lemma low_stock_query_selects_active_pairs_witness :
  (∃ rows, getInventory low_stock_only a_stocked_store = (Resolved rows, a_stocked_store)
     ∧ (∃ e, e ∈ rows ∧ entry_product_id e = "prod-1" ∧ entry_location_id e = "loc-1"
             ∧ entry_quantity e = 5)
     ∧ ¬ (∃ e, e ∈ rows ∧ entry_product_id e = "prod-2" ∧ entry_location_id e = "loc-1"
               ∧ entry_quantity e = 24))
  ∧ ∃ s, getInventorySummary a_stocked_store = (Resolved s, a_stocked_store)
      ∧ low_stock_count s = 1%nat.
Proof.
  destruct (low_stock_query_selects_active_pairs low_stock_only a_stocked_store)
    as ((rows & E & Hrows) & _ & (s & Es & Hs));
    [reflexivity|reflexivity|reflexivity|reflexivity|reflexivity|vm_compute; lia|].
  split.
  - exists rows. split; [exact E|]. split.
    + apply Hrows. split; [vm_compute; reflexivity|]. split; [by eexists|].
      exists a_product, 5. repeat split; try reflexivity; lia.
    + intros (_ & _ & (prod & m & Hp & _ & Hm & Hq))%Hrows.
      vm_compute in Hp. injection Hp as <-. simpl in Hm. injection Hm as <-. lia.
  - exists s. split; [exact Es|]. rewrite Hs. vm_compute; reflexivity.
Defined.

(** C9 at work: a second product with barcode CAB123456 is refused, two
    products without a barcode are created. *)
Lemma barcode_unique_among_non_null_witness :
  (∃ e, createProduct "2" same_barcode "usr-1" a_catalogue = (Rejected e, a_catalogue)
        ∧ DuplicateKey e)
  ∧ ∃ r st', (createProduct "2" (no_barcode "Keg") "usr-1" ;;;
              createProduct "3" (no_barcode "Crate") "usr-1") a_catalogue
             = (Resolved r, st')
      ∧ products st' !! generateId "prod-" "2" = Some (inserted_product (no_barcode "Keg"))
      ∧ products st' !! generateId "prod-" "3" = Some (inserted_product (no_barcode "Crate"))
      ∧ barcode (inserted_product (no_barcode "Keg")) = None
      ∧ barcode (inserted_product (no_barcode "Crate")) = None.
Proof.
  destruct (barcode_unique_among_non_null "usr-1" a_catalogue) as [Hdup Hnull].
  split.
  - apply (Hdup "2" same_barcode "CAB123456" "prod-1" a_product);
      [reflexivity|vm_compute; reflexivity|reflexivity].
  - apply Hnull; [reflexivity|reflexivity|vm_compute; reflexivity
                 |vm_compute; reflexivity|discriminate].
Defined.

(** The cancellation path breaks non-negativity as well: the reversal
    subtracts the 5 units that have already left, and the record ends at
    -5. *)
Lemma cancellation_can_go_negative :
  let r := run_all a_cancelled_check_in empty_db in
  r.1 = Resolved tt ∧ inventory r.2 !! ("prod-1", "loc-1") = Some (-5).
Proof. vm_compute. done. Qed.

(** The transfer path logs its rejected movement the same way. *)
Lemma rejected_transfer_is_logged :
  let r := createInventoryTransaction "u1"
             (movement "transfer" (Some "loc-1") (Some "loc-2") 15) "usr-1" None
             ten_in_stock in
  r.1 = Rejected (JsError "Insufficient quantity available for transfer")
  ∧ inventory r.2 = inventory ten_in_stock
  ∧ length (inventory_transactions r.2) = 1%nat.
Proof. vm_compute. done. Qed.

Example like_substring : like "Cabernet Sauvignon" "%SAUV%" = true.
Proof. reflexivity. Qed.

Example like_one_character : like "abc" "%b_" = true ∧ like "abc" "%b" = false.
Proof. split; reflexivity. Qed.

Example adjustment_note :
  (inventory_transactions
     (updateInventoryQuantity "u1" "prod-1" "loc-1" 4 "usr-1" ten_in_stock).2)
  = [new_row "u1"
       {| transaction_type := "adjustment"; product_id := "prod-1";
          source_location_id := Some "loc-1"; destination_location_id := None;
          quantity := 6; batch_number := None; expiration_date := None;
          notes := Some "Manual quantity adjustment from 10 to 4" |}
       "usr-1" None].
Proof. vm_compute. reflexivity. Qed.

(** * Further properties of the service layer *)

(** ** The movements, record by record *)

Lemma alter_as_insert (f : Z → Z) (k : string * string) (a : Z)
    (m : gmap (string * string) Z) :
  m !! k = Some a → alter f k m = <[k := f a]> m.
Proof.
  intros H. apply map_eq. intros k'. rewrite lookup_alter, lookup_insert.
  case_decide; subst; by rewrite ?H.
Qed.

Lemma with_inventory_ext f g st :
  f (inventory st) = g (inventory st) → with_inventory f st = with_inventory g st.
Proof. unfold with_inventory. by intros ->. Qed.

Lemma checkin_store p l q st :
  updateInventoryForCheckIn p l q st
  = (Resolved tt, with_inventory (<[(p, l) := quantity_at st p l + q]>) st).
Proof.
  unfold updateInventoryForCheckIn, quantity_at. step.
  destruct (inventory st !! (p, l)) as [a|] eqn:E; simpl; rewrite ?E; simpl.
  - f_equal. apply with_inventory_ext.
    exact (alter_as_insert (λ x, x + q) _ a _ E).
  - done.
Qed.

Lemma checkout_store p l q st a :
  inventory st !! (p, l) = Some a → q ≤ a →
  updateInventoryForCheckOut p l q st
  = (Resolved tt, with_inventory (<[(p, l) := a - q]>) st).
Proof.
  intros E Hq. unfold updateInventoryForCheckOut. step. rewrite E.
  destruct (Z.ltb_spec a q); [lia|]. simpl.
  f_equal. apply with_inventory_ext.
  by rewrite (alter_as_insert (λ x, x + - q) _ a _ E).
Qed.

Lemma createInventoryTransaction_check_in uuid td u s st d :
  transaction_type td = "check_in" →
  destination_location_id td = Some d → d ≠ "" →
  id_taken (generateId "trx-" uuid) st = false →
  ∃ r, createInventoryTransaction uuid td u s st
       = (Resolved r,
          with_inventory (<[(product_id td, d) := quantity_at st (product_id td) d + quantity td]>)
            (with_transactions (λ rows, (rows ++ [new_row uuid td u s])%list) st)).
Proof.
  intros Hty Hd Hne Hid. unfold createInventoryTransaction.
  fold (new_row uuid td u s).
  assert (transaction_type_accepted (transaction_type td) = true) as Hacc
    by (by rewrite Hty).
  rewrite (bind_resolved _ _ _ _ _
             (insert_transaction_fresh (new_row uuid td u s) st Hacc Hid)).
  unfold update_inventory_for. rewrite Hty, Hd. simpl.
  destruct (String.eqb_spec d "") as [|_]; [done|]. simpl.
  rewrite (bind_resolved _ _ _ _ _ (checkin_store _ _ _ _)).
  step. by eexists.
Qed.

Lemma createInventoryTransaction_check_out uuid td u s st l :
  transaction_type td = "check_out" →
  source_location_id td = Some l → l ≠ "" →
  id_taken (generateId "trx-" uuid) st = false →
  let logged := with_transactions (λ rows, (rows ++ [new_row uuid td u s])%list) st in
  match inventory st !! (product_id td, l) with
  | None =>
      createInventoryTransaction uuid td u s st
      = (Rejected (JsError "Product not found in this location"), logged)
  | Some a =>
      if a <? quantity td
      then createInventoryTransaction uuid td u s st
           = (Rejected (JsError "Insufficient quantity available"), logged)
      else ∃ r, createInventoryTransaction uuid td u s st
           = (Resolved r,
              with_inventory (<[(product_id td, l) := a - quantity td]>) logged)
  end.
Proof.
  intros Hty Hs Hne Hid logged. unfold createInventoryTransaction.
  fold (new_row uuid td u s).
  assert (transaction_type_accepted (transaction_type td) = true) as Hacc
    by (by rewrite Hty).
  rewrite (bind_resolved _ _ _ _ _
             (insert_transaction_fresh (new_row uuid td u s) st Hacc Hid)).
  fold logged.
  unfold update_inventory_for. rewrite Hty, Hs. simpl.
  destruct (String.eqb_spec l "") as [|_]; [done|]. simpl.
  pose proof (checkout_cases (product_id td) l (quantity td) logged) as Hc.
  simpl in Hc.
  destruct (inventory st !! (product_id td, l)) as [a|] eqn:E.
  - destruct (Z.ltb_spec a (quantity td)) as [Hlt|Hle].
    + by rewrite (bind_rejected _ _ _ _ _ Hc).
    + rewrite (bind_resolved _ _ _ _ _
                 (checkout_store (product_id td) l (quantity td) logged a E Hle)).
      step. by eexists.
  - by rewrite (bind_rejected _ _ _ _ _ Hc).
Qed.

Lemma transfer_store p src dst q st a :
  inventory st !! (p, src) = Some a → q ≤ a →
  updateInventoryForTransfer p src dst q st
  = (Resolved tt,
     let st1 := with_inventory (<[(p, src) := a - q]>) st in
     with_inventory (<[(p, dst) := quantity_at st1 p dst + q]>) st1).
Proof.
  intros E Hq. unfold updateInventoryForTransfer.
  rewrite (bind_resolved (fetch_inventory p src) _ st (inventory st !! (p, src)) st eq_refl).
  rewrite E. destruct (Z.ltb_spec a q); [lia|].
  assert (update_quantity_by (- q) p src st
          = (Resolved tt, with_inventory (<[(p, src) := a - q]>) st)) as Hu.
  { unfold update_quantity_by, modify. f_equal. apply with_inventory_ext.
    exact (alter_as_insert (λ x, x + - q) _ a _ E). }
  rewrite (bind_resolved _ _ _ _ _ Hu).
  exact (checkin_store p dst q _).
Qed.

Lemma createInventoryTransaction_transfer uuid td u s st src dst a :
  transaction_type td = "transfer" →
  source_location_id td = Some src → src ≠ "" →
  destination_location_id td = Some dst → dst ≠ "" →
  id_taken (generateId "trx-" uuid) st = false →
  inventory st !! (product_id td, src) = Some a → quantity td ≤ a →
  ∃ r, createInventoryTransaction uuid td u s st
       = (Resolved r,
          let logged := with_transactions (λ rows, (rows ++ [new_row uuid td u s])%list) st in
          let st1 := with_inventory (<[(product_id td, src) := a - quantity td]>) logged in
          with_inventory (<[(product_id td, dst)
                            := quantity_at st1 (product_id td) dst + quantity td]>) st1).
Proof.
  intros Hty Hs Hsne Hd Hdne Hid E Hq. unfold createInventoryTransaction.
  fold (new_row uuid td u s).
  assert (transaction_type_accepted (transaction_type td) = true) as Hacc
    by (by rewrite Hty).
  rewrite (bind_resolved _ _ _ _ _
             (insert_transaction_fresh (new_row uuid td u s) st Hacc Hid)).
  unfold update_inventory_for. rewrite Hty, Hs, Hd. simpl.
  destruct (String.eqb_spec src "") as [|_]; [done|].
  destruct (String.eqb_spec dst "") as [|_]; [done|]. simpl.
  rewrite (bind_resolved _ _ _ _ _
             (transfer_store (product_id td) src dst (quantity td)
                (with_transactions (λ rows, (rows ++ [new_row uuid td u s])%list) st)
                a E Hq)).
  step. by eexists.
Qed.

(** The inventory table after a call that resolves. *)
Lemma resolved_movement_store uuid td u s st r st' :
  createInventoryTransaction uuid td u s st = (Resolved r, st') →
  products st' = products st
  ∧ inventory st' = moved_inventory td (inventory st).
Proof.
  intros E.
  destruct (createInventoryTransaction_resolved _ _ _ _ _ _ _ E) as (Hacc & Hid & _).
  unfold createInventoryTransaction in E. fold (new_row uuid td u s) in E.
  rewrite (bind_resolved _ _ _ _ _
             (insert_transaction_fresh (new_row uuid td u s) st Hacc Hid)) in E.
  set (logged := with_transactions _ st) in E.
  apply bind_inv in E as [([] & st1 & E1 & E) | (? & _ & ?)]; [|done].
  assert (st' = st1) as -> by (step_in E; congruence). clear E.
  unfold update_inventory_for in E1. unfold moved_inventory.
  destruct (String.eqb (transaction_type td) "check_in"
            && truthy (destination_location_id td)).
  { rewrite checkin_store in E1. by injection E1 as <-. }
  destruct (String.eqb (transaction_type td) "check_out"
            && truthy (source_location_id td)).
  { pose proof (checkout_cases (product_id td) (val (source_location_id td))
                  (quantity td) logged) as Hc.
    destruct (inventory logged !! _) as [a|] eqn:Ea; [|congruence].
    destruct (Z.ltb_spec a (quantity td)) as [|Hle]; [congruence|].
    rewrite (checkout_store _ _ _ _ a Ea Hle) in E1. injection E1 as <-.
    simpl in *. by rewrite Ea. }
  destruct (String.eqb (transaction_type td) "transfer"
            && truthy (source_location_id td) && truthy (destination_location_id td)).
  { pose proof (transfer_cases (product_id td) (val (source_location_id td))
                  (val (destination_location_id td)) (quantity td) logged) as Hc.
    destruct (inventory logged !! _) as [a|] eqn:Ea; [|congruence].
    destruct (Z.ltb_spec a (quantity td)) as [|Hle]; [congruence|].
    rewrite (transfer_store _ _ _ _ _ a Ea Hle) in E1. injection E1 as <-.
    simpl in *. by rewrite Ea. }
  unfold ret in E1. by injection E1 as <-.
Qed.

(** X1: what a check-in into a destination does.  When the call resolves,
    the record of (product, destination) holds its former quantity plus the
    checked-in quantity, or that quantity alone when the pair had no record,
    every other record is as before, and exactly one row has been appended
    to the ledger.  A check-in is never rejected by a test of the code (no
    "not found", no "insufficient"): only the store can refuse it, and then
    no quantity has changed. *)
Theorem check_in_adds_at_destination
    (uuid : string) (td : transaction_data) (u : string) (s : option string)
    (st : db) (d : string) (c : completion (option transaction)) (st' : db) :
  transaction_type td = "check_in" →
  destination_location_id td = Some d → d ≠ "" →
  createInventoryTransaction uuid td u s st = (c, st') →
  match c with
  | Resolved _ =>
      inventory st' !! (product_id td, d)
      = Some (default 0 (inventory st !! (product_id td, d)) + quantity td)
      ∧ (∀ k, k ≠ (product_id td, d) → inventory st' !! k = inventory st !! k)
      ∧ inventory_transactions st'
        = (inventory_transactions st ++ [new_row uuid td u s])%list
  | Rejected e =>
      ¬ NotFound e ∧ ¬ InsufficientStock e ∧ inventory st' = inventory st
  end.
Proof.
  intros Hty Hd Hne E. destruct c as [r|e].
  - destruct (createInventoryTransaction_resolved _ _ _ _ _ _ _ E)
      as (_ & Hid & _ & _ & _ & _ & Hl & _).
    destruct (createInventoryTransaction_check_in uuid td u s st d Hty Hd Hne Hid)
      as [r' E'].
    rewrite E in E'. injection E' as _ ->. simpl.
    split; [by rewrite lookup_insert_eq|]. split; [|done].
    intros k Hk. by rewrite lookup_insert_ne.
  - destruct (createInventoryTransaction_rejected _ _ _ _ _ _ _ E)
      as [[[column ->] ->]|[_ (l & _ & _ & H)]].
    + destruct (store_refusal_is_no_test column). done.
    + exfalso. rewrite Hty in H.
      destruct (inventory st !! (product_id td, l));
        [destruct H as [_ H]|]; destruct H as [[? _]|[? _]]; discriminate.
Qed.

(** X2: the outcomes of a check-out from a source.  When the call resolves,
    the pair had a record that held the quantity, and it now holds the
    difference, which is not negative.  When it is rejected, no quantity has
    changed; a "not found" rejection means that the pair had no record, an
    "insufficient" one that its record held less than the quantity, and in
    both the row of the rejected movement has been logged. *)
Theorem check_out_outcomes
    (uuid : string) (td : transaction_data) (u : string) (s : option string)
    (st : db) (l : string) (c : completion (option transaction)) (st' : db) :
  transaction_type td = "check_out" →
  source_location_id td = Some l → l ≠ "" →
  createInventoryTransaction uuid td u s st = (c, st') →
  match c with
  | Resolved _ =>
      ∃ a, inventory st !! (product_id td, l) = Some a
           ∧ quantity td ≤ a
           ∧ inventory st' = <[(product_id td, l) := a - quantity td]> (inventory st)
  | Rejected e =>
      inventory st' = inventory st
      ∧ (NotFound e → inventory st !! (product_id td, l) = None)
      ∧ (InsufficientStock e →
         ∃ a, inventory st !! (product_id td, l) = Some a ∧ a < quantity td)
      ∧ (NotFound e ∨ InsufficientStock e →
         inventory_transactions st'
         = (inventory_transactions st ++ [new_row uuid td u s])%list)
  end.
Proof.
  intros Hty Hs Hne E. destruct c as [r|e].
  - destruct (createInventoryTransaction_resolved _ _ _ _ _ _ _ E)
      as (_ & Hid & _).
    pose proof (createInventoryTransaction_check_out uuid td u s st l Hty Hs Hne Hid) as H.
    simpl in H.
    destruct (inventory st !! (product_id td, l)) as [a|]; [|congruence].
    destruct (Z.ltb_spec a (quantity td)) as [|Hle]; [congruence|].
    destruct H as [r' E']. rewrite E in E'. injection E' as _ ->.
    by exists a.
  - destruct (createInventoryTransaction_rejected _ _ _ _ _ _ _ E)
      as [[[column ->] ->]|[-> (l' & Hs' & _ & H)]].
    + destruct (store_refusal_is_no_test column) as [H1 H2].
      split; [done|]. split; [done|]. split; [done|]. by intros [?|?].
    + rewrite Hs in Hs'. injection Hs' as <-. rewrite Hty in H.
      split; [done|].
      destruct (inventory st !! (product_id td, l)) as [a|].
      * destruct H as [Hlt [[_ ->]|[? _]]]; [|discriminate].
        split; [intros [H|[H|[H|H]]]; discriminate|].
        split; [by exists a|done].
      * destruct H as [[_ ->]|[? _]]; [|discriminate].
        split; [done|]. split; [intros [H|H]; discriminate|done].
Qed.

(** X3: a transfer that resolves moves the quantity and conserves it: with
    distinct locations the source record loses the quantity, the destination
    record (0 when absent) gains it, and their sum is as before; with the
    same location on both sides the record ends where it started; every other
    record is untouched. *)
Theorem transfer_conserves_stock
    (uuid : string) (td : transaction_data) (u : string) (s : option string)
    (st st' : db) (src dst : string) (r : option transaction) :
  transaction_type td = "transfer" →
  source_location_id td = Some src → src ≠ "" →
  destination_location_id td = Some dst → dst ≠ "" →
  createInventoryTransaction uuid td u s st = (Resolved r, st') →
  let p := product_id td in
  (src ≠ dst →
     quantity_at st' p src = quantity_at st p src - quantity td
     ∧ quantity_at st' p dst = quantity_at st p dst + quantity td
     ∧ quantity_at st' p src + quantity_at st' p dst
       = quantity_at st p src + quantity_at st p dst)
  ∧ (src = dst → quantity_at st' p src = quantity_at st p src)
  ∧ (∀ p' l', (p', l') ≠ (p, src) → (p', l') ≠ (p, dst) →
       quantity_at st' p' l' = quantity_at st p' l').
Proof.
  intros Hty Hs Hsne Hd Hdne E p.
  destruct (createInventoryTransaction_resolved _ _ _ _ _ _ _ E)
    as (_ & _ & _ & _ & _ & _ & _ & Hq).
  assert (∀ p' l', movement_effect td p' l'
            = at_pair p dst p' l' (quantity td) - at_pair p src p' l' (quantity td)) as Hm.
  { intros p' l'. unfold movement_effect. rewrite Hty, Hs, Hd. simpl.
    destruct (String.eqb_spec src "") as [|_]; [done|].
    destruct (String.eqb_spec dst "") as [|_]; [done|]. simpl.
    unfold at_pair, at_location. fold p.
    destruct (String.eqb_spec p p') as [->|Hp]; simpl;
      repeat case_bool_decide; simplify_eq; done. }
  split; [|split].
  - intros Hne. rewrite !Hq, !Hm. unfold at_pair.
    repeat case_bool_decide; simplify_eq; lia.
  - intros <-. rewrite Hq, Hm. lia.
  - intros p' l' H1 H2. rewrite Hq, Hm. unfold at_pair.
    repeat case_bool_decide; simplify_eq; lia.
Qed.


(** ** What every operation keeps *)

Global Instance records_kept_preorder : PreOrder records_kept.
Proof. split; unfold records_kept; [by intros ?|]. intros ??? H1 H2 k Hk. auto. Qed.

Global Instance ledger_extended_preorder : PreOrder ledger_extended.
Proof.
  split; unfold ledger_extended; [by intros ?|]. intros ??? H1 H2. by etrans.
Qed.

Global Instance preserved_preorder (I : db → Prop) : PreOrder (preserved I).
Proof. split; unfold preserved; [by intros ?|]. intros ??? H1 H2. auto. Qed.

(** As [solve_keeps], with a tactic [known] for the computations that have
    a lemma of their own and a tactic [leaf] for the writes (both thunks). *)
Ltac keeps_with known leaf :=
  repeat first
    [ known ()
    | lazymatch goal with
      | |- keeps _ (bind _ _) => apply keeps_bind; [apply _| |intros ?]
      | |- keeps _ (ret _) => apply keeps_ret; apply _
      | |- keeps _ (throw _) => apply keeps_throw; apply _
      | |- keeps _ get => apply keeps_get; apply _
      | |- keeps _ (modify _) => apply keeps_modify; intros ?; leaf ()
      | |- keeps _ (for_of _ _) => apply keeps_for_of; [apply _|intros ?]
      | |- keeps _ (match ?x with _ => _ end) => destruct x
      | |- keeps _ (let _ := _ in _) => cbv zeta
      | |- keeps _ ?m => let h := head_of m in unfold h
      end ].

Ltac records_leaf :=
  intros k; simpl; rewrite ?lookup_alter, ?lookup_insert;
  repeat case_decide; subst; rewrite ?fmap_is_Some; eauto.

Lemma run_keeps_records op : keeps records_kept (run op).
Proof. destruct op; keeps_with ltac:(fun _ => fail) ltac:(fun _ => records_leaf). Qed.

Lemma updateProduct_keeps {X} (proj : db → X) id upd :
  (∀ f st, proj (with_products f st) = proj st) →
  keeps (unchanged proj) (updateProduct id upd).
Proof. intros H. unfold unchanged. solve_keeps. Qed.

Ltac ledger_leaf :=
  unfold ledger_extended; simpl; first [reflexivity | by apply prefix_app_r].

Lemma run_keeps_ledger op : keeps ledger_extended (run op).
Proof. destruct op; keeps_with ltac:(fun _ => fail) ltac:(fun _ => ledger_leaf). Qed.

(** X5: no operation of the service layer deletes an inventory record,
    whatever its outcome: a pair that has a record keeps one through
    every request sequence (quantities change, records stay), and
    [updateProduct] touches none. *)
Theorem inventory_records_are_never_deleted (ops : list operation) (st : db) :
  (∀ k, is_Some (inventory st !! k) → is_Some (inventory (run_all ops st).2 !! k))
  ∧ ∀ id upd, inventory (updateProduct id upd st).2 = inventory st.
Proof.
  split.
  - apply (keeps_for_of records_kept ops run run_keeps_records st).
  - intros id upd. exact (updateProduct_keeps inventory id upd (λ _ _, eq_refl) st).
Qed.

(** X6: the ledger is append-only: after every request sequence, whatever
    the outcome of each request, the rows that were in the ledger are its
    first rows, unchanged and in the same order; a cancelled session or a
    rejected request rewrites none of them. *)
Theorem ledger_is_append_only (ops : list operation) (st : db) :
  inventory_transactions st `prefix_of` inventory_transactions (run_all ops st).2.
Proof. apply (keeps_for_of ledger_extended ops run run_keeps_ledger st). Qed.

Lemma id_taken_elem_of id st :
  id_taken id st = false → id ∉ trx_id <$> inventory_transactions st.
Proof.
  unfold id_taken. intros H (t & -> & Ht)%list_elem_of_fmap.
  apply list_elem_of_In in Ht.
  assert (existsb (λ t0, String.eqb (trx_id t0) (trx_id t)) (inventory_transactions st)
          = true) as Hex.
  { apply existsb_exists. exists t. split; [done|]. apply String.eqb_refl. }
  congruence.
Qed.

Lemma insert_transaction_keeps_ids row :
  keeps (preserved ledger_ids_unique) (insert_transaction row).
Proof.
  intros st. unfold preserved, ledger_ids_unique.
  destruct (transaction_type_accepted (transaction_type (trx_data row))) eqn:Hty;
    [|by rewrite insert_transaction_unlisted].
  destruct (id_taken (trx_id row) st) eqn:Hid.
  - by rewrite insert_transaction_taken.
  - rewrite insert_transaction_fresh by done. simpl. intros Hnd.
    rewrite fmap_app. apply NoDup_app. split; [done|]. split.
    + intros id Hin [->|[]%elem_of_nil]%elem_of_cons.
      by apply (id_taken_elem_of _ _ Hid).
    + apply NoDup_singleton.
Qed.

Ltac known_insert_transaction :=
  lazymatch goal with
  | |- keeps (preserved ledger_ids_unique) (insert_transaction _) =>
      apply insert_transaction_keeps_ids
  end.

Lemma run_keeps_ledger_ids op : keeps (preserved ledger_ids_unique) (run op).
Proof. destruct op; keeps_with ltac:(fun _ => known_insert_transaction) ltac:(fun _ => by intros ?). Qed.

(** X7: the ids of the ledger rows stay pairwise distinct through every
    request sequence: an INSERT under an id that is taken is refused, and
    nothing else writes an id. *)
Theorem ledger_ids_stay_unique (ops : list operation) (st : db) :
  NoDup (trx_id <$> inventory_transactions st) →
  NoDup (trx_id <$> inventory_transactions (run_all ops st).2).
Proof.
  apply (keeps_for_of (preserved ledger_ids_unique) ops run run_keeps_ledger_ids st).
Qed.

(** *** Non-negative quantities *)

Lemma non_negative_insert k q st :
  0 ≤ q → quantities_non_negative st →
  quantities_non_negative (with_inventory (<[k := q]>) st).
Proof.
  intros Hq H k' q'. simpl. rewrite lookup_insert.
  case_decide; [intros [= <-]; done | apply H].
Qed.

Lemma checkin_keeps_non_negative p l q :
  0 ≤ q → keeps (preserved quantities_non_negative) (updateInventoryForCheckIn p l q).
Proof.
  intros Hq st H. rewrite checkin_store. simpl.
  apply non_negative_insert; [|done].
  unfold quantity_at. destruct (inventory st !! (p, l)) as [a|] eqn:E; simpl; [|lia].
  specialize (H _ _ E). lia.
Qed.

Lemma checkout_keeps_non_negative p l q :
  keeps (preserved quantities_non_negative) (updateInventoryForCheckOut p l q).
Proof.
  intros st H. pose proof (checkout_cases p l q st) as Hc.
  destruct (inventory st !! (p, l)) as [a|] eqn:E.
  - destruct (Z.ltb_spec a q) as [Hlt|Hle].
    + by rewrite Hc.
    + rewrite (checkout_store p l q st a E Hle). simpl.
      apply non_negative_insert; [lia|done].
  - by rewrite Hc.
Qed.

Lemma transfer_keeps_non_negative p src dst q :
  0 ≤ q → keeps (preserved quantities_non_negative) (updateInventoryForTransfer p src dst q).
Proof.
  intros Hq st H. pose proof (transfer_cases p src dst q st) as Hc.
  destruct (inventory st !! (p, src)) as [a|] eqn:E.
  - destruct (Z.ltb_spec a q) as [Hlt|Hle].
    + by rewrite Hc.
    + rewrite (transfer_store p src dst q st a E Hle). simpl.
      assert (quantities_non_negative (with_inventory (<[(p, src) := a - q]>) st)) as H1
        by (apply non_negative_insert; [lia|done]).
      apply non_negative_insert; [|done].
      unfold quantity_at.
      destruct (inventory (with_inventory (<[(p, src) := a - q]>) st) !! (p, dst))
        as [b|] eqn:Eb; simpl; [|lia].
      specialize (H1 _ _ Eb). lia.
  - by rewrite Hc.
Qed.

Lemma update_inventory_for_keeps_non_negative td :
  0 ≤ quantity td →
  keeps (preserved quantities_non_negative) (update_inventory_for td).
Proof.
  intros Hq. unfold update_inventory_for.
  destruct (_ && _); [by apply checkin_keeps_non_negative|].
  destruct (_ && _); [apply checkout_keeps_non_negative|].
  destruct (_ && _); [by apply transfer_keeps_non_negative|].
  apply keeps_ret. apply _.
Qed.

Ltac known_non_negative :=
  lazymatch goal with
  | |- keeps (preserved quantities_non_negative) (update_inventory_for _) =>
      apply update_inventory_for_keeps_non_negative; simpl;
      first [assumption | by destruct (_ <? _) | lia]
  end.

Ltac non_negative_leaf :=
  first [ by intros ?
        | intros Hnn k' q'; simpl; rewrite ?lookup_alter, ?lookup_insert;
          repeat case_decide; subst;
          [ destruct (inventory _ !! _); simpl; intros [= <-]; assumption
          | apply Hnn ]
        | intros Hnn; apply non_negative_insert; [assumption|exact Hnn] ].

Lemma run_keeps_non_negative op :
  non_negative_operation op → keeps (preserved quantities_non_negative) (run op).
Proof.
  destruct op; simpl; intros Hop; try done;
    keeps_with ltac:(fun _ => known_non_negative) ltac:(fun _ => non_negative_leaf).
Qed.

Lemma keeps_for_of_Forall {A} (R : db → db → Prop) `{!PreOrder R}
    (xs : list A) (body : A → M unit) :
  Forall (λ x, keeps R (body x)) xs → keeps R (for_of xs body).
Proof.
  induction 1 as [|x xs Hx _ IH]; simpl; [by apply keeps_ret|].
  by apply keeps_bind.
Qed.

(** X8: the movements themselves keep every record at or above zero.  When
    no record is negative, none is after a request sequence (whatever the
    outcome of each request) made of check-ins, check-outs, transfers,
    session movements and counts of non-negative quantities and of product
    and session bookkeeping, without a session cancellation: a check-out or
    a transfer only ever takes what the source holds. *)
Theorem quantities_stay_non_negative (ops : list operation) (st : db) :
  Forall non_negative_operation ops →
  quantities_non_negative st →
  quantities_non_negative (run_all ops st).2.
Proof.
  intros Hops.
  apply (keeps_for_of_Forall (preserved quantities_non_negative) ops run).
  eapply Forall_impl; [exact Hops|]. apply run_keeps_non_negative.
Qed.

(** *** Unique barcodes *)

Lemma fetch_product_by_barcode_None st b :
  fetch_product_by_barcode b st = (Resolved None, st) →
  ∀ id p, products st !! id = Some p → barcode p ≠ Some b.
Proof.
  intros H id p Hp Hb. step_in H.
  destruct (List.find _ _) as [kv|] eqn:E; [done|].
  apply find_none with (x := (id, p)) in E.
  - simpl in E. by rewrite bool_decide_true in E.
  - by apply list_elem_of_In, elem_of_map_to_list.
Qed.

Lemma fetch_product_by_barcode_state st b :
  (fetch_product_by_barcode b st).2 = st.
Proof. done. Qed.

Lemma barcodes_unique_insert id row st :
  products st !! id = None →
  (∀ b, barcode row = Some b → ∀ id' p, products st !! id' = Some p → barcode p ≠ Some b) →
  barcodes_unique st → barcodes_unique (with_products (<[id := row]>) st).
Proof.
  intros Hid Hfree Hu id1 id2 p1 p2 b. simpl. rewrite !lookup_insert.
  repeat case_decide; subst; intros H1 H2 Hb1 Hb2; simplify_eq; try done.
  - exfalso. by eapply Hfree.
  - exfalso. by eapply Hfree.
  - by eapply Hu.
Qed.

Lemma insert_product_keeps_barcodes id row :
  keeps (preserved barcodes_unique) (insert_product id row).
Proof.
  intros st Hu. unfold insert_product.
  rewrite (bind_resolved get _ st st st eq_refl).
  destruct (products st !! id) eqn:Hid; [done|].
  destruct (barcode row) as [b|] eqn:Hb.
  - destruct (fetch_product_by_barcode b st) as [[[taken|]|e] st1] eqn:Hf;
      pose proof (fetch_product_by_barcode_state st b) as Hst;
      rewrite Hf in Hst; simpl in Hst; subst st1.
    + by rewrite (bind_resolved _ _ _ _ _ Hf).
    + rewrite (bind_resolved _ _ _ _ _ Hf). simpl.
      apply barcodes_unique_insert; [done| |done].
      intros b' Hb'. rewrite Hb in Hb'. injection Hb' as <-.
      by apply fetch_product_by_barcode_None.
    + by rewrite (bind_rejected _ _ _ _ _ Hf).
  - simpl. apply barcodes_unique_insert; [done| |done]. by rewrite Hb.
Qed.

Lemma fetch_other_product_by_barcode_None st b id :
  fetch_other_product_by_barcode b id st = (Resolved None, st) →
  ∀ id' p, products st !! id' = Some p → barcode p = Some b → id' = id.
Proof.
  intros H id' p Hp Hb. unfold fetch_other_product_by_barcode in H. step_in H.
  destruct (List.find _ _) as [kv|] eqn:E; [done|].
  apply find_none with (x := (id', p)) in E.
  - simpl in E. rewrite bool_decide_true in E by done. simpl in E.
    apply negb_false_iff in E. by apply String.eqb_eq in E.
  - by apply list_elem_of_In, elem_of_map_to_list.
Qed.

Lemma barcodes_unique_alter id f st :
  (∀ p b, products st !! id = Some p → barcode (f p) = Some b →
     ∀ id' p', products st !! id' = Some p' → barcode p' = Some b → id' = id) →
  barcodes_unique st → barcodes_unique (with_products (alter f id) st).
Proof.
  intros Hf Hu id1 id2 p1 p2 b. simpl.
  destruct (decide (id1 = id)) as [->|H1], (decide (id2 = id)) as [->|H2];
    [done| | |].
  - rewrite lookup_alter_eq, lookup_alter_ne by done.
    destruct (products st !! id) as [p|] eqn:E; simpl; [|done].
    intros [= <-] Hp2 Hb1 Hb2. symmetry. by eapply (Hf p b).
  - rewrite lookup_alter_ne, lookup_alter_eq by done.
    destruct (products st !! id) as [p|] eqn:E; simpl; [|done].
    intros Hp1 [= <-] Hb1 Hb2. by eapply (Hf p b).
  - rewrite !lookup_alter_ne by done. apply Hu.
Qed.

Lemma update_product_row_keeps_barcodes id upd :
  keeps (preserved barcodes_unique) (update_product_row id upd).
Proof.
  intros st Hu. unfold update_product_row.
  destruct (set_barcode upd) as [[b|]|] eqn:Hb.
  - destruct (fetch_other_product_by_barcode b id st) as [[[taken|]|e] st1] eqn:Hf;
      assert (st1 = st)
        by (unfold fetch_other_product_by_barcode in Hf; step_in Hf; by inversion Hf);
      subst st1.
    + by rewrite (bind_resolved _ _ _ _ _ Hf).
    + rewrite (bind_resolved _ _ _ _ _ Hf). simpl.
      apply barcodes_unique_alter; [|done].
      intros p b' Hp. unfold apply_update; simpl. rewrite Hb. simpl.
      intros [= <-]. by apply fetch_other_product_by_barcode_None.
    + by rewrite (bind_rejected _ _ _ _ _ Hf).
  - simpl. apply barcodes_unique_alter; [|done].
    intros p b' Hp. unfold apply_update; simpl. by rewrite Hb.
  - simpl. apply barcodes_unique_alter; [|done].
    intros p b' Hp. unfold apply_update; simpl. rewrite Hb. simpl.
    intros Hpb id' p' Hp' Hb'. exact (Hu _ _ _ _ _ Hp' Hp Hb' Hpb).
Qed.

Ltac known_barcodes :=
  lazymatch goal with
  | |- keeps (preserved barcodes_unique) (insert_product _ _) =>
      apply insert_product_keeps_barcodes
  | |- keeps (preserved barcodes_unique) (update_product_row _ _) =>
      apply update_product_row_keeps_barcodes
  end.

Ltac barcodes_leaf :=
  first [ by intros ?
        | intros Hu; apply barcodes_unique_alter; [|exact Hu];
          intros ? ? Hp Hb ? ? Hp' Hb'; simpl in Hb;
          exact (Hu _ _ _ _ _ Hp' Hp Hb' Hb) ].

Lemma run_keeps_barcodes op : keeps (preserved barcodes_unique) (run op).
Proof.
  destruct op; keeps_with ltac:(fun _ => known_barcodes) ltac:(fun _ => barcodes_leaf).
Qed.

Lemma updateProduct_keeps_barcodes id upd :
  keeps (preserved barcodes_unique) (updateProduct id upd).
Proof. keeps_with ltac:(fun _ => known_barcodes) ltac:(fun _ => barcodes_leaf). Qed.

(** X9: the catalogue never comes to hold two products with the same
    non-null barcode: the property is kept by every request sequence and by
    [updateProduct], whatever the outcomes, and holds in the empty store. *)
Theorem barcodes_stay_unique (ops : list operation) (st : db) :
  barcodes_unique st →
  barcodes_unique (run_all ops st).2
  ∧ (∀ id upd, barcodes_unique (updateProduct id upd st).2)
  ∧ barcodes_unique empty_db.
Proof.
  intros Hu. split; [|split].
  - by apply (keeps_for_of (preserved barcodes_unique) ops run run_keeps_barcodes st).
  - intros id upd. by apply updateProduct_keeps_barcodes.
  - intros id1 id2 p1 p2 b H. simpl in H. by rewrite lookup_empty in H.
Qed.

(** ** Products *)

Lemma apply_no_update upd p : no_updates upd = true → apply_update upd p = p.
Proof.
  unfold no_updates. intros H.
  repeat (apply andb_prop in H as [H ?]).
  repeat match goal with
         | H : bool_decide _ = true |- _ => apply bool_decide_eq_true in H
         end.
  destruct p. unfold apply_update. simpl. by repeat match goal with H : _ = None |- _ => rewrite H; clear H end.
Qed.

Lemma fetch_other_product_by_barcode_found st b id id' p' :
  products st !! id' = Some p' → barcode p' = Some b → id' ≠ id →
  ∃ found, fetch_other_product_by_barcode b id st = (Resolved (Some found), st).
Proof.
  intros Hp Hb Hne. unfold fetch_other_product_by_barcode. step.
  destruct (List.find _ _) as [[id0 p0]|] eqn:E; simpl; [by eexists|].
  exfalso. apply find_none with (x := (id', p')) in E.
  - simpl in E. rewrite bool_decide_true in E by done. simpl in E.
    apply negb_false_iff, String.eqb_eq in E. done.
  - by apply list_elem_of_In, elem_of_map_to_list.
Qed.

Lemma fetch_other_product_by_barcode_free st b id :
  (∀ id' p', products st !! id' = Some p' → barcode p' = Some b → id' = id) →
  fetch_other_product_by_barcode b id st = (Resolved None, st).
Proof.
  intros Hfree. unfold fetch_other_product_by_barcode. step.
  destruct (List.find _ _) as [[id0 p0]|] eqn:E; simpl; [|done].
  exfalso. apply find_some in E as [Hin Hc]. simpl in Hc.
  apply andb_prop in Hc as [Hb Hne]. apply bool_decide_eq_true in Hb.
  apply list_elem_of_In, elem_of_map_to_list in Hin.
  specialize (Hfree _ _ Hin Hb). subst id0.
  by rewrite String.eqb_refl in Hne.
Qed.

Lemma bind_assoc {A B C} (m : M A) (k1 : A → M B) (k2 : B → M C) st :
  bind (bind m k1) k2 st = bind m (λ a, bind (k1 a) k2) st.
Proof. unfold bind. by destruct (m st) as [[a|e] st']. Qed.

Lemma bind_ret {A B} (a : A) (k : A → M B) st : bind (ret a) k st = k a st.
Proof. done. Qed.

Lemma bind_throw {A B} e (k : A → M B) st :
  bind (throw e) k st = (Rejected e, st).
Proof. done. Qed.

Lemma updateProduct_unknown id upd st :
  products st !! id = None →
  updateProduct id upd st = (Rejected (JsError "Product not found"), st).
Proof.
  intros Hid. unfold updateProduct.
  rewrite (bind_resolved (getProductById id) _ st (products st !! id) st eq_refl).
  by rewrite Hid.
Qed.

Lemma updateProduct_duplicate id upd st p b id' p' :
  products st !! id = Some p → set_barcode upd = Some (Some b) →
  products st !! id' = Some p' → id' ≠ id → barcode p' = Some b →
  ∃ e, updateProduct id upd st = (Rejected e, st) ∧ DuplicateKey e.
Proof.
  intros Hid Hset Hp' Hne Hb'.
  destruct (fetch_other_product_by_barcode_found st b id id' p' Hp' Hb' Hne)
    as [found Hf].
  unfold updateProduct.
  rewrite (bind_resolved (getProductById id) _ st (products st !! id) st eq_refl).
  rewrite Hid, Hset. simpl.
  destruct (negb (String.eqb b "") && negb (bool_decide (Some b = barcode p))) eqn:Hc.
  + rewrite bind_assoc, (bind_resolved _ _ _ _ _ Hf). simpl.
    rewrite bind_throw. eexists. split; [done|]. by left.
  + rewrite bind_ret.
    assert (no_updates upd = false) as ->.
    { unfold no_updates. rewrite Hset.
      rewrite (bool_decide_eq_false_2 (Some (Some b) = None)) by done.
      by rewrite !andb_false_r. }
    unfold update_product_row. rewrite Hset.
    rewrite bind_assoc, (bind_resolved _ _ _ _ _ Hf). simpl.
    rewrite bind_throw. eexists. split; [done|]. right. by eexists.
Qed.

Lemma updateProduct_free id upd st p :
  products st !! id = Some p →
  (∀ b id' p', set_barcode upd = Some (Some b) →
     products st !! id' = Some p' → barcode p' = Some b → id' = id) →
  updateProduct id upd st
  = (Resolved (Some (apply_update upd p)),
     with_products (<[id := apply_update upd p]>) st).
Proof.
  intros Hid Hfree. unfold updateProduct.
  rewrite (bind_resolved (getProductById id) _ st (products st !! id) st eq_refl).
  rewrite Hid. cbv zeta.
  assert (∀ st0 : db, st0 = st →
          (if truthy (mjoin (set_barcode upd))
              && negb (bool_decide (mjoin (set_barcode upd) = barcode p))
           then productWithBarcode <- fetch_other_product_by_barcode
                                        (val (mjoin (set_barcode upd))) id ;;
                match productWithBarcode with
                | Some _ => throw (JsError "Product with this barcode already exists")
                | None => ret tt
                end
           else ret tt) st0 = (Resolved tt, st)) as Hcheck.
  { intros st0 ->. destruct (_ && _) eqn:Hc; [|done].
    apply andb_prop in Hc as [Ht _].
    destruct (set_barcode upd) as [[b|]|] eqn:Hset; simpl in Ht; try done.
    simpl. rewrite (bind_resolved _ _ _ _ _
                      (fetch_other_product_by_barcode_free st b id
                         (λ id' p', Hfree b id' p' eq_refl))).
    done. }
  rewrite (bind_resolved _ _ _ _ _ (Hcheck st eq_refl)).
  destruct (no_updates upd) eqn:Hno.
  + rewrite (apply_no_update upd p Hno). unfold ret. f_equal.
    destruct st; unfold with_products; simpl in *. f_equal.
    symmetry. by apply insert_id.
  + assert (update_product_row id upd st
            = (Resolved tt, with_products (alter (apply_update upd) id) st)) as Hrow.
    { unfold update_product_row.
      destruct (set_barcode upd) as [[b|]|] eqn:Hset; try done.
      by rewrite (bind_resolved _ _ _ _ _
                    (fetch_other_product_by_barcode_free st b id
                       (λ id' p', Hfree b id' p' eq_refl))). }
    rewrite (bind_resolved _ _ _ _ _ Hrow).
    unfold getProductById, bind, get, ret; simpl.
    rewrite lookup_alter_eq, Hid. simpl. f_equal.
    unfold with_products. f_equal.
    apply map_eq. intros k. rewrite lookup_alter, lookup_insert.
    case_decide; subst; by rewrite ?Hid.
Qed.

(** Another product holds the barcode, or none does. *)
Lemma barcode_held_or_free st b id :
  (∃ id' p', products st !! id' = Some p' ∧ id' ≠ id ∧ barcode p' = Some b)
  ∨ (∀ id' p', products st !! id' = Some p' → barcode p' = Some b → id' = id).
Proof.
  destruct (fetch_other_product_by_barcode b id st) as [[o|e] st1] eqn:E.
  - unfold fetch_other_product_by_barcode in E. step_in E.
    destruct (List.find _ _) as [[id0 p0]|] eqn:Ef.
    + left. apply find_some in Ef as [Hin Hc]. simpl in Hc.
      apply andb_prop in Hc as [Hb Hne]. apply bool_decide_eq_true in Hb.
      apply list_elem_of_In, elem_of_map_to_list in Hin.
      exists id0, p0. repeat split; try done.
      intros ->. by rewrite String.eqb_refl in Hne.
    + right. intros id' p' Hp' Hb'.
      apply find_none with (x := (id', p')) in Ef.
      * simpl in Ef. rewrite bool_decide_true in Ef by done. simpl in Ef.
        apply negb_false_iff in Ef. by apply String.eqb_eq in Ef.
      * by apply list_elem_of_In, elem_of_map_to_list.
  - unfold fetch_other_product_by_barcode in E. by step_in E.
Qed.

(** X10: the outcomes of [updateProduct].  An unknown id is rejected
    ("Product not found") and so is a barcode that another product holds (a
    DuplicateKey error).  Whatever the reason of a rejection, the store is
    as it was.  When the call resolves, it returns the updated row and has
    written nothing else: the keys it was given are set, every other column
    of the product keeps its value (the product's own barcode may be given
    again), and no other product or table has changed. *)
Theorem updateProduct_outcomes (id : string) (upd : product_update) (st : db) :
  (products st !! id = None →
     updateProduct id upd st = (Rejected (JsError "Product not found"), st))
  ∧ (∀ p b id' p',
       products st !! id = Some p → set_barcode upd = Some (Some b) →
       products st !! id' = Some p' → id' ≠ id → barcode p' = Some b →
       ∃ e, updateProduct id upd st = (Rejected e, st) ∧ DuplicateKey e)
  ∧ (∀ e st', updateProduct id upd st = (Rejected e, st') → st' = st)
  ∧ (∀ r st', updateProduct id upd st = (Resolved r, st') →
       ∃ p, products st !! id = Some p
            ∧ r = Some (apply_update upd p)
            ∧ st' = with_products (<[id := apply_update upd p]>) st).
Proof.
  split; [apply updateProduct_unknown|]. split; [apply updateProduct_duplicate|].
  assert (∀ c st', updateProduct id upd st = (c, st') →
            match c with
            | Rejected _ => st' = st
            | Resolved r =>
                ∃ p, products st !! id = Some p
                     ∧ r = Some (apply_update upd p)
                     ∧ st' = with_products (<[id := apply_update upd p]>) st
            end) as Hcases.
  { intros c st' E.
    destruct (products st !! id) as [p|] eqn:Hid.
    - destruct (set_barcode upd) as [[b|]|] eqn:Hset.
      + destruct (barcode_held_or_free st b id) as [(id' & p' & Hp' & Hne & Hb')|Hfree].
        * destruct (updateProduct_duplicate id upd st p b id' p' Hid Hset Hp' Hne Hb')
            as (e & E' & _).
          rewrite E in E'. by injection E' as -> ->.
        * rewrite (updateProduct_free id upd st p Hid) in E.
          -- injection E as <- <-. by exists p.
          -- intros b0 id' p' Hb0. rewrite Hset in Hb0. injection Hb0 as <-.
             apply Hfree.
      + rewrite (updateProduct_free id upd st p Hid) in E by (intros; congruence).
        injection E as <- <-. by exists p.
      + rewrite (updateProduct_free id upd st p Hid) in E by (intros; congruence).
        injection E as <- <-. by exists p.
    - rewrite (updateProduct_unknown id upd st Hid) in E. by injection E as <- <-. }
  split.
  - intros e st' E. exact (Hcases _ _ E).
  - intros r st' E. exact (Hcases _ _ E).
Qed.

(** ** The inventory listing *)

Lemma getInventory_rows f st :
  getInventory f st
  = (Resolved (take (default 100%nat (limit f))
                 (drop (default 0%nat (offset f)) (inventory_rows f st))), st).
Proof. done. Qed.

Lemma inventory_rows_elem f st e :
  e ∈ inventory_rows f st ↔
  entry_matches f e = true
  ∧ ∃ prod loc,
      inventory st !! (entry_product_id e, entry_location_id e) = Some (entry_quantity e)
      ∧ products st !! entry_product_id e = Some prod
      ∧ locations st !! entry_location_id e = Some loc
      ∧ e = {| entry_product_id := entry_product_id e;
               entry_location_id := entry_location_id e;
               entry_quantity := entry_quantity e;
               entry_product := prod;
               entry_category := category_id prod ≫= (λ c, categories st !! c);
               entry_location := loc |}.
Proof.
  unfold inventory_rows. rewrite order_by_name_perm.
  rewrite list_elem_of_In, filter_In, <- list_elem_of_In, list_elem_of_omap.
  split.
  - intros [([[p l] q] & Hin & Hj) Hm]. split; [done|].
    apply elem_of_map_to_list in Hin.
    apply join_entry_Some in Hj as (prod & loc & Hp & Hl & ->). simpl.
    by exists prod, loc.
  - intros [Hm (prod & loc & Hi & Hp & Hl & He)]. split; [|done].
    exists (entry_product_id e, entry_location_id e, entry_quantity e). split.
    + by apply elem_of_map_to_list.
    + rewrite He at 4. apply join_entry_Some. by exists prod, loc.
Qed.

Lemma getInventory_elem f st e rows :
  getInventory f st = (Resolved rows, st) → e ∈ rows → e ∈ inventory_rows f st.
Proof.
  rewrite getInventory_rows. intros [= <-] He.
  eapply elem_of_sublist; [exact He|].
  etrans; [apply sublist_take|apply sublist_drop].
Qed.

Lemma insert_by_name_sorted e l :
  Sorted by_name l → Sorted by_name (insert_by_name e l).
Proof.
  induction 1 as [|e' l Hs IH Hhd]; simpl.
  - by repeat constructor.
  - destruct (String.leb _ _) eqn:Hle.
    + constructor; [by constructor|]. by constructor.
    + constructor; [done|].
      assert (by_name e' e) as He.
      { unfold by_name. destruct (String.leb_total (product_name (entry_product e))
                                    (product_name (entry_product e'))); congruence. }
      destruct l as [|e'' l]; simpl in *; [by constructor|].
      destruct (String.leb _ _); constructor; [done|].
      by apply HdRel_inv in Hhd.
Qed.

Lemma order_by_name_sorted l : Sorted by_name (order_by_name l).
Proof.
  unfold order_by_name. induction l; simpl; [constructor|].
  by apply insert_by_name_sorted.
Qed.

Lemma Sorted_drop {A} (R : A → A → Prop) n l : Sorted R l → Sorted R (drop n l).
Proof.
  revert l. induction n as [|n IH]; intros l H; [by rewrite drop_0|].
  destruct l; simpl; [done|]. apply IH. by apply Sorted_inv in H as [? _].
Qed.

Lemma Sorted_take {A} (R : A → A → Prop) n l : Sorted R l → Sorted R (take n l).
Proof.
  revert l. induction n as [|n IH]; intros l H; [constructor|].
  destruct l as [|x l]; simpl; [done|].
  apply Sorted_inv in H as [Hs Hhd]. constructor; [by apply IH|].
  destruct n, l; simpl; try constructor. by apply HdRel_inv in Hhd.
Qed.

(** X11: what [getInventory] returns.  Every row is the join of a stored
    record with its stored product and location and carries the record's
    quantity; its product is active; it satisfies the filters that were
    given (the location, the low-stock test); and the rows are in the order
    of their product names. *)
Theorem getInventory_rows_are_sound (f : inventory_filters) (st : db) :
  ∃ rows, getInventory f st = (Resolved rows, st)
    ∧ Sorted by_name rows
    ∧ ∀ e, e ∈ rows →
        inventory st !! (entry_product_id e, entry_location_id e)
        = Some (entry_quantity e)
        ∧ products st !! entry_product_id e = Some (entry_product e)
        ∧ locations st !! entry_location_id e = Some (entry_location e)
        ∧ is_active (entry_product e) = true
        ∧ (∀ l, locationId f = Some l → l ≠ "" → entry_location_id e = l)
        ∧ (lowStock f = true →
           ∃ m, minimum_stock (entry_product e) = Some m ∧ entry_quantity e ≤ m).
Proof.
  eexists. split; [apply getInventory_rows|]. split.
  - apply Sorted_take, Sorted_drop, order_by_name_sorted.
  - intros e He.
    assert (e ∈ inventory_rows f st) as Hin.
    { eapply elem_of_sublist; [exact He|].
      etrans; [apply sublist_take|apply sublist_drop]. }
    apply inventory_rows_elem in Hin as [Hm (prod & loc & Hi & Hp & Hl & Heq)].
    assert (entry_product e = prod) as <- by (by rewrite Heq).
    assert (entry_location e = loc) as <- by (by rewrite Heq).
    unfold entry_matches in Hm.
    apply andb_prop in Hm as [[[[Ha Hloc]%andb_prop Hcat]%andb_prop Hs]%andb_prop Hlow].
    repeat split; try done.
    + intros l Hf Hne. rewrite Hf in Hloc. simpl in Hloc.
      destruct (String.eqb_spec l "") as [|_]; [done|]. simpl in Hloc.
      by apply String.eqb_eq in Hloc.
    + intros Hf. rewrite Hf in Hlow. unfold at_or_below_minimum in Hlow.
      destruct (minimum_stock (entry_product e)) as [m|]; [|done].
      exists m. split; [done|]. by apply Z.leb_le.
Qed.

(** X12: the pages of [getInventory] fit together: the page of [n] rows at
    offset [o] followed by the page of [m] rows at offset [o + n] is the
    page of [n + m] rows at offset [o], row for row: paging through the
    listing neither drops nor repeats a row. *)
Theorem getInventory_pages_concatenate
    (f : inventory_filters) (st : db) (o n m : nat) :
  let page (off lim : nat) :=
    getInventory {| locationId := locationId f; categoryId := categoryId f;
                    search := search f; lowStock := lowStock f;
                    limit := Some lim; offset := Some off |} in
  ∃ rows1 rows2,
    page o n st = (Resolved rows1, st)
    ∧ page (o + n)%nat m st = (Resolved rows2, st)
    ∧ page o (n + m)%nat st = (Resolved (rows1 ++ rows2)%list, st).
Proof.
  intros page. eexists _, _. split; [reflexivity|]. split; [reflexivity|].
  unfold page. rewrite !getInventory_rows. simpl. f_equal. f_equal.
  unfold inventory_rows, entry_matches. simpl.
  by rewrite <- drop_drop, take_take_drop.
Qed.

Lemma deleteProduct_known id st p :
  products st !! id = Some p →
  deleteProduct id st = (Resolved true, with_products (<[id := deactivate p]>) st).
Proof.
  intros H0. unfold deleteProduct.
  rewrite (bind_resolved (getProductById id) _ st (products st !! id) st eq_refl).
  rewrite H0. unfold bind, modify, ret. simpl. f_equal.
  unfold with_products. f_equal. apply map_eq. intros k.
  rewrite lookup_alter, lookup_insert. case_decide; subst; by rewrite ?H0.
Qed.

(** X13: [deleteProduct] is a soft delete.  An unknown id is rejected
    ("Product not found") with the store as it was.  A known product stays in
    the catalogue under its id with all its columns but [is_active], which
    is off; its records and the ledger are untouched; from then on no row of
    [getInventory], whatever the filters, is one of its records, and deleting
    it again changes nothing more. *)
Theorem deleteProduct_hides_the_product (id : string) (st : db) :
  (products st !! id = None →
     deleteProduct id st = (Rejected (JsError "Product not found"), st))
  ∧ (∀ p, products st !! id = Some p →
       let st' := with_products (<[id := deactivate p]>) st in
       deleteProduct id st = (Resolved true, st')
       ∧ deleteProduct id st' = (Resolved true, st')
       ∧ ∀ f rows e, getInventory f st' = (Resolved rows, st') →
                     e ∈ rows → entry_product_id e ≠ id).
Proof.
  split.
  - intros Hid. unfold deleteProduct.
    rewrite (bind_resolved (getProductById id) _ st (products st !! id) st eq_refl).
    by rewrite Hid.
  - intros p Hid st'.
    pose proof (deleteProduct_known id) as Hdel.
    split; [by apply Hdel|]. split.
    + rewrite (Hdel st' (deactivate p)) by (simpl; apply lookup_insert_eq).
      f_equal. unfold st', with_products; simpl. f_equal.
      by rewrite insert_insert_eq.
    + intros f rows e Hget He Heq.
      apply (getInventory_elem f st' e rows Hget) in He.
      apply inventory_rows_elem in He as [Hm (prod & loc & _ & Hp & _ & He)].
      rewrite Heq in Hp. simpl in Hp. rewrite lookup_insert_eq in Hp.
      injection Hp as <-.
      unfold entry_matches in Hm. rewrite He in Hm. simpl in Hm. done.
Qed.

(** X14: a product created with a barcode is found by it.  When
    [createProduct] resolves for a non-empty barcode, [getProductByBarcode]
    on the new store returns the new product under its generated id, active
    and with the columns it was given. *)
Theorem created_product_is_found_by_barcode
    (uuid : string) (pd : product) (u : string) (st st' : db)
    (r : option product) (b : string) :
  barcode pd = Some b → b ≠ "" →
  createProduct uuid pd u st = (Resolved r, st') →
  r = Some (inserted_product pd)
  ∧ getProductByBarcode b st'
    = (Resolved (Some (generateId "prod-" uuid, inserted_product pd)), st').
Proof.
  intros Hb Hne E. unfold createProduct in E. rewrite Hb in E. simpl in E.
  destruct (String.eqb_spec b "") as [|_]; [done|]. simpl in E.
  rewrite bind_assoc in E.
  apply bind_inv in E as [(found & st1 & Hf & E) | (? & _ & ?)]; [|done].
  assert (st1 = st) by (step_in Hf; by inversion Hf). subst st1.
  destruct found as [found|]; [by rewrite bind_throw in E|].
  rewrite bind_ret in E.
  pose proof (fetch_product_by_barcode_None st b Hf) as Hfree.
  unfold insert_product in E.
  rewrite bind_assoc, (bind_resolved get _ st st st eq_refl) in E.
  destruct (products st !! generateId "prod-" uuid) eqn:Hid;
    [by rewrite bind_throw in E|].
  simpl in E. rewrite bind_assoc, (bind_resolved _ _ _ _ _ Hf) in E.
  step_in E. rewrite lookup_insert_eq in E. injection E as <- <-.
  split; [by unfold inserted_product; rewrite Hb|].
  unfold getProductByBarcode, bind, get, ret. simpl. f_equal.
  fold (inserted_product pd). rewrite <- Hb.
  destruct (List.find _ _) as [[id' p']|] eqn:Efind.
  - apply find_some in Efind as [Hin Hc]. simpl in Hc.
    apply bool_decide_eq_true in Hc.
    apply list_elem_of_In, elem_of_map_to_list in Hin.
    rewrite lookup_insert in Hin. case_decide as Hk.
    + by injection Hin as <-; subst.
    + exfalso. rewrite Hb in Hc. by apply (Hfree id' p').
  - exfalso.
    apply find_none with (x := (generateId "prod-" uuid, inserted_product pd)) in Efind.
    + simpl in Efind. by rewrite bool_decide_true in Efind.
    + apply list_elem_of_In, elem_of_map_to_list. apply lookup_insert_eq.
Qed.

(** ** Sessions *)

Lemma alter_as_insert_session f (sid : string) (s : session) (m : gmap string session) :
  m !! sid = Some s → alter f sid m = <[sid := f s]> m.
Proof.
  intros H. apply map_eq. intros k. rewrite lookup_alter, lookup_insert.
  case_decide; subst; by rewrite ?H.
Qed.

Lemma completeSession_in_progress sid u st sess :
  sessions st !! sid = Some sess → status sess = "in_progress" →
  completeSession sid u st
  = (Resolved (Some (set_status "completed" sess)),
     with_sessions (<[sid := set_status "completed" sess]>) st).
Proof.
  intros Hs Hst. unfold completeSession.
  rewrite (bind_resolved (getSessionById sid) _ st (sessions st !! sid) st eq_refl).
  rewrite Hs, Hst. simpl. step. rewrite lookup_alter_eq, Hs. simpl. f_equal.
  unfold with_sessions. f_equal. by apply alter_as_insert_session.
Qed.

(** X15: completing an in_progress session writes its row and nothing else:
    it resolves with the session in status completed, and the quantities,
    the ledger, the catalogue and the other sessions are as before.  The
    movements of the session are then final: a later [cancelSession] is
    rejected and reverts no quantity, and [addProductToSession] is
    rejected as well. *)
Theorem completed_session_is_frozen (sid u : string) (st : db) (sess : session) :
  sessions st !! sid = Some sess →
  status sess = "in_progress" →
  let st' := with_sessions (<[sid := set_status "completed" sess]>) st in
  completeSession sid u st = (Resolved (Some (set_status "completed" sess)), st')
  ∧ (∀ u', cancelSession sid u' st'
           = (Rejected (JsError "Session is already completed or cancelled"), st'))
  ∧ (∀ uuid td u', addProductToSession uuid sid td u' st'
           = (Rejected (JsError "Cannot add products to a completed or cancelled session"),
              st')).
Proof.
  intros Hs Hst st'. split; [by apply completeSession_in_progress|].
  assert (sessions st' !! sid = Some (set_status "completed" sess)) as Hs'
    by (simpl; apply lookup_insert_eq).
  split.
  - intros u'. unfold cancelSession.
    rewrite (bind_resolved (getSessionById sid) _ st' (sessions st' !! sid) st' eq_refl).
    by rewrite Hs'.
  - intros uuid td u'. unfold addProductToSession.
    rewrite (bind_resolved (getSessionById sid) _ st' (sessions st' !! sid) st' eq_refl).
    by rewrite Hs'.
Qed.

(** X16: on an id that names no session, [completeSession],
    [cancelSession] and [addProductToSession] reject with "Session not
    found" and leave the store as it was: no ledger row is written for a
    movement into a session that does not exist. *)
Theorem unknown_session_is_rejected (sid : string) (st : db) :
  sessions st !! sid = None →
  (∀ u, completeSession sid u st = (Rejected (JsError "Session not found"), st))
  ∧ (∀ u, cancelSession sid u st = (Rejected (JsError "Session not found"), st))
  ∧ (∀ uuid td u, addProductToSession uuid sid td u st
                  = (Rejected (JsError "Session not found"), st)).
Proof.
  intros Hs. repeat split; intros;
    [unfold completeSession|unfold cancelSession|unfold addProductToSession];
    rewrite (bind_resolved (getSessionById sid) _ st (sessions st !! sid) st eq_refl);
    by rewrite Hs.
Qed.

Lemma addProductToSession_in_progress uuid sid td u st sess :
  sessions st !! sid = Some sess → status sess = "in_progress" →
  addProductToSession uuid sid td u st
  = createInventoryTransaction uuid (session_movement sess td) u (Some sid) st.
Proof.
  intros Hs Hst. unfold addProductToSession.
  rewrite (bind_resolved (getSessionById sid) _ st (sessions st !! sid) st eq_refl).
  rewrite Hs, Hst. simpl. unfold session_movement.
  by destruct (String.eqb (session_type sess) "check_in").
Qed.

(** X17: the type of the session decides the direction of its movements.
    In an in_progress session at a location, the row that
    [addProductToSession] writes is tagged with the session; in a check_in
    session it is a check_in into the session's location: when the call
    resolves the row is logged and the record has grown by the quantity, and
    no test of the code rejects it; in a session of any other type
    (check_out, inventory_count) it is a check_out from the session's
    location: it resolves only when the record holds the quantity, which it
    then loses.  A rejected call has changed no quantity. *)
Theorem session_type_decides_direction
    (uuid sid : string) (td : transaction_data) (u : string) (st : db)
    (sess : session) (l : string) (c : completion (option transaction)) (st' : db) :
  sessions st !! sid = Some sess →
  status sess = "in_progress" →
  location_id sess = Some l → l ≠ "" →
  addProductToSession uuid sid td u st = (c, st') →
  let row := new_row uuid (session_movement sess td) u (Some sid) in
  if String.eqb (session_type sess) "check_in"
  then transaction_type (trx_data row) = "check_in"
       ∧ destination_location_id (trx_data row) = Some l
       ∧ match c with
         | Resolved _ =>
             inventory_transactions st' = (inventory_transactions st ++ [row])%list
             ∧ inventory st'
               = <[(product_id td, l) := quantity_at st (product_id td) l + quantity td]>
                   (inventory st)
         | Rejected e =>
             ¬ NotFound e ∧ ¬ InsufficientStock e ∧ inventory st' = inventory st
         end
  else transaction_type (trx_data row) = "check_out"
       ∧ source_location_id (trx_data row) = Some l
       ∧ match c with
         | Resolved _ =>
             inventory_transactions st' = (inventory_transactions st ++ [row])%list
             ∧ quantity td ≤ quantity_at st (product_id td) l
             ∧ inventory st'
               = <[(product_id td, l) := quantity_at st (product_id td) l - quantity td]>
                   (inventory st)
         | Rejected e =>
             inventory st' = inventory st
             ∧ (NotFound e ∨ InsufficientStock e →
                inventory_transactions st'
                = (inventory_transactions st ++ [row])%list)
         end.
Proof.
  intros Hs Hst Hl Hne E row.
  rewrite (addProductToSession_in_progress uuid sid td u st sess Hs Hst) in E.
  set (td' := session_movement sess td) in *.
  destruct (String.eqb (session_type sess) "check_in") eqn:Hty.
  - assert (transaction_type td' = "check_in") as Hty'
      by (unfold td', session_movement; by rewrite Hty).
    assert (destination_location_id td' = Some l) as Hd'
      by (unfold td', session_movement; by rewrite Hty).
    split; [exact Hty'|]. split; [exact Hd'|].
    destruct c as [r|e].
    + destruct (createInventoryTransaction_resolved _ _ _ _ _ _ _ E)
        as (_ & Hid & _ & _ & _ & _ & Hrow & _).
      destruct (createInventoryTransaction_check_in uuid td' u (Some sid) st l
                  Hty' Hd' Hne Hid) as [r' E'].
      rewrite E in E'. injection E' as _ ->. by split.
    + destruct (createInventoryTransaction_rejected _ _ _ _ _ _ _ E)
        as [[[column ->] ->]|[_ (l' & _ & _ & H)]].
      * destruct (store_refusal_is_no_test column). done.
      * exfalso. rewrite Hty' in H.
        destruct (inventory st !! (product_id td', l'));
          [destruct H as [_ H]|]; destruct H as [[? _]|[? _]]; discriminate.
  - assert (transaction_type td' = "check_out") as Hty'
      by (unfold td', session_movement; by rewrite Hty).
    assert (source_location_id td' = Some l) as Hs'
      by (unfold td', session_movement; by rewrite Hty).
    split; [exact Hty'|]. split; [exact Hs'|].
    destruct c as [r|e].
    + destruct (createInventoryTransaction_resolved _ _ _ _ _ _ _ E)
        as (_ & Hid & _ & _ & _ & _ & Hrow & _).
      pose proof (createInventoryTransaction_check_out uuid td' u (Some sid) st l
                    Hty' Hs' Hne Hid) as H.
      simpl in H. unfold quantity_at.
      change (product_id td') with (product_id td) in H.
      change (quantity td') with (quantity td) in H.
      destruct (inventory st !! (product_id td, l)) as [a|]; [|congruence].
      destruct (Z.ltb_spec a (quantity td)) as [|Hle]; [congruence|].
      destruct H as [r' E']. rewrite E in E'. injection E' as _ ->.
      by repeat split.
    + destruct (createInventoryTransaction_rejected _ _ _ _ _ _ _ E)
        as [[[column ->] ->]|[-> _]].
      * destruct (store_refusal_is_no_test column) as [H1 H2].
        split; [done|]. by intros [?|?].
      * by split.
Qed.

(** *** Cancelling undoes the session *)

Lemma id_not_taken_of_resolved uuid td u s st r st' :
  createInventoryTransaction uuid td u s st = (Resolved r, st') →
  id_taken (generateId "trx-" uuid) st = false.
Proof.
  intros E. by destruct (createInventoryTransaction_resolved _ _ _ _ _ _ _ E) as (_ & ? & _).
Qed.

Lemma inverse_effect_at row p l p0 l0 d :
  product_id (trx_data row) = p0 →
  (transaction_type (trx_data row) = "check_in"
   ∧ destination_location_id (trx_data row) = Some l0 ∧ d = - quantity (trx_data row))
  ∨ (transaction_type (trx_data row) = "check_out"
     ∧ source_location_id (trx_data row) = Some l0 ∧ d = quantity (trx_data row)) →
  inverse_effect row p l = at_pair p0 l0 p l d.
Proof.
  intros Hp H. unfold inverse_effect, at_pair, at_location. rewrite Hp.
  destruct (String.eqb_spec p0 p) as [->|Hne]; simpl.
  - destruct H as [(-> & -> & ->)|(-> & -> & ->)]; simpl;
      repeat case_bool_decide; simplify_eq; lia.
  - rewrite (bool_decide_eq_false_2 ((p0, l0) = (p, l))) by congruence. done.
Qed.

Lemma session_movement_undoable uuid sid td u st0 st st' sess l r :
  sessions st0 !! sid = Some sess → status sess = "in_progress" →
  location_id sess = Some l → l ≠ "" →
  is_Some (products st0 !! product_id td) →
  session_undoable sid st0 st →
  addProductToSession uuid sid td u st = (Resolved r, st') →
  session_undoable sid st0 st'.
Proof.
  intros Hs Hst Hl Hne Hprod (Hss & Hps & Hfk & Hsum & Hnone) E.
  rewrite (addProductToSession_in_progress uuid sid td u st sess) in E
    by (by rewrite ?Hss).
  pose proof (id_not_taken_of_resolved _ _ _ _ _ _ _ E) as Hid.
  set (td' := session_movement sess td) in *.
  set (row := new_row uuid td' u (Some sid)).
  assert (product_id td' = product_id td) as Hpid by done.
  assert (quantity td' = quantity td) as Hq by done.
  assert (∃ d,
            inventory st' = <[(product_id td, l) := quantity_at st (product_id td) l + d]>
                              (inventory st)
            ∧ inventory_transactions st' = (inventory_transactions st ++ [row])%list
            ∧ sessions st' = sessions st ∧ products st' = products st
            ∧ (∀ p l', inverse_effect row p l' = at_pair (product_id td) l p l' (- d)))
    as (d & Hinv & Hled & Hss' & Hps' & Hie).
  { destruct (String.eqb (session_type sess) "check_in") eqn:Hty.
    - assert (transaction_type td' = "check_in") as Hty'
        by (unfold td', session_movement; by rewrite Hty).
      assert (destination_location_id td' = Some l) as Hd'
        by (unfold td', session_movement; by rewrite Hty).
      destruct (createInventoryTransaction_check_in uuid td' u (Some sid) st l
                  Hty' Hd' Hne Hid) as [r' E'].
      rewrite E in E'. injection E' as _ ->. exists (quantity td).
      rewrite ?Hpid, ?Hq. repeat split; try done.
      intros p l'. apply inverse_effect_at; [done|]. left.
      split; [exact Hty'|]. split; [exact Hd'|].
      change (quantity (trx_data row)) with (quantity td). lia.
    - assert (transaction_type td' = "check_out") as Hty'
        by (unfold td', session_movement; by rewrite Hty).
      assert (source_location_id td' = Some l) as Hd'
        by (unfold td', session_movement; by rewrite Hty).
      pose proof (createInventoryTransaction_check_out uuid td' u (Some sid) st l
                    Hty' Hd' Hne Hid) as E'.
      simpl in E'. rewrite ?Hpid, ?Hq in E'.
      destruct (inventory st !! (product_id td, l)) as [a|] eqn:Ei; [|congruence].
      destruct (a <? quantity td); [congruence|].
      destruct E' as [r' E']. rewrite E in E'. injection E' as _ ->.
      exists (- quantity td). unfold quantity_at. rewrite Ei. simpl.
      repeat split; try done.
      intros p l'. apply inverse_effect_at; [done|]. right.
      split; [exact Hty'|]. split; [exact Hd'|].
      change (quantity (trx_data row)) with (quantity td). lia. }
  assert (session_rows st' sid = (session_rows st sid ++ [row])%list) as Hrows.
  { unfold session_rows. rewrite Hled, List.filter_app. simpl.
    by rewrite bool_decide_true. }
  split; [congruence|]. split; [congruence|]. split; [|split].
  - rewrite Hrows. apply Forall_app. split.
    + eapply Forall_impl; [exact Hfk|]. intros t. by rewrite Hps'.
    + constructor; [|constructor]. simpl. by rewrite Hps', Hps.
  - intros p l'. rewrite Hrows, inverse_sum_app. unfold inverse_sum at 2. simpl.
    rewrite Hie, <- (Hsum p l'). unfold quantity_at in Hinv.
    unfold quantity_at, at_pair. rewrite Hinv, lookup_insert.
    case_decide as Hk; case_bool_decide; simplify_eq; simpl; try done; lia.
  - intros p l'. rewrite Hinv, lookup_insert. case_decide as Hk; [done|].
    intros Hn. rewrite Hrows, inverse_sum_app, (Hnone p l' Hn).
    unfold inverse_sum. simpl. rewrite Hie. unfold at_pair.
    rewrite bool_decide_false by done. lia.
Qed.

Lemma session_movements_undoable sid st0 ops sess l :
  sessions st0 !! sid = Some sess → status sess = "in_progress" →
  location_id sess = Some l → l ≠ "" →
  Forall (movement_of_session sid st0) ops →
  ∀ st st', session_undoable sid st0 st →
    run_all ops st = (Resolved tt, st') → session_undoable sid st0 st'.
Proof.
  intros Hs Hst Hl Hne. induction 1 as [|op ops Hop _ IH]; intros st st' Hu E.
  - unfold run_all in E. simpl in E. unfold ret in E. by injection E as <-.
  - unfold run_all in E. simpl in E.
    apply bind_inv in E as [([] & st1 & E1 & E) | (? & _ & ?)]; [|done].
    apply (IH st1 st'); [|exact E].
    destruct op; simpl in Hop; try done. destruct Hop as [-> Hprod].
    apply then_ret_resolved in E1 as [r E1].
    by eapply session_movement_undoable.
Qed.

(** X18: cancelling a session undoes it.  From a store whose ledger has no
    row of the session, let the movements of an in_progress session at a
    location all resolve, on products of the catalogue, with nothing else in
    between; then [cancelSession] resolves and every (product, location)
    pair is back at the quantity it had before the first movement (a record
    that a check-in created stays, at 0). *)
Theorem cancelling_undoes_the_session
    (sid u : string) (ops : list operation) (st0 st : db) (sess : session) (l : string) :
  sessions st0 !! sid = Some sess →
  status sess = "in_progress" →
  location_id sess = Some l → l ≠ "" →
  session_rows st0 sid = [] →
  Forall (movement_of_session sid st0) ops →
  run_all ops st0 = (Resolved tt, st) →
  ∃ st', cancelSession sid u st
         = (Resolved (Some (set_status "cancelled" sess)), st')
    ∧ ∀ p l', quantity_at st' p l' = quantity_at st0 p l'.
Proof.
  intros Hs Hst Hl Hne Hrows Hops E.
  assert (session_undoable sid st0 st0) as H0.
  { unfold session_undoable. rewrite Hrows. repeat split; try done.
    intros p l'. unfold inverse_sum; simpl; lia. }
  destruct (session_movements_undoable sid st0 ops sess l Hs Hst Hl Hne Hops
              st0 st H0 E) as (Hss & Hps & Hfk & Hsum & Hnone).
  pose proof (cancelSession_cases sid u st) as Hc.
  rewrite Hss, Hs, Hst in Hc. simpl in Hc.
  destruct Hc as (st' & Ec & _ & _ & _ & Hq).
  exists st'. split; [exact Ec|]. intros p l'.
  unfold quantity_at at 1. rewrite Hq, session_transactions_all, inverse_sum_rev by done.
  destruct (inventory st !! (p, l')) as [q|] eqn:Ei; simpl.
  - rewrite <- (Hsum p l'). unfold quantity_at. by rewrite Ei.
  - rewrite <- (Hsum p l'), (Hnone p l' Ei). unfold quantity_at. rewrite Ei. simpl. lia.
Qed.

(** ** The dashboard total under the movements *)






(** ** The low stock report *)

Lemma insert_by_ratio_perm e l : insert_by_ratio e l ≡ₚ e :: l.
Proof.
  induction l as [|e' l IH]; simpl; [done|].
  destruct (ratio_leb _ _); [done|]. rewrite IH. apply Permutation_swap.
Qed.

Lemma order_by_ratio_perm l : order_by_ratio l ≡ₚ l.
Proof.
  unfold order_by_ratio. induction l as [|e l IH]; simpl; [done|].
  by rewrite insert_by_ratio_perm, IH.
Qed.

Lemma ratio_leb_total a b : ratio_leb a b = false → ratio_leb b a = true.
Proof. destruct a, b; simpl; try done. intros ?%Z.leb_gt. apply Z.leb_le. lia. Qed.

Lemma insert_by_ratio_sorted e l :
  Sorted by_ratio l → Sorted by_ratio (insert_by_ratio e l).
Proof.
  induction 1 as [|e' l Hs IH Hhd]; simpl.
  - by repeat constructor.
  - destruct (ratio_leb (stock_ratio e) (stock_ratio e')) eqn:Hle.
    + constructor; [by constructor|]. by constructor.
    + constructor; [done|].
      assert (by_ratio e' e) as He by by apply ratio_leb_total.
      destruct l as [|e'' l]; simpl in *; [by constructor|].
      destruct (ratio_leb _ _); constructor; [done|].
      by apply HdRel_inv in Hhd.
Qed.

Lemma order_by_ratio_sorted l : Sorted by_ratio (order_by_ratio l).
Proof.
  unfold order_by_ratio. induction l; simpl; [constructor|].
  by apply insert_by_ratio_sorted.
Qed.

Lemma report_matches_listing loc cat n e :
  entry_matches (low_stock_listing loc cat n) e = report_matches loc cat e.
Proof.
  unfold entry_matches, report_matches. simpl.
  destruct (is_active _), (at_or_below_minimum _ _),
    (if truthy loc then _ else _), (if truthy cat then _ else _); done.
Qed.

Lemma filter_ext_eq {A} (P Q : A → bool) l :
  (∀ x, P x = Q x) → List.filter P l = List.filter Q l.
Proof. intros H. induction l as [|x l IH]; simpl; [done|]. by rewrite H, IH. Qed.

Lemma low_stock_rows_count st rows :
  Forall (λ row : string * string * Z, is_Some (locations st !! row.1.2)) rows →
  length (List.filter (report_matches None None) (omap (join_entry st) rows))
  = length (List.filter (low_stock_pair st) rows).
Proof.
  induction 1 as [|[[p l] q] rows [loc Hl] _ IH]; csimpl; [done|].
  unfold low_stock_pair at 1. simpl in *.
  destruct (products st !! p) as [prod|]; csimpl; [|done]. rewrite Hl. csimpl.
  unfold report_matches at 1. simpl. rewrite !andb_true_r.
  destruct (is_active prod && at_or_below_minimum q prod); simpl; by rewrite IH.
Qed.

(** X20: the low stock report agrees with the listing and with the
    dashboard.  [getLowStockReport] resolves without changing the store; its
    [count] is the number of its items; the items come by ascending stock
    ratio; they are, up to their order, the rows that [getInventory] returns
    for the same location and category with the low-stock flag, on a page
    that holds every record; and without filters, when the location of every
    record is stored, [count] is the low-stock count of
    [getInventorySummary]. *)
Theorem low_stock_report_agrees (loc cat : option string) (st : db) :
  ∃ rep, getLowStockReport loc cat st = (Resolved rep, st)
    ∧ count rep = length (items rep)
    ∧ Sorted by_ratio (items rep)
    ∧ (∀ n, (size (inventory st) ≤ n)%nat →
         ∃ rows, getInventory (low_stock_listing loc cat n) st = (Resolved rows, st)
                 ∧ items rep ≡ₚ rows)
    ∧ (loc = None → cat = None →
       (∀ p l q, inventory st !! (p, l) = Some q → is_Some (locations st !! l)) →
       ∃ sm, getInventorySummary st = (Resolved sm, st)
             ∧ count rep = low_stock_count sm).
Proof.
  eexists. split; [reflexivity|]. simpl. split; [done|].
  split; [apply order_by_ratio_sorted|]. split.
  - intros n Hn. eexists. split; [reflexivity|]. simpl.
    rewrite drop_0, take_ge.
    + rewrite order_by_ratio_perm, order_by_name_perm.
      by rewrite (filter_ext_eq _ _ _ (report_matches_listing loc cat n)).
    + rewrite order_by_name_perm.
      etrans; [apply length_filter_le|]. etrans; [apply length_omap_le|].
      by rewrite length_map_to_list.
  - intros -> -> Hloc. eexists. split; [reflexivity|]. simpl.
    rewrite order_by_ratio_perm, low_stock_count_eq.
    apply low_stock_rows_count, Forall_forall.
    intros [[p l] q] Hin%elem_of_map_to_list.
    simpl. eauto.
Qed.

(** ** The catalogue listing *)

Lemma insert_product_by_name_perm r l : insert_product_by_name r l ≡ₚ r :: l.
Proof.
  induction l as [|r' l IH]; simpl; [done|].
  destruct (String.leb _ _); [done|]. rewrite IH. apply Permutation_swap.
Qed.

Lemma order_products_by_name_perm l : order_products_by_name l ≡ₚ l.
Proof.
  unfold order_products_by_name. induction l as [|r l IH]; simpl; [done|].
  by rewrite insert_product_by_name_perm, IH.
Qed.

Lemma insert_product_by_name_sorted r l :
  Sorted product_by_name l → Sorted product_by_name (insert_product_by_name r l).
Proof.
  induction 1 as [|r' l Hs IH Hhd]; simpl.
  - by repeat constructor.
  - destruct (String.leb _ _) eqn:Hle.
    + constructor; [by constructor|]. by constructor.
    + constructor; [done|].
      assert (product_by_name r' r) as He.
      { unfold product_by_name.
        destruct (String.leb_total (product_name r.2) (product_name r'.2)); congruence. }
      destruct l as [|r'' l]; simpl in *; [by constructor|].
      destruct (String.leb _ _); constructor; [done|].
      by apply HdRel_inv in Hhd.
Qed.

Lemma order_products_by_name_sorted l : Sorted product_by_name (order_products_by_name l).
Proof.
  unfold order_products_by_name. induction l; simpl; [constructor|].
  by apply insert_product_by_name_sorted.
Qed.

Lemma getProducts_elem f st rows id p :
  getProducts f st = (Resolved rows, st) → (id, p) ∈ rows →
  products st !! id = Some p ∧ product_matches st f (id, p) = true.
Proof.
  intros [= <-] He.
  eapply elem_of_sublist in He; [|etrans; [apply sublist_take|apply sublist_drop]].
  rewrite order_products_by_name_perm in He.
  apply list_elem_of_In, filter_In in He as [Hin Hm]. split; [|done].
  by apply list_elem_of_In, elem_of_map_to_list in Hin.
Qed.

Lemma getProducts_whole a n st id p :
  (size (products st) ≤ n)%nat →
  products st !! id = Some p →
  product_matches st (whole_catalogue a n) (id, p) = true →
  ∃ rows, getProducts (whole_catalogue a n) st = (Resolved rows, st) ∧ (id, p) ∈ rows.
Proof.
  intros Hn Hp Hm. eexists. split; [reflexivity|]. simpl.
  rewrite drop_0, take_ge.
  - rewrite order_products_by_name_perm. apply list_elem_of_In, filter_In.
    split; [|done]. by apply list_elem_of_In, elem_of_map_to_list.
  - rewrite order_products_by_name_perm. etrans; [apply length_filter_le|].
    by rewrite length_map_to_list.
Qed.

(** X21: what [getProducts] returns.  The call resolves without changing
    the store; every row is a stored product under its id; with the key
    [active] absent, or true, every row is an active product, with [false]
    every row is a deactivated one; the rows come in the order of their
    names; and a call without category and search on a page that holds the
    catalogue lists every product that passes the [active] test. *)
Theorem getProducts_rows_are_sound (f : product_filters) (st : db) :
  ∃ rows, getProducts f st = (Resolved rows, st)
    ∧ Sorted product_by_name rows
    ∧ (∀ id p, (id, p) ∈ rows →
         products st !! id = Some p
         ∧ (active f = None ∨ active f = Some (Some true) → is_active p = true)
         ∧ (active f = Some (Some false) → is_active p = false))
    ∧ (∀ id p, products st !! id = Some p →
         product_categoryId f = None → product_search f = None →
         product_offset f = None →
         (size (products st) ≤ default 100 (product_limit f))%nat →
         match active f with
         | None => is_active p = true
         | Some None => True
         | Some (Some a) => is_active p = a
         end →
         (id, p) ∈ rows).
Proof.
  eexists. split; [reflexivity|]. split; [|split].
  - apply Sorted_take, Sorted_drop, order_products_by_name_sorted.
  - intros id p He.
    destruct (getProducts_elem f st _ id p eq_refl He) as [Hp Hm].
    split; [done|]. unfold product_matches in Hm. simpl in Hm.
    apply andb_prop in Hm as [_ Hm].
    split.
    + intros [Ha|Ha]; rewrite Ha in Hm; by apply Bool.eqb_prop in Hm.
    + intros Ha. rewrite Ha in Hm. by apply Bool.eqb_prop in Hm.
  - intros id p Hp Hc Hs Ho Hn Ha. rewrite Ho. simpl.
    rewrite drop_0, take_ge.
    + rewrite order_products_by_name_perm. apply list_elem_of_In, filter_In.
      split; [by apply list_elem_of_In, elem_of_map_to_list|].
      unfold product_matches. rewrite Hc, Hs. simpl.
      destruct (active f) as [[a|]|];
        [subst a; by destruct (is_active p)|done|by rewrite Ha].
    + rewrite order_products_by_name_perm. etrans; [apply length_filter_le|].
      by rewrite length_map_to_list.
Qed.

(** X22: a deleted product leaves the default listing and stays
    retrievable.  After [deleteProduct] has resolved, no call of
    [getProducts] that leaves [active] out, or sets it to true, lists the
    product, whatever the other filters; a call with [active] false or null,
    without category and search, on a page that holds the catalogue, lists
    it with its columns as they were; and [getProductById] still returns
    it. *)
Theorem deleted_product_leaves_the_listing
    (id : string) (st st' : db) (p : product) (r : bool) :
  products st !! id = Some p →
  deleteProduct id st = (Resolved r, st') →
  (∀ f rows p', active f = None ∨ active f = Some (Some true) →
     getProducts f st' = (Resolved rows, st') → (id, p') ∉ rows)
  ∧ (∀ a n, a = Some None ∨ a = Some (Some false) →
       (size (products st) ≤ n)%nat →
       ∃ rows, getProducts (whole_catalogue a n) st' = (Resolved rows, st')
               ∧ (id, deactivate p) ∈ rows)
  ∧ getProductById id st' = (Resolved (Some (deactivate p)), st').
Proof.
  intros Hp E. rewrite (deleteProduct_known id st p Hp) in E. injection E as _ <-.
  split; [|split].
  - intros f rows p' Ha Hget He.
    destruct (getProducts_elem f _ rows id p' Hget He) as [Hp' Hm].
    simpl in Hp'. rewrite lookup_insert_eq in Hp'. injection Hp' as <-.
    unfold product_matches in Hm. apply andb_prop in Hm as [_ Hm].
    destruct Ha as [Ha|Ha]; rewrite Ha in Hm; done.
  - intros a n Ha Hn. apply getProducts_whole.
    + simpl. rewrite map_size_insert_Some; [done|by eexists].
    + simpl. apply lookup_insert_eq.
    + unfold product_matches. simpl. by destruct Ha as [->| ->].
  - unfold getProductById, bind, get, ret. simpl. by rewrite lookup_insert_eq.
Qed.

(** ** The records of a product *)

Lemma NoDup_omap_inj {A B} (g : A → option B) (l : list A) :
  (∀ x y z, x ∈ l → y ∈ l → g x = Some z → g y = Some z → x = y) →
  NoDup l → NoDup (omap g l).
Proof.
  intros Hinj. induction 1 as [|x l Hx Hl IH]; csimpl; [constructor|].
  assert (NoDup (omap g l)) as IH'.
  { apply IH. intros x' y z Hx' Hy. apply Hinj; by constructor. }
  destruct (g x) as [z|] eqn:Hg; [|done].
  constructor; [|done]. intros (y & Hy & Hgy)%list_elem_of_omap.
  assert (x = y) as <-; [|done].
  apply (Hinj x y z); try done; [constructor|by constructor].
Qed.

Lemma getProductInventory_elem p st l q :
  (l, q) ∈ omap (λ row : string * string * Z,
                   let '(p', l', q') := row in
                   if String.eqb p' p
                   then _ ← locations st !! l'; Some (l', q')
                   else None)
                (map_to_list (inventory st))
  ↔ inventory st !! (p, l) = Some q ∧ is_Some (locations st !! l).
Proof.
  rewrite list_elem_of_omap. split.
  - intros ([[p' l'] q'] & Hin%elem_of_map_to_list & Hg).
    destruct (String.eqb_spec p' p) as [->|]; [|done].
    destruct (locations st !! l') as [loc|] eqn:Hl; [|done].
    simpl in Hg. injection Hg as -> ->. split; [done|]. rewrite Hl. by eexists.
  - intros [Hi [loc Hl]]. exists (p, l, q). split; [by apply elem_of_map_to_list|].
    rewrite String.eqb_refl, Hl. done.
Qed.

(** X23: [getProductInventory] lists the records of the product location
    by location.  It resolves without changing the store; a location with
    its quantity is listed exactly when the product has that record and the
    location is stored; and no location is listed twice. *)
Theorem getProductInventory_lists_the_records (p : string) (st : db) :
  ∃ rows, getProductInventory p st = (Resolved rows, st)
    ∧ (∀ l q, (l, q) ∈ rows
              ↔ inventory st !! (p, l) = Some q ∧ is_Some (locations st !! l))
    ∧ NoDup rows.*1.
Proof.
  eexists. split; [reflexivity|]. split; [apply getProductInventory_elem|].
  apply NoDup_fmap_fst.
  - intros l q1 q2 [H1 _]%getProductInventory_elem [H2 _]%getProductInventory_elem.
    congruence.
  - apply NoDup_omap_inj; [|apply NoDup_map_to_list].
    intros [[p1 l1] q1] [[p2 l2] q2] [l q] _ _ H1 H2.
    destruct (String.eqb_spec p1 p) as [->|]; [|done].
    destruct (String.eqb_spec p2 p) as [->|]; [|done].
    destruct (locations st !! l1); [|done]. destruct (locations st !! l2); [|done].
    simpl in *. congruence.
Qed.

(** ** Opening a session *)

(** X24: [createSession] opens a session in progress.  When the call
    resolves, the id was free and the session it stored and returned has
    status in_progress, with the type, location, notes and user it was
    given; [getSessionById] returns it; the other sessions, the quantities,
    the ledger and the catalogue are as before.  When it is rejected, the
    store is as it was; under an id that is taken it is always rejected. *)
Theorem createSession_opens_in_progress
    (uuid ty : string) (l n : option string) (u : string) (st : db) :
  let id := generateId "sess-" uuid in
  let sess := {| session_type := ty; status := "in_progress"; location_id := l;
                 session_created_by := u; session_notes := n |} in
  (∀ c st', createSession uuid ty l n u st = (c, st') →
     match c with
     | Resolved r =>
         sessions st !! id = None
         ∧ r = Some sess
         ∧ st' = with_sessions (<[id := sess]>) st
         ∧ getSessionById id st' = (Resolved (Some sess), st')
         ∧ (∀ sid, sid ≠ id → sessions st' !! sid = sessions st !! sid)
     | Rejected _ => st' = st
     end)
  ∧ (is_Some (sessions st !! id) →
     ∃ e, createSession uuid ty l n u st = (Rejected e, st) ∧ DuplicateKey e).
Proof.
  intros id sess. split.
  - intros c st' E. unfold createSession in E. fold id in E. step_in E.
    destruct (sessions st !! id) eqn:Hfree; simpl in E.
    + by injection E as <- <-.
    + rewrite lookup_insert_eq in E. injection E as <- <-.
      repeat split; try done.
      * unfold getSessionById, bind, get, ret. simpl. by rewrite lookup_insert_eq.
      * intros sid Hne. simpl. by rewrite lookup_insert_ne.
  - intros [s Hs]. unfold createSession. fold id. step. rewrite Hs. simpl.
    eexists. split; [done|]. right. by eexists.
Qed.

(** ** The movements of a session *)

Lemma find_new_row (rows : list transaction) row :
  existsb (λ t, String.eqb (trx_id t) (trx_id row)) rows = false →
  find (λ t, String.eqb (trx_id t) (trx_id row)) (rows ++ [row])%list = Some row.
Proof.
  induction rows as [|t rows IH]; simpl.
  - by rewrite String.eqb_refl.
  - destruct (String.eqb (trx_id t) (trx_id row)); simpl; [done|]. exact IH.
Qed.

Lemma createInventoryTransaction_returns uuid td u s st r st' :
  createInventoryTransaction uuid td u s st = (Resolved r, st') →
  inventory_transactions st' = (inventory_transactions st ++ [new_row uuid td u s])%list
  ∧ products st' = products st
  ∧ r = (_ ← products st !! product_id td; Some (new_row uuid td u s)).
Proof.
  intros E.
  destruct (createInventoryTransaction_resolved _ _ _ _ _ _ _ E)
    as (_ & Hid & Hp & _ & _ & _ & Hl & _).
  split; [done|]. split; [done|].
  unfold createInventoryTransaction in E.
  apply bind_inv in E as [([] & st1 & _ & E) | (? & _ & ?)]; [|done].
  apply bind_inv in E as [([] & st2 & _ & E) | (? & _ & ?)]; [|done].
  step_in E. injection E as <- <-.
  rewrite Hl, Hp.
  pose proof (find_new_row (inventory_transactions st) (new_row uuid td u s) Hid) as Hf.
  change (trx_id (new_row uuid td u s)) with (generateId "trx-" uuid) in Hf.
  by rewrite Hf.
Qed.

(** X25: the listing of a session gains the movement.  After
    [addProductToSession] has resolved in an in_progress session, for a
    product of the catalogue, the call has returned the row it logged, with
    the product and the quantity it was given; [getSessionTransactions] of
    the session returns that row and the rows it returned before; the
    listing of every other session is as before. *)
Theorem session_listing_gains_the_movement
    (uuid sid : string) (td : transaction_data) (u : string) (st st' : db)
    (sess : session) (r : option transaction) :
  sessions st !! sid = Some sess →
  status sess = "in_progress" →
  is_Some (products st !! product_id td) →
  addProductToSession uuid sid td u st = (Resolved r, st') →
  let row := new_row uuid (session_movement sess td) u (Some sid) in
  r = Some row
  ∧ product_id (trx_data row) = product_id td
  ∧ quantity (trx_data row) = quantity td
  ∧ (∃ rows, getSessionTransactions sid st' = (Resolved rows, st')
             ∧ rows ≡ₚ row :: session_transactions st sid)
  ∧ (∀ sid', sid' ≠ sid →
       getSessionTransactions sid' st'
       = (Resolved (session_transactions st sid'), st')).
Proof.
  intros Hs Hst [prod Hp] E row.
  rewrite (addProductToSession_in_progress uuid sid td u st sess Hs Hst) in E.
  apply createInventoryTransaction_returns in E as (Hl & Hps & ->).
  change (product_id (session_movement sess td)) with (product_id td).
  rewrite Hp. simpl. split; [done|]. split; [done|]. split; [done|].
  fold row in Hl. split.
  - eexists. split; [reflexivity|].
    unfold session_transactions. rewrite Hl, Hps, List.filter_app, rev_app_distr.
    simpl. rewrite bool_decide_true by done.
    rewrite bool_decide_true by (by rewrite Hp; eexists). done.
  - intros sid' Hne. unfold getSessionTransactions, bind, get, ret. f_equal.
    unfold session_transactions. rewrite Hl, Hps, List.filter_app. simpl.
    rewrite bool_decide_false by congruence. simpl. by rewrite app_nil_r.
Qed.

(** X26: cancelling returns what a rejected check-out never took.  In an
    in_progress session that is not a check_in session, a movement of more
    than the record of the session's location holds is rejected
    ("Insufficient quantity available") and takes nothing; its row is in the
    ledger under the session all the same, so a later [cancelSession]
    resolves and adds the quantity of the rejected movement to the record;
    the other records are as before. *)
Theorem cancel_returns_a_rejected_check_out
    (uuid sid : string) (td : transaction_data) (u u' : string) (st : db)
    (sess : session) (l : string) (a : Z) :
  sessions st !! sid = Some sess →
  status sess = "in_progress" →
  session_type sess ≠ "check_in" →
  location_id sess = Some l → l ≠ "" →
  id_taken (generateId "trx-" uuid) st = false →
  is_Some (products st !! product_id td) →
  session_rows st sid = [] →
  inventory st !! (product_id td, l) = Some a →
  a < quantity td →
  ∃ st1 st2,
    addProductToSession uuid sid td u st
    = (Rejected (JsError "Insufficient quantity available"), st1)
    ∧ inventory st1 = inventory st
    ∧ cancelSession sid u' st1 = (Resolved (Some (set_status "cancelled" sess)), st2)
    ∧ inventory st2 !! (product_id td, l) = Some (a + quantity td)
    ∧ ∀ k, k ≠ (product_id td, l) → inventory st2 !! k = inventory st !! k.
Proof.
  intros Hs Hst Hty%String.eqb_neq Hl Hne Hid Hprod Hrows Ha Hlt.
  set (td' := session_movement sess td).
  set (row := new_row uuid td' u (Some sid)).
  assert (transaction_type td' = "check_out") as Hty'
    by (unfold td', session_movement; by rewrite Hty).
  assert (source_location_id td' = Some l) as Hs'
    by (unfold td', session_movement; by rewrite Hty).
  pose proof (createInventoryTransaction_check_out uuid td' u (Some sid) st l
                Hty' Hs' Hne Hid) as E.
  simpl in E. change (product_id td') with (product_id td) in E.
  change (quantity td') with (quantity td) in E.
  rewrite Ha in E. destruct (Z.ltb_spec a (quantity td)) as [_|]; [|lia].
  fold row in E. set (st1 := with_transactions _ st) in E.
  pose proof (cancelSession_cases sid u' st1) as Hc.
  change (sessions st1) with (sessions st) in Hc. rewrite Hs, Hst in Hc. simpl in Hc.
  destruct Hc as (st2 & Ec & _ & _ & _ & Hq).
  assert (session_transactions st1 sid = [row]) as Hrows1.
  { assert (session_rows st1 sid = [row]) as Hr.
    { unfold session_rows in *. simpl. rewrite List.filter_app, Hrows. simpl.
      by rewrite bool_decide_true. }
    rewrite session_transactions_all; rewrite Hr; [done|].
    by repeat constructor. }
  assert (∀ p' l', inverse_sum [row] p' l' = at_pair (product_id td) l p' l' (quantity td))
    as Hinv.
  { intros p' l'. unfold inverse_sum. simpl. rewrite Z.add_0_r.
    apply inverse_effect_at; [done|]. right. by repeat split. }
  exists st1, st2.
  split; [by rewrite (addProductToSession_in_progress uuid sid td u st sess)|].
  split; [done|]. split; [exact Ec|]. split.
  - rewrite Hq, Hrows1, Hinv. simpl. rewrite Ha. simpl. unfold at_pair.
    by rewrite bool_decide_true.
  - intros [p' l'] Hk. rewrite Hq, Hrows1, Hinv. simpl. unfold at_pair.
    rewrite bool_decide_false by congruence.
    destruct (inventory st !! (p', l')); simpl; [f_equal; lia|done].
Qed.

(** ** The ledger and the quantities out of step *)

(** C2 (the code diverges): the store starts in step with its ledger: 10
    units, one check_in row of 10.  A check-out of 15 is rejected, but its
    row stays in the ledger; after the check-in of 5 that follows and
    resolves, the record holds 15 while the rows of the pair sum to
    10 - 15 + 5 = 0.  And a transfer row that names no destination
    resolves, is logged and moves nothing: the record holds 10 while the
    rows sum to 10 - 5 = 5. *)
Theorem ledger_diverges_from_quantities :
  ledger_is_system_of_record a_logged_stock
  ∧ (∃ st1 r st2,
       createInventoryTransaction "t2" check_out_15 "usr-1" None a_logged_stock
       = (Rejected (JsError "Insufficient quantity available"), st1)
       ∧ createInventoryTransaction "t3" (movement "check_in" None (Some "loc-1") 5)
           "usr-1" None st1
         = (Resolved r, st2)
       ∧ quantity_at st2 "prod-1" "loc-1" = 15
       ∧ signed_sum (inventory_transactions st2) "prod-1" "loc-1" = 0)
  ∧ (∃ r st3,
       createInventoryTransaction "t2" (movement "transfer" (Some "loc-1") None 5)
         "usr-1" None a_logged_stock
       = (Resolved r, st3)
       ∧ quantity_at st3 "prod-1" "loc-1" = 10
       ∧ signed_sum (inventory_transactions st3) "prod-1" "loc-1" = 5).
Proof.
  split; [|split].
  - intros p l. unfold quantity_at, signed_sum.
    cbv [a_logged_stock inventory inventory_transactions foldr signed_by_type
         trx_data new_row movement product_id transaction_type
         destination_location_id source_location_id quantity].
    change (String.eqb "check_in" "check_in") with true. cbv iota.
    unfold at_location.
    destruct (String.eqb_spec "prod-1" p) as [<-|Hp]; cbn [negb].
    + case_bool_decide as Hl.
      * injection Hl as <-. vm_compute; reflexivity.
      * rewrite lookup_singleton_ne by congruence. done.
    + rewrite lookup_singleton_ne by congruence. done.
  - eexists _, _, _. split; [vm_compute; reflexivity|].
    split; [vm_compute; reflexivity|]. split; vm_compute; reflexivity.
  - eexists _, _. split; [vm_compute; reflexivity|]. split; vm_compute; reflexivity.
Qed.

(** ** Quantities that are not positive *)


(** ** Rows that move no quantity *)

(** C10, as stated, fails: a row of a type that is none of check_in,
    check_out and transfer is not always inserted: the store refuses the
    type "audit", which its CHECK does not list, and the ledger is as it
    was. *)
Lemma unlisted_type_is_refused :
  let r := createInventoryTransaction "t2" (movement "audit" None None 5)
             "usr-1" None a_logged_stock in
  transaction_type (movement "audit" None None 5) ≠ "check_in"
  ∧ transaction_type (movement "audit" None None 5) ≠ "check_out"
  ∧ transaction_type (movement "audit" None None 5) ≠ "transfer"
  ∧ r.1 = Rejected (ConstraintFailed "inventory_transactions.transaction_type")
  ∧ inventory_transactions r.2 = inventory_transactions a_logged_stock.
Proof. vm_compute. by repeat split. Qed.

Lemma updateInventoryQuantity_writes uuid p l q u st :
  inventory (updateInventoryQuantity uuid p l q u st).2
  = <[(p, l) := q]> (inventory st).
Proof.
  unfold updateInventoryQuantity, createInventoryTransaction, update_inventory_for.
  step.
  destruct (inventory st !! (p, l)) as [q0|] eqn:E; simpl; rewrite ?E; simpl;
    try (destruct (0 <? q - q0); simpl);
    unfold transaction_type_accepted; simpl;
    destruct (existsb _ _); simpl; try done;
    apply map_eq; intros k; rewrite lookup_alter, lookup_insert;
    case_decide; subst; by rewrite ?E.
Qed.

Lemma updateInventoryQuantity_logs uuid p l q u st r st' :
  updateInventoryQuantity uuid p l q u st = (Resolved r, st') →
  ∃ row, inventory_transactions st' = (inventory_transactions st ++ [row])%list
         ∧ transaction_type (trx_data row) = "adjustment"
         ∧ product_id (trx_data row) = p.
Proof.
  unfold updateInventoryQuantity, createInventoryTransaction, update_inventory_for.
  intros E. step_in E.
  destruct (inventory st !! (p, l)) as [q0|] eqn:Ei; simpl in E; rewrite ?Ei in E;
    simpl in E;
    try (destruct (0 <? q - q0); simpl in E);
    unfold transaction_type_accepted in E; simpl in E;
    destruct (existsb _ _); simpl in E; try discriminate;
    injection E as _ <-; eexists; by repeat split.
Qed.

(** C10, amended: a call of [createInventoryTransaction] whose type is none
    of check_in, check_out and transfer never creates or changes an
    inventory record, whatever its outcome.  Only an adjustment row is
    accepted by the store: when the call resolves, the type is adjustment
    and the row has been appended to the ledger; when it is rejected,
    nothing has been written, and every type but adjustment is rejected.
    The quantity of an adjustment is written by [updateInventoryQuantity]
    itself, before it logs: the record it counts holds the counted quantity
    whatever becomes of the logging call, and when the call resolves the one
    row it has appended is an adjustment row of the product. *)
Theorem adjustment_row_moves_no_quantity
    (uuid : string) (td : transaction_data) (u : string) (s : option string) (st : db)
    (p l : string) (q : Z) :
  transaction_type td ≠ "check_in" →
  transaction_type td ≠ "check_out" →
  transaction_type td ≠ "transfer" →
  (∀ c st', createInventoryTransaction uuid td u s st = (c, st') →
     inventory st' = inventory st
     ∧ match c with
       | Resolved _ =>
           transaction_type td = "adjustment"
           ∧ inventory_transactions st'
             = (inventory_transactions st ++ [new_row uuid td u s])%list
       | Rejected _ => st' = st
       end)
  ∧ (transaction_type td ≠ "adjustment" →
     ∃ e, createInventoryTransaction uuid td u s st = (Rejected e, st))
  ∧ (∀ uuid' a, inventory st !! (p, l) = Some a →
       inventory (updateInventoryQuantity uuid' p l q u st).2
       = <[(p, l) := q]> (inventory st))
  ∧ (∀ r st', updateInventoryQuantity uuid p l q u st = (Resolved r, st') →
       inventory st' = <[(p, l) := q]> (inventory st)
       ∧ ∃ row, inventory_transactions st' = (inventory_transactions st ++ [row])%list
                ∧ transaction_type (trx_data row) = "adjustment"
                ∧ product_id (trx_data row) = p).
Proof.
  intros H1 H2 H3.
  assert (transaction_type_accepted (transaction_type td) = true →
          transaction_type td = "adjustment") as Hadj.
  { unfold transaction_type_accepted.
    apply String.eqb_neq in H1, H2, H3. rewrite H1, H2, H3. simpl.
    rewrite orb_false_r. apply String.eqb_eq. }
  split; [|split; [|split]].
  - intros c st' E. destruct c as [r|e].
    + destruct (createInventoryTransaction_resolved _ _ _ _ _ _ _ E)
        as (Hacc & _ & _ & _ & _ & _ & Hrow & _).
      destruct (resolved_movement_store _ _ _ _ _ _ _ E) as [_ Hi].
      split; [|by split; [apply Hadj|]].
      rewrite Hi. unfold moved_inventory.
      apply String.eqb_neq in H1, H2, H3. by rewrite H1, H2, H3.
    + destruct (createInventoryTransaction_rejected _ _ _ _ _ _ _ E)
        as [[_ ->]|[_ (l' & _ & _ & H)]]; [done|].
      exfalso.
      destruct (inventory st !! (product_id td, l'));
        [destruct H as [_ H]|]; destruct H as [[? _]|[? _]]; done.
  - intros Hna.
    pose proof (createInventoryTransaction_cases uuid td u s st) as H. simpl in H.
    destruct (transaction_type_accepted (transaction_type td)); simpl in H.
    + by destruct Hna, Hadj.
    + by eexists.
  - intros uuid' a _. apply updateInventoryQuantity_writes.
  - intros r st' E. split.
    + pose proof (updateInventoryQuantity_writes uuid p l q u st) as H.
      by rewrite E in H.
    + by eapply updateInventoryQuantity_logs.
Qed.

(** ** The further theorems at work on the worked stores *)


(** C10 at work: a bare adjustment row of 7 units is logged and leaves the
    record at 10; a count of 17 is written to the record. *)
Lemma adjustment_row_moves_no_quantity_witness :
  (∃ v st', createInventoryTransaction "t2"
              (movement "adjustment" None (Some "loc-1") 7) "usr-1" None a_logged_stock
            = (Resolved v, st')
     ∧ inventory st' = inventory a_logged_stock
     ∧ inventory_transactions st'
       = (inventory_transactions a_logged_stock
          ++ [new_row "t2" (movement "adjustment" None (Some "loc-1") 7) "usr-1" None])%list)
  ∧ inventory (updateInventoryQuantity "t3" "prod-1" "loc-1" 17 "usr-1" a_logged_stock).2
      !! ("prod-1", "loc-1") = Some 17.
Proof.
  destruct (adjustment_row_moves_no_quantity "t2"
              (movement "adjustment" None (Some "loc-1") 7) "usr-1" None a_logged_stock
              "prod-1" "loc-1" 17) as (H1 & _ & H3 & _);
    [simpl; discriminate|simpl; discriminate|simpl; discriminate|].
  split.
  - assert (∃ v st', createInventoryTransaction "t2"
                       (movement "adjustment" None (Some "loc-1") 7) "usr-1" None
                       a_logged_stock = (Resolved v, st')) as (v & st' & E)
      by (eexists _, _; vm_compute; reflexivity).
    destruct (H1 _ _ E) as (Hi & _ & Hrow).
    exists v, st'. by repeat split.
  - rewrite (H3 "t3" 10) by reflexivity. apply lookup_insert_eq.
Defined.

(** X1 at work: 5 units checked into the record of 10. *)
Lemma check_in_adds_at_destination_witness :
  ∃ v st', createInventoryTransaction "u1" (movement "check_in" None (Some "loc-1") 5)
             "usr-1" None ten_in_stock = (Resolved v, st')
    ∧ inventory st' !! ("prod-1", "loc-1") = Some 15.
Proof.
  assert (∃ v st', createInventoryTransaction "u1"
                     (movement "check_in" None (Some "loc-1") 5)
                     "usr-1" None ten_in_stock = (Resolved v, st')) as (v & st' & E)
    by (eexists _, _; vm_compute; reflexivity).
  assert ("loc-1" ≠ "") as Hne by discriminate.
  pose proof (check_in_adds_at_destination "u1"
                (movement "check_in" None (Some "loc-1") 5) "usr-1" None ten_in_stock
                "loc-1" (Resolved v) st' eq_refl eq_refl Hne E) as H.
  cbv beta iota in H. destruct H as (Hq & _ & _).
  exists v, st'. split; [exact E|]. etrans; [exact Hq|]. vm_compute; reflexivity.
Defined.

(** X2 at work: 15 units cannot leave a record of 10; the row is logged. *)
Lemma check_out_outcomes_witness :
  ∃ st', createInventoryTransaction "u1" check_out_15 "usr-1" None ten_in_stock
         = (Rejected (JsError "Insufficient quantity available"), st')
    ∧ inventory st' = inventory ten_in_stock
    ∧ inventory_transactions st' = [new_row "u1" check_out_15 "usr-1" None].
Proof.
  assert (∃ st', createInventoryTransaction "u1" check_out_15 "usr-1" None ten_in_stock
                 = (Rejected (JsError "Insufficient quantity available"), st'))
    as (st' & E) by (eexists; vm_compute; reflexivity).
  assert ("loc-1" ≠ "") as Hne by discriminate.
  pose proof (check_out_outcomes "u1" check_out_15 "usr-1" None ten_in_stock "loc-1"
                _ st' eq_refl eq_refl Hne E) as H.
  cbv beta iota in H. destruct H as (Hi & _ & _ & Hrow).
  exists st'. split; [exact E|]. split; [exact Hi|].
  apply Hrow. right. by left.
Defined.

(** X3 at work: 4 of the 10 units go from loc-1 to loc-2. *)
Lemma transfer_conserves_stock_witness :
  let st' := (createInventoryTransaction "u1"
                (movement "transfer" (Some "loc-1") (Some "loc-2") 4)
                "usr-1" None ten_in_stock).2 in
  quantity_at st' "prod-1" "loc-1" = 6
  ∧ quantity_at st' "prod-1" "loc-2" = 4
  ∧ quantity_at st' "prod-1" "loc-1" + quantity_at st' "prod-1" "loc-2" = 10.
Proof.
  intros st'.
  destruct (transfer_conserves_stock "u1"
              (movement "transfer" (Some "loc-1") (Some "loc-2") 4)
              "usr-1" None ten_in_stock st' "loc-1" "loc-2" None)
    as (H & _); [reflexivity|reflexivity|discriminate|reflexivity|discriminate
                |vm_compute; reflexivity|].
  destruct H as (H1 & H2 & H3); [discriminate|].
  simpl in H1, H2, H3. rewrite H3, H1, H2. vm_compute. by repeat split.
Defined.


(** X7 at work: the six rows of the working day have six ids. *)
Lemma ledger_ids_stay_unique_witness :
  NoDup (trx_id <$> inventory_transactions after_working_day)
  ∧ length (inventory_transactions after_working_day) = 6%nat.
Proof.
  split; [|vm_compute; reflexivity].
  apply (ledger_ids_stay_unique a_working_day empty_db). constructor.
Defined.

(** X8 at work: no record of the working day is negative. *)
Lemma quantities_stay_non_negative_witness :
  Forall non_negative_operation a_working_day
  ∧ quantities_non_negative after_working_day.
Proof.
  assert (Forall non_negative_operation a_working_day) as Hops
    by (repeat constructor; simpl; lia).
  split; [exact Hops|].
  apply (quantities_stay_non_negative a_working_day empty_db Hops).
  intros k q H. vm_compute in H. discriminate.
Defined.

(** X9 at work: a second product with the barcode of the first does not
    enter the catalogue. *)
Lemma barcodes_stay_unique_witness :
  let st := (run_all [CreateProduct "1" a_product "usr-1";
                      CreateProduct "2" same_barcode "usr-1"] empty_db).2 in
  barcodes_unique st ∧ size (products st) = 1%nat.
Proof.
  intros st. split; [|vm_compute; reflexivity].
  apply (barcodes_stay_unique
           [CreateProduct "1" a_product "usr-1"; CreateProduct "2" same_barcode "usr-1"]
           empty_db).
  intros id1 id2 p1 p2 b H. vm_compute in H. discriminate.
Defined.

(** X10 at work: the product of the catalogue is renamed and keeps its
    barcode. *)
Lemma updateProduct_outcomes_witness :
  ∃ st', updateProduct "prod-1" a_rename a_catalogue
         = (Resolved (Some (apply_update a_rename a_product)), st')
    ∧ st' = with_products (<["prod-1" := apply_update a_rename a_product]>) a_catalogue
    ∧ barcode (apply_update a_rename a_product) = Some "CAB123456"
    ∧ product_name (apply_update a_rename a_product) = "Reserve Cab".
Proof.
  assert (∃ st', updateProduct "prod-1" a_rename a_catalogue
                 = (Resolved (Some (apply_update a_rename a_product)), st'))
    as (st' & E) by (eexists; vm_compute; reflexivity).
  destruct (updateProduct_outcomes "prod-1" a_rename a_catalogue) as (_ & _ & _ & H).
  destruct (H _ _ E) as (p & Hp & _ & Hst).
  assert (products a_catalogue !! "prod-1" = Some a_product) as Hp' by reflexivity.
  rewrite Hp in Hp'. injection Hp' as ->.
  exists st'. by repeat split.
Defined.

(** X13 at work: the deleted product is still stored, deactivated. *)
Lemma deleteProduct_hides_the_product_witness :
  deleteProduct "prod-1" a_catalogue = (Resolved true, a_deleted_product)
  ∧ deleteProduct "prod-1" a_deleted_product = (Resolved true, a_deleted_product)
  ∧ deleteProduct "prod-2" a_catalogue
    = (Rejected (JsError "Product not found"), a_catalogue).
Proof.
  destruct (deleteProduct_hides_the_product "prod-1" a_catalogue) as (_ & H).
  destruct (H a_product) as (H1 & H2 & _); [reflexivity|].
  destruct (deleteProduct_hides_the_product "prod-2" a_catalogue) as (H3 & _).
  split; [exact H1|]. split; [exact H2|]. apply H3. reflexivity.
Defined.

(** X14 at work: the product created with CAB123456 is found by it. *)
Lemma created_product_is_found_by_barcode_witness :
  let st' := (createProduct "1" a_product "usr-1" empty_db).2 in
  getProductByBarcode "CAB123456" st'
  = (Resolved (Some ("prod-1", inserted_product a_product)), st').
Proof.
  intros st'.
  destruct (created_product_is_found_by_barcode "1" a_product "usr-1" empty_db st'
              (Some (inserted_product a_product)) "CAB123456")
    as (_ & H); [reflexivity|discriminate|vm_compute; reflexivity|].
  exact H.
Defined.

(** X15 at work: once the check-in session is completed, it cannot be
    cancelled. *)
Lemma completed_session_is_frozen_witness :
  let st' := with_sessions (<["sess-s1" := set_status "completed" the_check_in_session]>)
               during_check_in in
  completeSession "sess-s1" "usr-1" during_check_in
  = (Resolved (Some (set_status "completed" the_check_in_session)), st')
  ∧ cancelSession "sess-s1" "usr-1" st'
    = (Rejected (JsError "Session is already completed or cancelled"), st').
Proof.
  intros st'.
  destruct (completed_session_is_frozen "sess-s1" "usr-1" during_check_in
              the_check_in_session) as (H1 & H2 & _);
    [vm_compute; reflexivity|reflexivity|].
  split; [exact H1|apply H2].
Defined.

(** X16 at work: there is no session sess-s9. *)
Lemma unknown_session_is_rejected_witness :
  cancelSession "sess-s9" "usr-1" during_check_in
  = (Rejected (JsError "Session not found"), during_check_in).
Proof.
  destruct (unknown_session_is_rejected "sess-s9" during_check_in) as (_ & H & _);
    [vm_compute; reflexivity|].
  apply H.
Defined.

(** X17 at work: 2 more units enter the check-in session: 20 becomes 22. *)
Lemma session_type_decides_direction_witness :
  ∃ v st', addProductToSession "t9" "sess-s1" (movement "" None None 2) "usr-1"
             during_check_in = (Resolved v, st')
    ∧ inventory st' !! ("prod-1", "loc-1") = Some 22.
Proof.
  assert (∃ v st', addProductToSession "t9" "sess-s1" (movement "" None None 2) "usr-1"
                     during_check_in = (Resolved v, st')) as (v & st' & E)
    by (eexists _, _; vm_compute; reflexivity).
  assert ("loc-1" ≠ "") as Hne by discriminate.
  assert (sessions during_check_in !! "sess-s1" = Some the_check_in_session) as Hs
    by (vm_compute; reflexivity).
  pose proof (session_type_decides_direction "t9" "sess-s1" (movement "" None None 2)
                "usr-1" during_check_in the_check_in_session "loc-1" (Resolved v) st'
                Hs eq_refl eq_refl Hne E) as H.
  cbv beta iota zeta in H.
  change (String.eqb (session_type the_check_in_session) "check_in") with true in H.
  cbv beta iota in H. destruct H as (_ & _ & _ & Hq).
  exists v, st'. split; [exact E|]. rewrite Hq. vm_compute; reflexivity.
Defined.

(** X18 at work: the session that checked 5 and 3 units into 12 is
    cancelled, and the record is back at 12. *)
Lemma cancelling_undoes_the_session_witness :
  quantity_at during_check_in "prod-1" "loc-1" = 20
  ∧ ∃ st', cancelSession "sess-s1" "usr-1" during_check_in
           = (Resolved (Some (set_status "cancelled" the_check_in_session)), st')
      ∧ quantity_at st' "prod-1" "loc-1" = 12.
Proof.
  split; [vm_compute; reflexivity|].
  destruct (cancelling_undoes_the_session "sess-s1" "usr-1" (drop 3 an_open_check_in)
              a_session_opened during_check_in the_check_in_session "loc-1")
    as (st' & E & Hq);
    [vm_compute; reflexivity|reflexivity|reflexivity|discriminate|vm_compute; reflexivity
    | |vm_compute; reflexivity|].
  - unfold an_open_check_in. simpl.
    constructor; [split; [reflexivity|vm_compute; by eexists]|].
    constructor; [split; [reflexivity|vm_compute; by eexists]|].
    constructor.
  - exists st'. split; [exact E|]. rewrite Hq. vm_compute; reflexivity.
Defined.


(** X22 at work: the deleted product is listed among the deactivated. *)
Lemma deleted_product_leaves_the_listing_witness :
  (∀ rows p', getProducts (whole_catalogue None 10) a_deleted_product
              = (Resolved rows, a_deleted_product) → ("prod-1", p') ∉ rows)
  ∧ (∃ rows, getProducts (whole_catalogue (Some (Some false)) 10) a_deleted_product
             = (Resolved rows, a_deleted_product)
             ∧ ("prod-1", deactivate a_product) ∈ rows)
  ∧ getProductById "prod-1" a_deleted_product
    = (Resolved (Some (deactivate a_product)), a_deleted_product).
Proof.
  destruct (deleted_product_leaves_the_listing "prod-1" a_catalogue a_deleted_product
              a_product true) as (H1 & H2 & H3);
    [reflexivity|vm_compute; reflexivity|].
  split; [|split; [|exact H3]].
  - intros rows p'. apply H1. by left.
  - apply H2; [by right|vm_compute; lia].
Defined.

(** X25 at work: the first movement of the check-in session is listed. *)
Lemma session_listing_gains_the_movement_witness :
  let row := new_row "t2" (session_movement the_check_in_session (movement "" None None 5))
               "usr-1" (Some "sess-s1") in
  let st' := (addProductToSession "t2" "sess-s1" (movement "" None None 5) "usr-1"
                a_session_opened).2 in
  ∃ rows, getSessionTransactions "sess-s1" st' = (Resolved rows, st')
          ∧ rows ≡ₚ [row].
Proof.
  intros row st'.
  destruct (session_listing_gains_the_movement "t2" "sess-s1" (movement "" None None 5)
              "usr-1" a_session_opened st' the_check_in_session (Some row))
    as (_ & _ & _ & (rows & E & Hrows) & _);
    [vm_compute; reflexivity|reflexivity|vm_compute; by eexists|vm_compute; reflexivity|].
  exists rows. split; [exact E|]. exact Hrows.
Defined.

(** X26 at work: 5 units cannot leave the 3 at loc-2; cancelling the
    session leaves 8 there. *)
Lemma cancel_returns_a_rejected_check_out_witness :
  ∃ st1 st2,
    addProductToSession "t2" "sess-s1" (movement "" None None 5) "usr-1" during_check_out
    = (Rejected (JsError "Insufficient quantity available"), st1)
    ∧ inventory st1 !! ("prod-1", "loc-2") = Some 3
    ∧ cancelSession "sess-s1" "usr-1" st1
      = (Resolved (Some (set_status "cancelled" the_check_out_session)), st2)
    ∧ inventory st2 !! ("prod-1", "loc-2") = Some 8.
Proof.
  destruct (cancel_returns_a_rejected_check_out "t2" "sess-s1" (movement "" None None 5)
              "usr-1" "usr-1" during_check_out the_check_out_session "loc-2" 3)
    as (st1 & st2 & E1 & Hi & E2 & Hq & _);
    [vm_compute; reflexivity|reflexivity|discriminate|reflexivity|discriminate
    |vm_compute; reflexivity|vm_compute; by eexists|vm_compute; reflexivity
    |vm_compute; reflexivity|simpl; lia|].
  exists st1, st2. split; [exact E1|]. split; [by rewrite Hi|].
  split; [exact E2|exact Hq].
Defined.

(** X20 at work: one record of the stocked store is at its minimum; the
    report and the dashboard both count it. *)
Lemma low_stock_report_agrees_witness :
  ∃ rep sm,
    getLowStockReport None None a_stocked_store = (Resolved rep, a_stocked_store)
    ∧ getInventorySummary a_stocked_store = (Resolved sm, a_stocked_store)
    ∧ count rep = 1%nat
    ∧ low_stock_count sm = 1%nat.
Proof.
  destruct (low_stock_report_agrees None None a_stocked_store)
    as (rep & E & _ & _ & _ & H).
  destruct H as (sm & Es & Hs); [reflexivity|reflexivity| |].
  - intros p l q H%elem_of_map_to_list. vm_compute in H.
    apply elem_of_cons in H as [[= -> -> ->]|H]; [vm_compute; by eexists|].
    apply elem_of_cons in H as [[= -> -> ->]|H]; [vm_compute; by eexists|].
    by apply elem_of_nil in H.
  - exists rep, sm. split; [exact E|]. split; [exact Es|].
    assert (low_stock_count sm = 1%nat) as H1.
    { unfold getInventorySummary, bind, get, ret in Es. injection Es as <-.
      vm_compute; reflexivity. }
    split; [by rewrite Hs|exact H1].
Defined.

(** X21 at work: the product of the catalogue is listed. *)
Lemma getProducts_rows_are_sound_witness :
  ∃ rows, getProducts (whole_catalogue None 10) a_catalogue = (Resolved rows, a_catalogue)
          ∧ ("prod-1", a_product) ∈ rows.
Proof.
  destruct (getProducts_rows_are_sound (whole_catalogue None 10) a_catalogue)
    as (rows & E & _ & _ & H).
  exists rows. split; [exact E|].
  apply H; [reflexivity|reflexivity|reflexivity|reflexivity|vm_compute; lia|reflexivity].
Defined.

(** X24 at work: a session is opened; a second one under the same id is
    refused. *)
Lemma createSession_opens_in_progress_witness :
  let st' := with_sessions (<["sess-s1" := the_check_in_session]>) a_logged_stock in
  createSession "s1" "check_in" (Some "loc-1") None "usr-1" a_logged_stock
  = (Resolved (Some the_check_in_session), st')
  ∧ getSessionById "sess-s1" st' = (Resolved (Some the_check_in_session), st')
  ∧ ∃ e, createSession "s1" "check_out" None None "usr-2" st' = (Rejected e, st')
         ∧ DuplicateKey e.
Proof.
  intros st'.
  assert (createSession "s1" "check_in" (Some "loc-1") None "usr-1" a_logged_stock
          = (Resolved (Some the_check_in_session), st')) as E
    by (vm_compute; reflexivity).
  destruct (createSession_opens_in_progress "s1" "check_in" (Some "loc-1") None "usr-1"
              a_logged_stock) as (H & _).
  destruct (H _ _ E) as (_ & _ & _ & Hget & _).
  destruct (createSession_opens_in_progress "s1" "check_out" None None "usr-2" st')
    as (_ & H').
  split; [exact E|]. split; [exact Hget|]. apply H'. vm_compute; by eexists.
Defined.
